(** * NovaSanctum: authentication, sessions and authorization of LuxCore

    A shallow embedding of
      - backend/src/services/novas Sanctum.service.ts  (class NovaSanctumService)
      - the security middleware (authenticateToken, requireRoles,
        requirePermissions, requireOwnerOrAdmin, requireResourceOwnership,
        rateLimitMiddleware)
      - the error handler (handleSpecificErrors, formatErrorResponse,
        errorHandler)
      - backend/src/routes/auth.ts                     (POST /login, POST /refresh)

    Conventions.
      - A JavaScript [Date] is its epoch value in milliseconds, a [Z].
      - A number computed from an expiry string is a [Double]: an integer
        that an IEEE-754 double holds, or [Infinity]; products are rounded
        to nearest, ties to even.
      - [req.params] and [req.body] are plain objects: a property they do
        not hold themselves is looked up in [Object.prototype].
      - Prisma tables are lists of rows in storage order; [findFirst] and
        [findUnique] return the first row that satisfies the filter.
      - A method of the service is a computation [M A]: it reads and writes
        a [World] and either returns or throws.  What a method wrote before
        it throws stays written (there is no transaction in the source).
      - bcryptjs, jsonwebtoken, uuid and node's sha256 are libraries outside
        the repository: they are parameters of the model.
      - Writes to the process logger ([this.logger], [logger.security]) are
        not part of the state. *)

From Stdlib Require Import ZArith Lia Ascii String.
From stdpp Require Import base strings list gmap.

Local Open Scope Z_scope.
Local Open Scope string_scope.

(** ** JavaScript values that reach the guards *)

Inductive JsValue : Type :=
  | JsUndefined
  | JsNull
  | JsBool (b : bool)
  | JsNumber (n : Z)
  | JsString (s : string)
  | JsObject (ref : string).

(** [JsObject ref] is an object or a function; [ref] stands for its
    identity, which is all that [===] and [ToBoolean] look at. *)

(** [ToBoolean]: what [||] and [!] look at. *)
Definition truthy (v : JsValue) : bool :=
  match v with
  | JsUndefined | JsNull => false
  | JsBool b => b
  | JsNumber n => negb (n =? 0)%Z
  | JsString s => negb (String.eqb s "")
  | JsObject _ => true
  end.

(** [a || b] *)
Definition js_or (a b : JsValue) : JsValue := if truthy a then a else b.

(** [a === b] on the values above. *)
Definition js_strict_eq (a b : JsValue) : bool :=
  match a, b with
  | JsUndefined, JsUndefined => true
  | JsNull, JsNull => true
  | JsBool x, JsBool y => Bool.eqb x y
  | JsNumber x, JsNumber y => (x =? y)%Z
  | JsString x, JsString y => String.eqb x y
  | JsObject x, JsObject y => String.eqb x y
  | _, _ => false
  end.

(** [Array.prototype.includes] on an array of strings. *)
Definition includes (l : list string) (x : string) : bool :=
  existsb (String.eqb x) l.

(** The names every plain object inherits from [Object.prototype]: eleven
    functions and the accessor [__proto__], whose value is
    [Object.prototype] itself. *)
Definition object_prototype : list string :=
  ["constructor"; "hasOwnProperty"; "isPrototypeOf"; "propertyIsEnumerable";
   "toLocaleString"; "toString"; "valueOf"; "__defineGetter__";
   "__defineSetter__"; "__lookupGetter__"; "__lookupSetter__"; "__proto__"].

Definition inherited (key : string) : JsValue :=
  if includes object_prototype key then JsObject ("Object.prototype." +:+ key)
  else JsUndefined.

(** [obj[key]] on a plain object: the property the object holds itself,
    else the one it inherits, else [undefined]. *)
Definition js_get (obj : gmap string JsValue) (key : string) : JsValue :=
  match obj !! key with
  | Some v => v
  | None => inherited key
  end.

(** [req.params[key]].  Express builds [req.params] as a plain object and
    fills it by assignment, [params[name] = value]: the values are strings,
    and [__proto__] is never a property of its own, since assigning a
    string to it does nothing. *)
Definition js_param (params : gmap string string) (key : string) : JsValue :=
  if String.eqb key "__proto__" then inherited key
  else js_get (JsString <$> params) key.

(** ** Errors *)

(** [new Error(message)] and the [CustomError] family of the error handler. *)
Inductive Exn : Type :=
  | JsError (message : string)
  | CustomError (message : string) (statusCode : Z) (code : string).

Definition AuthenticationError (message : string) : Exn :=
  CustomError message 401 "AUTHENTICATION_ERROR".

Definition AuthorizationError (message : string) : Exn :=
  CustomError message 403 "AUTHORIZATION_ERROR".

Definition exn_message (e : Exn) : string :=
  match e with
  | JsError m => m
  | CustomError m _ _ => m
  end.

(** ** Data model

    One module per Prisma model and per exported interface, so that fields
    keep the names they have in the source. *)

Record Permission := { permission_name : string }.

Record Role := { role_name : string; role_permissions : list Permission }.

(** A row of [prisma.user], with the relation [roles -> permissions] loaded.
    [lockedUntil] and [lastLoginAt] are nullable. *)
Module User.
Record t := {
  id : string;
  email : string;
  username : string;
  password : string;
  roles : list Role;
  isActive : bool;
  isLocked : bool;
  lockedUntil : option Z;
  failedLoginAttempts : Z;
  lastLoginAt : option Z;
  createdAt : Z;
  updatedAt : Z
}.

(** The [data] clauses of the updates the service issues. *)
Definition increment_failedLoginAttempts (n : Z) (u : t) : t :=
  {| id := id u; email := email u; username := username u; password := password u;
     roles := roles u; isActive := isActive u; isLocked := isLocked u;
     lockedUntil := lockedUntil u;
     failedLoginAttempts := failedLoginAttempts u + n;
     lastLoginAt := lastLoginAt u; createdAt := createdAt u; updatedAt := updatedAt u |}.

Definition set_lock (locked : bool) (until : option Z) (u : t) : t :=
  {| id := id u; email := email u; username := username u; password := password u;
     roles := roles u; isActive := isActive u; isLocked := locked;
     lockedUntil := until;
     failedLoginAttempts := failedLoginAttempts u;
     lastLoginAt := lastLoginAt u; createdAt := createdAt u; updatedAt := updatedAt u |}.

Definition reset_failedLoginAttempts (u : t) : t :=
  {| id := id u; email := email u; username := username u; password := password u;
     roles := roles u; isActive := isActive u; isLocked := false;
     lockedUntil := None;
     failedLoginAttempts := 0;
     lastLoginAt := lastLoginAt u; createdAt := createdAt u; updatedAt := updatedAt u |}.

Definition set_lastLoginAt (d : Z) (u : t) : t :=
  {| id := id u; email := email u; username := username u; password := password u;
     roles := roles u; isActive := isActive u; isLocked := isLocked u;
     lockedUntil := lockedUntil u;
     failedLoginAttempts := failedLoginAttempts u;
     lastLoginAt := Some d; createdAt := createdAt u; updatedAt := updatedAt u |}.
End User.

Module NovaSanctumUser.
Record t := {
  id : string;
  email : string;
  username : string;
  roles : list string;
  permissions : list string;
  isActive : bool;
  lastLoginAt : option Z;
  createdAt : Z;
  updatedAt : Z
}.
End NovaSanctumUser.

(** ** Numbers

    A JavaScript number is an IEEE-754 double.  The ones
    [parseJwtExpiration] computes are integers or [Infinity]: [Num n] is the
    double whose value is the integer [n]. *)
Inductive Double : Type :=
  | Num (n : Z)
  | PlusInfinity.

(** The double nearest to a non-negative integer [n], ties to even: exact
    below [2^53]; above, [n] keeps 53 significant bits; from [2^1024] on
    the rounded value is [Infinity]. *)
Definition to_double (n : Z) : Double :=
  if (n <? 2 ^ 53)%Z then Num n
  else
    let e := Z.log2 n - 52 in
    let q := n / 2 ^ e in
    let r := n mod 2 ^ e in
    let half := 2 ^ (e - 1) in
    let q' :=
      if (r <? half)%Z then q
      else if (half <? r)%Z then q + 1
      else if Z.even q then q else q + 1 in
    if (2 ^ 1024 <=? q' * 2 ^ e)%Z then PlusInfinity else Num (q' * 2 ^ e).

(** [x * k] for a positive integer [k] that a double holds exactly: the
    exact product, rounded. *)
Definition double_mul (x : Double) (k : Z) : Double :=
  match x with
  | Num n => to_double (n * k)
  | PlusInfinity => PlusInfinity
  end.

Module NovaSanctumToken.
Record t := {
  accessToken : string;
  refreshToken : string;
  expiresIn : Double;
  refreshExpiresIn : Double;
  tokenType : string
}.
End NovaSanctumToken.

(** A row of [prisma.session]; [refreshToken] holds the hash of the token. *)
Module Session.
Record t := {
  id : string;
  userId : string;
  refreshToken : string;
  ipAddress : string;
  userAgent : string;
  isActive : bool;
  expiresAt : Z;
  createdAt : Z
}.

Definition rotate (hash : string) (expiry : Z) (s : t) : t :=
  {| id := id s; userId := userId s; refreshToken := hash;
     ipAddress := ipAddress s; userAgent := userAgent s; isActive := isActive s;
     expiresAt := expiry; createdAt := createdAt s |}.

Definition deactivate (s : t) : t :=
  {| id := id s; userId := userId s; refreshToken := refreshToken s;
     ipAddress := ipAddress s; userAgent := userAgent s; isActive := false;
     expiresAt := expiresAt s; createdAt := createdAt s |}.
End Session.

(** A row of [prisma.auditLog]; [details] keeps the keys in the order the
    object literal lists them. *)
Module AuditLog.
Record t := {
  userId : option string;
  action : string;
  resource : string;
  ipAddress : JsValue;
  userAgent : JsValue;
  details : list (string * JsValue);
  timestamp : Z
}.
End AuditLog.

Module Config.
Record t := {
  jwtSecret : string;
  jwtExpiresIn : string;
  refreshTokenExpiresIn : string;
  bcryptRounds : Z;
  rateLimitWindowMs : Z;
  rateLimitMax : Z;
  sessionTimeoutMs : Z;
  maxLoginAttempts : Z;
  lockoutDurationMs : Z
}.
End Config.

(** The configuration the constructor builds when no environment variable
    is set: every [process.env.X || d] takes its default [d]. *)
Definition default_config : Config.t := {|
  Config.jwtSecret := "default-secret-change-in-production";
  Config.jwtExpiresIn := "24h";
  Config.refreshTokenExpiresIn := "7d";
  Config.bcryptRounds := 12;
  Config.rateLimitWindowMs := 900000;
  Config.rateLimitMax := 100;
  Config.sessionTimeoutMs := 86400000;
  Config.maxLoginAttempts := 5;
  Config.lockoutDurationMs := 900000
|}.

(** ** Authorization evaluator (pure methods of the service) *)

Definition hasPermission (user : NovaSanctumUser.t) (permission : string) : bool :=
  includes (NovaSanctumUser.permissions user) permission.

Definition hasRole (user : NovaSanctumUser.t) (role : string) : bool :=
  includes (NovaSanctumUser.roles user) role.

Definition hasAnyRole (user : NovaSanctumUser.t) (roles : list string) : bool :=
  existsb (fun role => includes (NovaSanctumUser.roles user) role) roles.

Definition hasAllPermissions (user : NovaSanctumUser.t) (permissions : list string) : bool :=
  forallb (fun permission => includes (NovaSanctumUser.permissions user) permission)
          permissions.

(** ** Route guards (security middleware) *)

(** What a guard reads of the Express request.  [req_params] holds the
    route parameters.  [req_body] is the parsed body: the application mounts
    [express.json()] before every route, so it is a plain object (one that
    [JSON.parse] built, or the empty one). *)
Record Request := {
  req_user : option NovaSanctumUser.t;
  req_params : gmap string string;
  req_body : gmap string JsValue
}.

(** How a guard ends: [next()] or [next(err)]. *)
Inductive Next : Type :=
  | NextOk
  | NextErr (err : Exn).

Definition requireRoles (roles : list string) (req : Request) : Next :=
  match req_user req with
  | None => NextErr (AuthenticationError "Authentication required")
  | Some user =>
      if negb (hasAnyRole user roles)
      then NextErr (AuthorizationError "Insufficient role permissions")
      else NextOk
  end.

Definition requirePermissions (permissions : list string) (req : Request) : Next :=
  match req_user req with
  | None => NextErr (AuthenticationError "Authentication required")
  | Some user =>
      if negb (hasAllPermissions user permissions)
      then NextErr (AuthorizationError "Insufficient permissions")
      else NextOk
  end.

Definition requirePermission (permission : string) : Request -> Next :=
  requirePermissions [permission].

Definition requireRole (role : string) : Request -> Next :=
  requireRoles [role].

Definition requireAdmin : Request -> Next := requireRole "admin".

(** [req.params[ownerIdField] || req.body[ownerIdField]] *)
Definition resourceOwnerId (ownerIdField : string) (req : Request) : JsValue :=
  js_or (js_param (req_params req) ownerIdField)
        (js_get (req_body req) ownerIdField).

Definition requireOwnerOrAdmin (ownerIdField : string) (req : Request) : Next :=
  let owner := resourceOwnerId ownerIdField req in
  match req_user req with
  | None => NextErr (AuthenticationError "Authentication required")
  | Some user =>
      if hasRole user "admin" then NextOk
      else if js_strict_eq (JsString (NovaSanctumUser.id user)) owner then NextOk
      else NextErr (AuthorizationError "Access denied")
  end.

(** ** The world the service runs in *)

Record World := {
  users : list User.t;
  sessions : list Session.t;
  auditLog : list AuditLog.t;
  now : Z;
  uuids_drawn : nat;
  rows_created : nat
}.

Definition set_users (us : list User.t) (w : World) : World :=
  {| users := us; sessions := sessions w; auditLog := auditLog w; now := now w;
     uuids_drawn := uuids_drawn w; rows_created := rows_created w |}.

Definition set_sessions (ss : list Session.t) (w : World) : World :=
  {| users := users w; sessions := ss; auditLog := auditLog w; now := now w;
     uuids_drawn := uuids_drawn w; rows_created := rows_created w |}.

Definition set_auditLog (al : list AuditLog.t) (w : World) : World :=
  {| users := users w; sessions := sessions w; auditLog := al; now := now w;
     uuids_drawn := uuids_drawn w; rows_created := rows_created w |}.

Definition set_uuids_drawn (n : nat) (w : World) : World :=
  {| users := users w; sessions := sessions w; auditLog := auditLog w; now := now w;
     uuids_drawn := n; rows_created := rows_created w |}.

Definition set_rows_created (n : nat) (w : World) : World :=
  {| users := users w; sessions := sessions w; auditLog := auditLog w; now := now w;
     uuids_drawn := uuids_drawn w; rows_created := n |}.

(** The clock moves between two calls of the service, not during one. *)
Definition set_now (date : Z) (w : World) : World :=
  {| users := users w; sessions := sessions w; auditLog := auditLog w; now := date;
     uuids_drawn := uuids_drawn w; rows_created := rows_created w |}.

(** ** Computations that may throw *)

Definition M (A : Type) : Type := World -> (Exn + A) * World.

Definition ret {A} (a : A) : M A := fun w => (inr a, w).

Definition throw {A} (e : Exn) : M A := fun w => (inl e, w).

Definition bind {A B} (m : M A) (k : A -> M B) : M B :=
  fun w =>
    match m w with
    | (inl e, w') => (inl e, w')
    | (inr a, w') => k a w'
    end.

(** [try { m } catch (error) { h error }] *)
Definition try_catch {A} (m : M A) (h : Exn -> M A) : M A :=
  fun w =>
    match m w with
    | (inl e, w') => h e w'
    | (inr a, w') => (inr a, w')
    end.

Definition gets {A} (f : World -> A) : M A := fun w => (inr (f w), w).

Definition modify (f : World -> World) : M unit := fun w => (inr tt, f w).

Definition when_ (b : bool) (m : M unit) : M unit := if b then m else ret tt.

Notation "'let!' x ':=' m 'in' k" := (bind m (fun x => k))
  (at level 10, x name, m at level 200, k at level 200, only parsing).

Notation "m ';;;' k" := (bind m (fun _ => k))
  (at level 100, k at level 200, right associativity, only parsing).

(** ** Expiry strings *)

Definition is_digit (c : Ascii.ascii) : bool :=
  let n := Z.of_N (Ascii.N_of_ascii c) in (48 <=? n)%Z && (n <=? 57)%Z.

Definition digit_value (c : Ascii.ascii) : Z := Z.of_N (Ascii.N_of_ascii c) - 48.

(** The table [units] of [parseJwtExpiration]. *)
Definition units (c : Ascii.ascii) : option Z :=
  if Ascii.eqb c "s"%char then Some 1000
  else if Ascii.eqb c "m"%char then Some (60 * 1000)
  else if Ascii.eqb c "h"%char then Some (60 * 60 * 1000)
  else if Ascii.eqb c "d"%char then Some (24 * 60 * 60 * 1000)
  else None.

(** [expiresIn.match(/^(\d+)([smhd])$/)]: the decimal value of the digits
    and the entry of [units] for the unit.  [acc] is the value of the digits
    read so far and [seen] says that there is at least one. *)
Fixpoint match_expiration (s : string) (acc : Z) (seen : bool) : option (Z * Z) :=
  match s with
  | EmptyString => None
  | String c rest =>
      if is_digit c then match_expiration rest (10 * acc + digit_value c) true
      else
        match rest with
        | EmptyString => if seen then pair acc <$> units c else None
        | String _ _ => None
        end
  end.

(** [parseInt(value)] on a string of decimal digits: the double nearest to
    the number the digits write. *)
Definition parseInt (value : Z) : Double := to_double value.

(** [parseInt(value) * units[unit]] is a product of doubles. *)
Definition parseJwtExpiration (expiresIn : string) : Exn + Double :=
  match match_expiration expiresIn 0 false with
  | None => inl (JsError "Invalid JWT expiration format")
  | Some (value, unit_ms) => inr (double_mul (parseInt value) unit_ms)
  end.

(** The strings [/^(\d+)([smhd])$/] accepts are some digits followed by a
    unit; [decimal_from 0 digits] is the number the digits write. *)
Fixpoint all_digits (s : string) : bool :=
  match s with
  | EmptyString => true
  | String c rest => is_digit c && all_digits rest
  end.

Fixpoint decimal_from (acc : Z) (s : string) : Z :=
  match s with
  | EmptyString => acc
  | String c rest => decimal_from (10 * acc + digit_value c) rest
  end.

Definition lift {A} (r : Exn + A) : M A := fun w => (r, w).

(** What Prisma's [update({ where: { key: k }, data })] does to a row: [key]
    is a unique column, so only the row that holds [k] changes. *)
Definition update_by {A} (key : A -> string) (k : string) (data : A -> A) (r : A) : A :=
  if String.eqb (key r) k then data r else r.

(** [details.key] on an object literal. *)
Definition js_field (details : list (string * JsValue)) (key : string) : JsValue :=
  match find (fun kv => String.eqb (fst kv) key) details with
  | Some kv => snd kv
  | None => JsUndefined
  end.

Inductive FailureCause : Type :=
  | UserNotFound
  | AccountLocked
  | InvalidPassword.

Definition thrown_message (cause : FailureCause) : string :=
  match cause with
  | UserNotFound => "Invalid credentials"
  | AccountLocked => "Account is locked due to multiple failed login attempts"
  | InvalidPassword => "Invalid credentials"
  end.

Definition audit_reason (cause : FailureCause) : string :=
  match cause with
  | UserNotFound => "User not found"
  | AccountLocked => "Account locked"
  | InvalidPassword => "Invalid password"
  end.

Module JwtPayload.
Record t := { userId : string; type : string }.
End JwtPayload.

(** What [res.status(..).json(..)] sends. *)
#[local] Unset Elimination Schemes.
Inductive Json : Type :=
  | JNull
  | JString (s : string)
  | JNumber (n : Z)
  | JBoolean (b : bool)
  | JObject (fields : list (string * Json)).

#[local] Set Elimination Schemes.

Record Response := { status : Z; json : Json }.

(** [JSON.stringify] writes [Infinity] as [null]. *)
Definition json_number (x : Double) : Json :=
  match x with
  | Num n => JNumber n
  | PlusInfinity => JNull
  end.

(** What [getSecurityStats] returns. *)
Record SecurityStats := {
  stats_totalUsers : nat;
  stats_activeSessions : nat;
  stats_failedLogins24h : nat;
  stats_lockedAccounts : nat;
  stats_config : Config.t
}.

(** The [where] clauses of the queries. *)
Definition by_id (userId : string) (u : User.t) : bool := String.eqb (User.id u) userId.

Definition by_email (email : string) (u : User.t) : bool :=
  String.eqb (User.email u) email.

(** [{ refreshToken: hash, isActive: true, expiresAt: { gt: date } }] *)
Definition active_with_hash (hash : string) (date : Z) (s : Session.t) : bool :=
  String.eqb (Session.refreshToken s) hash
  && Session.isActive s
  && (date <? Session.expiresAt s)%Z.

(** [{ userId, refreshToken: hash, isActive: true }] *)
Definition active_of_user (userId hash : string) (s : Session.t) : bool :=
  String.eqb (Session.userId s) userId
  && String.eqb (Session.refreshToken s) hash
  && Session.isActive s.

(** ** The service *)

Module NovaSanctumService.
Section Service.

(** [this.config] *)
Variable config : Config.t.

(** Libraries the service calls.
      - [sha256 token]: [createHash('sha256').update(token).digest('hex')];
      - [bcrypt_compare password hash]: [bcrypt.compare];
      - [uuidv4 n]: the [n]-th value the uuid generator hands out;
      - [cuid n]: the [n]-th row id the database generates;
      - [jwt_sign payload secret expiresIn date]: [jwt.sign] at [date];
      - [jwt_verify token secret date]: [jwt.verify] at [date], the decoded
        payload or the error it throws. *)
Variable sha256 : string -> string.
Variable bcrypt_compare : string -> string -> bool.
Variable uuidv4 : nat -> string.
Variable cuid : nat -> string.
Variable jwt_sign : JwtPayload.t -> string -> string -> Z -> string.
Variable jwt_verify : string -> string -> Z -> Exn + JwtPayload.t.

(** *** Prisma client *)

Definition prisma_user_findUnique (where_ : User.t -> bool) : M (option User.t) :=
  gets (fun w => find where_ (users w)).

(** [prisma.user.update({ where: { id }, data })]: [id] is the primary key;
    the call throws when no row has it. *)
Definition prisma_user_update (uid : string) (data : User.t -> User.t) : M User.t :=
  fun w =>
    match find (by_id uid) (users w) with
    | None => (inl (JsError "Record to update not found."), w)
    | Some u =>
        (inr (data u),
         set_users (map (update_by User.id uid data) (users w)) w)
    end.

Definition prisma_session_findFirst (where_ : Session.t -> bool) : M (option Session.t) :=
  gets (fun w => find where_ (sessions w)).

Definition prisma_session_update (sid : string) (data : Session.t -> Session.t)
  : M Session.t :=
  fun w =>
    match find (fun s => String.eqb (Session.id s) sid) (sessions w) with
    | None => (inl (JsError "Record to update not found."), w)
    | Some s =>
        (inr (data s),
         set_sessions (map (update_by Session.id sid data) (sessions w)) w)
    end.

(** [prisma.session.create({ data })]: the database fills [id] and
    [createdAt]. *)
Definition prisma_session_create
    (userId refreshToken ipAddress userAgent : string) (isActive : bool) (expiresAt : Z)
  : M Session.t :=
  fun w =>
    let row := {| Session.id := cuid (rows_created w);
                  Session.userId := userId;
                  Session.refreshToken := refreshToken;
                  Session.ipAddress := ipAddress;
                  Session.userAgent := userAgent;
                  Session.isActive := isActive;
                  Session.expiresAt := expiresAt;
                  Session.createdAt := now w |} in
    (inr row,
     set_rows_created (S (rows_created w)) (set_sessions (sessions w ++ [row]) w)).

Definition prisma_auditLog_create (row : AuditLog.t) : M unit :=
  modify (fun w => set_auditLog (auditLog w ++ [row]) w).

(** *** Private helpers *)

Definition hashToken (token : string) : string := sha256 token.

Definition logAuditEvent (userId : option string) (action resource : string)
    (details : list (string * JsValue)) : M unit :=
  let! date := gets now in
  prisma_auditLog_create
    {| AuditLog.userId := userId;
       AuditLog.action := action;
       AuditLog.resource := resource;
       AuditLog.ipAddress := js_or (js_field details "ipAddress") (JsString "unknown");
       AuditLog.userAgent := js_or (js_field details "userAgent") (JsString "unknown");
       AuditLog.details := details;
       AuditLog.timestamp := date |}.

Definition failed_login_details (email ipAddress userAgent reason : string)
  : list (string * JsValue) :=
  [("email", JsString email); ("ipAddress", JsString ipAddress);
   ("userAgent", JsString userAgent); ("reason", JsString reason);
   ("success", JsBool false)].

Definition logFailedLogin (email ipAddress userAgent reason : string) : M unit :=
  logAuditEvent None "LOGIN_FAILED" "AUTH"
    (failed_login_details email ipAddress userAgent reason).

Definition generateTokens (userId : string) : M NovaSanctumToken.t :=
  let! date := gets now in
  let accessToken :=
    jwt_sign {| JwtPayload.userId := userId; JwtPayload.type := "access" |}
             (Config.jwtSecret config) (Config.jwtExpiresIn config) date in
  let! n := gets uuids_drawn in
  modify (set_uuids_drawn (S n));;;
  let refreshToken := uuidv4 n in
  let! expiresIn := lift (parseJwtExpiration (Config.jwtExpiresIn config)) in
  let! refreshExpiresIn :=
    lift (parseJwtExpiration (Config.refreshTokenExpiresIn config)) in
  ret {| NovaSanctumToken.accessToken := accessToken;
         NovaSanctumToken.refreshToken := refreshToken;
         NovaSanctumToken.expiresIn := expiresIn;
         NovaSanctumToken.refreshExpiresIn := refreshExpiresIn;
         NovaSanctumToken.tokenType := "Bearer" |}.

Definition createSession (userId refreshToken ipAddress userAgent : string) : M unit :=
  let! date := gets now in
  prisma_session_create userId (hashToken refreshToken) ipAddress userAgent true
    (date + Config.sessionTimeoutMs config);;;
  ret tt.

Definition updateSession (sessionId refreshToken : string) : M unit :=
  let! date := gets now in
  prisma_session_update sessionId
    (Session.rotate (hashToken refreshToken) (date + Config.sessionTimeoutMs config));;;
  ret tt.

Definition updateLastLogin (userId : string) : M unit :=
  let! date := gets now in
  prisma_user_update userId (User.set_lastLoginAt date);;;
  ret tt.

Definition handleFailedLogin (userId email ipAddress userAgent : string) : M unit :=
  let! user := prisma_user_update userId (User.increment_failedLoginAttempts 1) in
  when_ (Config.maxLoginAttempts config <=? User.failedLoginAttempts user)%Z
    (let! date := gets now in
     prisma_user_update userId
       (User.set_lock true (Some (date + Config.lockoutDurationMs config)));;;
     ret tt);;;
  logFailedLogin email ipAddress userAgent "Invalid password".

Definition resetFailedLoginAttempts (userId : string) : M unit :=
  prisma_user_update userId User.reset_failedLoginAttempts;;;
  ret tt.

(** *** Public methods *)

Definition authenticateUser (email password ipAddress userAgent : string)
  : M NovaSanctumToken.t :=
  try_catch
    (let! found := prisma_user_findUnique (by_email email) in
     match found with
     | None =>
         logFailedLogin email ipAddress userAgent "User not found";;;
         throw (JsError "Invalid credentials")
     | Some user =>
         if User.isLocked user then
           logFailedLogin email ipAddress userAgent "Account locked";;;
           throw (JsError "Account is locked due to multiple failed login attempts")
         else if negb (bcrypt_compare password (User.password user)) then
           handleFailedLogin (User.id user) email ipAddress userAgent;;;
           throw (JsError "Invalid credentials")
         else
           resetFailedLoginAttempts (User.id user);;;
           let! tokens := generateTokens (User.id user) in
           createSession (User.id user) (NovaSanctumToken.refreshToken tokens)
                         ipAddress userAgent;;;
           updateLastLogin (User.id user);;;
           logAuditEvent (Some (User.id user)) "LOGIN" "AUTH"
             [("email", JsString email); ("ipAddress", JsString ipAddress);
              ("userAgent", JsString userAgent); ("success", JsBool true)];;;
           ret tokens
     end)
    (fun error => throw error).

(** The query that opens [refreshToken]: the session whose stored hash is
    the hash of the token, active, and expiring strictly after now. *)
Definition findActiveByRawToken (token : string) : M (option Session.t) :=
  let! date := gets now in
  prisma_session_findFirst (active_with_hash (hashToken token) date).

Definition refreshToken (token ipAddress : string) : M NovaSanctumToken.t :=
  try_catch
    (let! found := findActiveByRawToken token in
     match found with
     | None => throw (JsError "Invalid or expired refresh token")
     | Some session =>
         when_ (negb (String.eqb (Session.ipAddress session) ipAddress))
           (logAuditEvent (Some (Session.userId session))
              "REFRESH_TOKEN_IP_MISMATCH" "AUTH"
              [("sessionIp", JsString (Session.ipAddress session));
               ("requestIp", JsString ipAddress)]);;;
         let! tokens := generateTokens (Session.userId session) in
         updateSession (Session.id session) (NovaSanctumToken.refreshToken tokens);;;
         logAuditEvent (Some (Session.userId session)) "TOKEN_REFRESH" "AUTH"
           [("ipAddress", JsString ipAddress); ("success", JsBool true)];;;
         ret tokens
     end)
    (fun error => throw error).

Definition logoutUser (userId token ipAddress : string) : M unit :=
  try_catch
    (let! found :=
       prisma_session_findFirst (active_of_user userId (hashToken token)) in
     match found with
     | Some session =>
         prisma_session_update (Session.id session) Session.deactivate;;; ret tt
     | None => ret tt
     end;;;
     logAuditEvent (Some userId) "LOGOUT" "AUTH"
       [("ipAddress", JsString ipAddress);
        ("sessionId", from_option (fun s => JsString (Session.id s)) JsUndefined found)])
    (fun error => throw error).

Definition verifyToken (token : string) : M NovaSanctumUser.t :=
  try_catch
    (let! date := gets now in
     let! decoded := lift (jwt_verify token (Config.jwtSecret config) date) in
     let! found := prisma_user_findUnique (by_id (JwtPayload.userId decoded)) in
     match found with
     | None => throw (JsError "User not found or inactive")
     | Some user =>
         if negb (User.isActive user) then throw (JsError "User not found or inactive")
         else
           ret {| NovaSanctumUser.id := User.id user;
                  NovaSanctumUser.email := User.email user;
                  NovaSanctumUser.username := User.username user;
                  NovaSanctumUser.roles := map role_name (User.roles user);
                  NovaSanctumUser.permissions :=
                    flat_map (fun role => map permission_name (role_permissions role))
                             (User.roles user);
                  NovaSanctumUser.isActive := User.isActive user;
                  NovaSanctumUser.lastLoginAt := User.lastLoginAt user;
                  NovaSanctumUser.createdAt := User.createdAt user;
                  NovaSanctumUser.updatedAt := User.updatedAt user |}
     end)
    (fun _ => throw (JsError "Invalid token")).

(** *** Maintenance *)

(** [prisma.session.deleteMany({ where })]: removes the rows the filter
    selects and returns how many there were. *)
Definition prisma_session_deleteMany (where_ : Session.t -> bool) : M nat :=
  fun w =>
    (inr (length (List.filter where_ (sessions w))),
     set_sessions (List.filter (fun s => negb (where_ s)) (sessions w)) w).

(** [{ expiresAt: { lt: date } }] *)
Definition expired_before (date : Z) (s : Session.t) : bool :=
  (Session.expiresAt s <? date)%Z.

Definition cleanupExpiredSessions : M unit :=
  try_catch
    (let! date := gets now in
     let! result := prisma_session_deleteMany (expired_before date) in
     ret tt)
    (fun _ => ret tt).

Definition getSecurityStats : M SecurityStats :=
  let! totalUsers := gets (fun w => length (users w)) in
  let! activeSessions :=
    gets (fun w => length (List.filter Session.isActive (sessions w))) in
  let! date := gets now in
  let! failedLogins24h :=
    gets (fun w =>
            length (List.filter
                      (fun row => String.eqb (AuditLog.action row) "LOGIN_FAILED"
                                  && (date - 24 * 60 * 60 * 1000 <=? AuditLog.timestamp row)%Z)
                      (auditLog w))) in
  let! lockedAccounts := gets (fun w => length (List.filter User.isLocked (users w))) in
  ret {| stats_totalUsers := totalUsers;
         stats_activeSessions := activeSessions;
         stats_failedLogins24h := failedLogins24h;
         stats_lockedAccounts := lockedAccounts;
         stats_config := config |}.

(** *** POST /login and POST /refresh (routes/auth.ts)

    [email], [password] and [token] are the fields of the parsed body
    ([None] when absent), [userAgentHeader] is [req.get('User-Agent')]. *)

Definition or_unknown (header : option string) : string :=
  match header with
  | Some h => if String.eqb h "" then "unknown" else h
  | None => "unknown"
  end.

Definition present (field : option string) : bool :=
  match field with
  | Some v => negb (String.eqb v "")
  | None => false
  end.

Definition tokens_json (tokens : NovaSanctumToken.t) : Json :=
  JObject
    [("accessToken", JString (NovaSanctumToken.accessToken tokens));
     ("refreshToken", JString (NovaSanctumToken.refreshToken tokens));
     ("expiresIn", json_number (NovaSanctumToken.expiresIn tokens));
     ("refreshExpiresIn", json_number (NovaSanctumToken.refreshExpiresIn tokens));
     ("tokenType", JString (NovaSanctumToken.tokenType tokens))].

Definition login_route (email password : option string) (ip : string)
    (userAgentHeader : option string) (w : World) : Response * World :=
  let userAgent := or_unknown userAgentHeader in
  if negb (present email) || negb (present password) then
    ({| status := 400;
        json := JObject [("error", JString "Email and password are required")] |}, w)
  else
    match authenticateUser (default "" email) (default "" password) ip userAgent w with
    | (inr tokens, w') =>
        ({| status := 200;
            json := JObject
                      [("message", JString "Login successful");
                       ("tokens", tokens_json tokens);
                       ("user", JObject [("email", JString (default "" email))])] |},
         w')
    | (inl _, w') =>
        ({| status := 401; json := JObject [("error", JString "Invalid credentials")] |},
         w')
    end.

Definition refresh_route (token : option string) (ip : string) (w : World)
  : Response * World :=
  if negb (present token) then
    ({| status := 400;
        json := JObject [("error", JString "Refresh token is required")] |}, w)
  else
    match refreshToken (default "" token) ip w with
    | (inr tokens, w') =>
        ({| status := 200;
            json := JObject
                      [("message", JString "Token refreshed successfully");
                       ("tokens", tokens_json tokens)] |},
         w')
    | (inl _, w') =>
        ({| status := 401; json := JObject [("error", JString "Invalid refresh token")] |},
         w')
    end.

(** *** What the methods write

    Names for the rows and tables the methods leave behind. *)

(** The row [logFailedLogin] appends. *)
Definition failed_login_row (email ip ua reason : string) (date : Z) : AuditLog.t :=
  {| AuditLog.userId := None;
     AuditLog.action := "LOGIN_FAILED";
     AuditLog.resource := "AUTH";
     AuditLog.ipAddress := js_or (JsString ip) (JsString "unknown");
     AuditLog.userAgent := js_or (JsString ua) (JsString "unknown");
     AuditLog.details := failed_login_details email ip ua reason;
     AuditLog.timestamp := date |}.

(** The session row a login creates. *)
Definition login_session (u : User.t) (ip ua : string) (w : World) : Session.t :=
  {| Session.id := cuid (rows_created w);
     Session.userId := User.id u;
     Session.refreshToken := sha256 (uuidv4 (uuids_drawn w));
     Session.ipAddress := ip;
     Session.userAgent := ua;
     Session.isActive := true;
     Session.expiresAt := now w + Config.sessionTimeoutMs config;
     Session.createdAt := now w |}.

(** The table [updateSession] leaves. *)
Definition rotated (sessionId token : string) (w : World) : list Session.t :=
  map (update_by Session.id sessionId
         (Session.rotate (sha256 token) (now w + Config.sessionTimeoutMs config)))
      (sessions w).

(** The audit rows a refresh writes. *)
Definition ip_mismatch_row (s : Session.t) (ip : string) (date : Z) : AuditLog.t :=
  {| AuditLog.userId := Some (Session.userId s);
     AuditLog.action := "REFRESH_TOKEN_IP_MISMATCH";
     AuditLog.resource := "AUTH";
     AuditLog.ipAddress := JsString "unknown";
     AuditLog.userAgent := JsString "unknown";
     AuditLog.details :=
       [("sessionIp", JsString (Session.ipAddress s)); ("requestIp", JsString ip)];
     AuditLog.timestamp := date |}.

Definition token_refresh_row (s : Session.t) (ip : string) (date : Z) : AuditLog.t :=
  {| AuditLog.userId := Some (Session.userId s);
     AuditLog.action := "TOKEN_REFRESH";
     AuditLog.resource := "AUTH";
     AuditLog.ipAddress := js_or (JsString ip) (JsString "unknown");
     AuditLog.userAgent := JsString "unknown";
     AuditLog.details := [("ipAddress", JsString ip); ("success", JsBool true)];
     AuditLog.timestamp := date |}.

(** The tokens a refresh of session [s] issues in world [w]. *)
Definition refreshed_tokens (s : Session.t) (w : World) (expiresIn refreshExpiresIn : Double)
  : NovaSanctumToken.t :=
  {| NovaSanctumToken.accessToken :=
       jwt_sign {| JwtPayload.userId := Session.userId s; JwtPayload.type := "access" |}
                (Config.jwtSecret config) (Config.jwtExpiresIn config) (now w);
     NovaSanctumToken.refreshToken := uuidv4 (uuids_drawn w);
     NovaSanctumToken.expiresIn := expiresIn;
     NovaSanctumToken.refreshExpiresIn := refreshExpiresIn;
     NovaSanctumToken.tokenType := "Bearer" |}.

(** *** Why a login fails

    The branch of [authenticateUser] that a login takes, and what each
    failing branch throws and writes as [reason] in the audit log. *)

Definition failure_cause (email password : string) (w : World) : option FailureCause :=
  match find (by_email email) (users w) with
  | None => Some UserNotFound
  | Some user =>
      if User.isLocked user then Some AccountLocked
      else if negb (bcrypt_compare password (User.password user)) then Some InvalidPassword
      else None
  end.

(** All failing branches throw the same error: the uniformity that the
    locked branch breaks. *)
Definition uniform_login_failure : Prop :=
  forall (w1 w2 : World) (email1 password1 ip1 ua1 email2 password2 ip2 ua2 : string)
         (cause1 cause2 : FailureCause),
    failure_cause email1 password1 w1 = Some cause1 ->
    failure_cause email2 password2 w2 = Some cause2 ->
    cause1 <> cause2 ->
    fst (authenticateUser email1 password1 ip1 ua1 w1)
    = fst (authenticateUser email2 password2 ip2 ua2 w2).

End Service.
End NovaSanctumService.

(** ** Security middleware that calls the service *)

(** [s.split(c)] for a one-character separator. *)
Fixpoint split (c : Ascii.ascii) (s : string) : list string :=
  match s with
  | EmptyString => [""]
  | String a rest =>
      if Ascii.eqb a c then "" :: split c rest
      else
        match split c rest with
        | x :: xs => String a x :: xs
        | [] => [String a ""]
        end
  end.

(** [authHeader && authHeader.split(' ')[1]], kept only when truthy. *)
Definition bearer_token (authorization : option string) : option string :=
  match authorization with
  | None => None
  | Some authHeader =>
      if String.eqb authHeader "" then None
      else
        match split " " authHeader !! 1%nat with
        | Some token => if String.eqb token "" then None else Some token
        | None => None
        end
  end.

Definition set_req_user (user : NovaSanctumUser.t) (req : Request) : Request :=
  {| req_user := Some user; req_params := req_params req; req_body := req_body req |}.

(** A resource as [requireResourceOwnership] reads it. *)
Record Resource := { resource_userId : JsValue }.

Module SecurityMiddleware.
Section Middleware.

Variable config : Config.t.
Variable jwt_verify : string -> string -> Z -> Exn + JwtPayload.t.

(** [authenticateToken]: [authorization] is [req.headers.authorization].
    The result is how the middleware ends and the request it hands on.  A
    missing token throws inside the [try], and the [catch] turns that into
    [Authentication failed]. *)
Definition authenticateToken (authorization : option string) (req : Request)
  : World -> (Next * Request) * World :=
  fun w =>
    match bearer_token authorization with
    | None => ((NextErr (AuthenticationError "Authentication failed"), req), w)
    | Some token =>
        match NovaSanctumService.verifyToken config jwt_verify token w with
        | (inr user, w') => ((NextOk, set_req_user user req), w')
        | (inl _, w') =>
            ((NextErr (AuthenticationError "Invalid or expired token"), req), w')
        end
    end.

Definition optionalAuth (authorization : option string) (req : Request)
  : World -> (Next * Request) * World :=
  fun w =>
    match bearer_token authorization with
    | Some token =>
        match NovaSanctumService.verifyToken config jwt_verify token w with
        | (inr user, w') => ((NextOk, set_req_user user req), w')
        | (inl _, w') => ((NextOk, req), w')
        end
    | None => ((NextOk, req), w)
    end.

(** [router.get('/', authenticateToken, requireAdmin, handler)]: the handler
    runs when both guards call [next()]. *)
Definition admin_route_guards (authorization : option string) (req : Request)
  : World -> Next * World :=
  fun w =>
    match authenticateToken authorization req w with
    | ((NextOk, req'), w') => (requireAdmin req', w')
    | ((NextErr err, _), w') => (NextErr err, w')
    end.

End Middleware.

(** [requireResourceOwnership(resourceService, resourceIdField)]:
    [findById] is [resourceService.findById], which resolves to a resource
    or to null, or rejects. *)
Definition requireResourceOwnership
    (findById : JsValue -> Exn + option Resource) (resourceIdField : string)
    (req : Request) : Next :=
  let resourceId := js_param (req_params req) resourceIdField in
  match req_user req with
  | None => NextErr (AuthenticationError "Authentication required")
  | Some user =>
      if hasRole user "admin" then NextOk
      else
        match findById resourceId with
        | inl error => NextErr error
        | inr None => NextErr (JsError "Resource not found")
        | inr (Some resource) =>
            if js_strict_eq (resource_userId resource) (JsString (NovaSanctumUser.id user))
            then NextOk
            else NextErr (AuthorizationError "Access denied")
        end
  end.

(** [authenticateApiKey]: any non-empty key passes. *)
Definition authenticateApiKey (apiKey : option string) : Next :=
  match apiKey with
  | Some key =>
      if String.eqb key "" then NextErr (AuthenticationError "API key required")
      else NextOk
  | None => NextErr (AuthenticationError "API key required")
  end.

End SecurityMiddleware.

(** ** Rate limiter

    [rateLimitMiddleware(windowMs, max)] keeps, per client address, the
    times of the requests it let through.  [requests] is its [Map]. *)
Definition rateLimitMiddleware (windowMs max : Z) (requests : gmap string (list Z))
    (ip : string) (date : Z) : Next * gmap string (list Z) :=
  let windowStart := date - windowMs in
  let cleaned :=
    match requests !! ip with
    | Some stamps =>
        <[ip := List.filter (fun timestamp => (windowStart <? timestamp)%Z) stamps]> requests
    | None => <[ip := []]> requests
    end in
  let userRequests := default [] (cleaned !! ip) in
  if (max <=? Z.of_nat (length userRequests))%Z
  then (NextErr (JsError "Rate limit exceeded"), cleaned)
  else (NextOk, <[ip := (userRequests ++ [date])%list]> cleaned).

(** A sequence of requests, oldest first, through one limiter: the final
    map and, for each request, whether it passed. *)
Fixpoint rate_limit_run (windowMs max : Z) (requests : gmap string (list Z))
    (events : list (string * Z)) : gmap string (list Z) * list bool :=
  match events with
  | [] => (requests, [])
  | (ip, date) :: rest =>
      let (outcome, requests') := rateLimitMiddleware windowMs max requests ip date in
      let (final, passed) := rate_limit_run windowMs max requests' rest in
      (final, match outcome with NextOk => true | NextErr _ => false end :: passed)
  end.

(** ** Error handler *)

(** An error as the handler sees it.  [isCustom] is [instanceof
    CustomError]; every [CustomError] has [isOperational = true].  The
    classes do not set [name], so the errors of the application are all
    named "Error". *)
Record AppError := {
  err_name : string;
  err_message : string;
  err_statusCode : option Z;
  err_code : option string;
  err_details : JsValue;
  err_isCustom : bool
}.

Definition mkCustomError (message : string) (statusCode : Z) (code : option string)
    (details : JsValue) : AppError :=
  {| err_name := "Error"; err_message := message; err_statusCode := Some statusCode;
     err_code := code; err_details := details; err_isCustom := true |}.

Definition ValidationError (message : string) (details : JsValue) : AppError :=
  mkCustomError message 400 (Some "VALIDATION_ERROR") details.

Definition AuthenticationAppError (message : string) : AppError :=
  mkCustomError message 401 (Some "AUTHENTICATION_ERROR") JsUndefined.

Definition NotFoundError (message : string) : AppError :=
  mkCustomError message 404 (Some "NOT_FOUND_ERROR") JsUndefined.

Definition ConflictError (message : string) : AppError :=
  mkCustomError message 409 (Some "CONFLICT_ERROR") JsUndefined.

Definition DatabaseError (message : string) : AppError :=
  mkCustomError message 500 (Some "DATABASE_ERROR") JsUndefined.

(** The errors of the service and of the guards, as the handler gets them. *)
Definition app_error (e : Exn) : AppError :=
  match e with
  | JsError message =>
      {| err_name := "Error"; err_message := message; err_statusCode := None;
         err_code := None; err_details := JsUndefined; err_isCustom := false |}
  | CustomError message statusCode code =>
      mkCustomError message statusCode (Some code) JsUndefined
  end.

Definition isOperationalError (error : AppError) : bool := err_isCustom error.

Definition handleSpecificErrors (error : AppError) : AppError :=
  if String.eqb (err_name error) "PrismaClientKnownRequestError" then
    DatabaseError "Database operation failed"
  else if String.eqb (err_name error) "PrismaClientValidationError" then
    ValidationError "Invalid data provided" JsUndefined
  else if String.eqb (err_name error) "PrismaClientInitializationError" then
    DatabaseError "Database connection failed"
  else if String.eqb (err_name error) "JsonWebTokenError" then
    AuthenticationAppError "Invalid token"
  else if String.eqb (err_name error) "TokenExpiredError" then
    AuthenticationAppError "Token expired"
  else if String.eqb (err_name error) "NotBeforeError" then
    AuthenticationAppError "Token not active"
  else if String.eqb (err_name error) "ValidationError" then
    ValidationError (err_message error) JsUndefined
  else if String.eqb (err_name error) "CastError" then
    ValidationError "Invalid ID format" JsUndefined
  else if bool_decide (err_code error = Some "P2002") then
    ConflictError "Resource already exists"
  else if bool_decide (err_code error = Some "P2025") then
    NotFoundError "Resource not found"
  else error.

(** What the handlers read of the request. *)
Record RequestInfo := {
  info_user : option NovaSanctumUser.t;
  info_ip : string;
  info_userAgent : option string;
  info_path : string;
  info_method : string;
  info_requestId : option string
}.

(** The [error] object of an [ErrorResponse]; [timestamp] is the date, not
    its ISO rendering. *)
Record ErrorBody := {
  body_message : string;
  body_code : option string;
  body_statusCode : Z;
  body_timestamp : Z;
  body_path : string;
  body_method : string;
  body_requestId : option string;
  body_details : option JsValue
}.

(** [error.statusCode || 500] *)
Definition status_or_500 (statusCode : option Z) : Z :=
  match statusCode with
  | Some n => if (n =? 0)%Z then 500 else n
  | None => 500
  end.

(** [formatErrorResponse]; [node_env] is [process.env.NODE_ENV]. *)
Definition formatErrorResponse (node_env : option string) (date : Z)
    (error : AppError) (req : RequestInfo) : ErrorBody :=
  let code :=
    match err_code error with
    | Some c => if String.eqb c "" then None else Some c
    | None => None
    end in
  let details :=
    if truthy (err_details error) && bool_decide (node_env = Some "development")
    then Some (err_details error) else None in
  let message :=
    if bool_decide (node_env = Some "production")
       && bool_decide (err_statusCode error = Some 500)
    then "Internal server error" else err_message error in
  {| body_message := message;
     body_code := code;
     body_statusCode := status_or_500 (err_statusCode error);
     body_timestamp := date;
     body_path := info_path req;
     body_method := info_method req;
     body_requestId := info_requestId req;
     body_details := details |}.

Definition is_security_code (code : option string) : bool :=
  bool_decide (code = Some "AUTHENTICATION_ERROR")
  || bool_decide (code = Some "AUTHORIZATION_ERROR").

Definition js_string_or_undefined (v : option string) : JsValue :=
  from_option JsString JsUndefined v.

(** [handleSecurityError]: the audit write of the service, with its
    failures swallowed. *)
Definition handleSecurityError (error : AppError) (req : RequestInfo) : M unit :=
  try_catch
    (when_ (is_security_code (err_code error))
       (NovaSanctumService.logAuditEvent
          (NovaSanctumUser.id <$> info_user req) "SECURITY_ERROR" "AUTH"
          [("error", JsString (err_message error));
           ("code", js_string_or_undefined (err_code error));
           ("ipAddress", JsString (info_ip req));
           ("userAgent", js_string_or_undefined (info_userAgent req));
           ("path", JsString (info_path req));
           ("method", JsString (info_method req))]))
    (fun _ => ret tt).

(** What [errorHandler] does: the status and body it sends, and whether it
    ends the process ([process.exit(1)]).  The handler starts the audit
    write of [handleSecurityError] before it answers and does not wait for
    it; here the write is part of the call. *)
Record Handled := {
  handled_status : Z;
  handled_body : ErrorBody;
  handled_exit : bool
}.

Definition errorHandler (node_env : option string) (error : AppError)
    (req : RequestInfo) : World -> Handled * World :=
  fun w =>
    let handledError := handleSpecificErrors error in
    let w' := snd (handleSecurityError handledError req w) in
    let errorResponse := formatErrorResponse node_env (now w) handledError req in
    ({| handled_status := status_or_500 (err_statusCode handledError);
        handled_body := errorResponse;
        handled_exit :=
          negb (isOperationalError handledError)
          && bool_decide (node_env = Some "production") |},
     w').

(** ** Names used by the properties *)

(** The identity [verifyToken] builds from a stored user. *)
Definition identity_of (user : User.t) : NovaSanctumUser.t :=
  {| NovaSanctumUser.id := User.id user;
     NovaSanctumUser.email := User.email user;
     NovaSanctumUser.username := User.username user;
     NovaSanctumUser.roles := map role_name (User.roles user);
     NovaSanctumUser.permissions :=
       flat_map (fun role => map permission_name (role_permissions role))
                (User.roles user);
     NovaSanctumUser.isActive := User.isActive user;
     NovaSanctumUser.lastLoginAt := User.lastLoginAt user;
     NovaSanctumUser.createdAt := User.createdAt user;
     NovaSanctumUser.updatedAt := User.updatedAt user |}.

(** The row a login leaves for a user after one more failed password
    check at [date]. *)
Definition after_failure (config : Config.t) (date : Z) (u : User.t) : User.t :=
  let counted := User.increment_failedLoginAttempts 1 u in
  if (Config.maxLoginAttempts config <=? User.failedLoginAttempts counted)%Z
  then User.set_lock true (Some (date + Config.lockoutDurationMs config)) counted
  else counted.

(** The times of the requests of [ip] that passed, in a run. *)
Fixpoint accepted_times (ip : string) (events : list (string * Z)) (passed : list bool)
  : list Z :=
  match events, passed with
  | (k, date) :: events', ok :: passed' =>
      if ok && String.eqb k ip
      then date :: accepted_times ip events' passed'
      else accepted_times ip events' passed'
  | _, _ => []
  end.

(** The requests come in the order of their dates, none before [start]. *)
Fixpoint nondecreasing_from (start : Z) (events : list (string * Z)) : Prop :=
  match events with
  | [] => True
  | (_, date) :: rest => start <= date /\ nondecreasing_from date rest
  end.

(** Every client has at most [max] requests on record. *)
Definition bounded (max : Z) (requests : gmap string (list Z)) : Prop :=
  forall ip stamps, requests !! ip = Some stamps -> Z.of_nat (length stamps) <= max.

(** A timestamp still counts at [date]: [timestamp > date - windowMs]. *)
Definition in_window (windowMs date timestamp : Z) : bool :=
  (date - windowMs <? timestamp)%Z.

(** What is on record for each client is what passed for it ([hist])
    within a window that ends no later than [upto]. *)
Definition window_inv (windowMs : Z) (requests : gmap string (list Z))
    (hist : string -> list Z) (upto : Z) : Prop :=
  forall ip,
    match requests !! ip with
    | Some stamps =>
        exists t0, t0 <= upto /\ stamps = List.filter (in_window windowMs t0) (hist ip)
    | None => hist ip = []
    end.

(** The audit row the error handler writes for a security error. *)
Definition security_error_row (error : AppError) (req : RequestInfo) (date : Z)
  : AuditLog.t :=
  {| AuditLog.userId := NovaSanctumUser.id <$> info_user req;
     AuditLog.action := "SECURITY_ERROR";
     AuditLog.resource := "AUTH";
     AuditLog.ipAddress := js_or (JsString (info_ip req)) (JsString "unknown");
     AuditLog.userAgent :=
       js_or (js_string_or_undefined (info_userAgent req)) (JsString "unknown");
     AuditLog.details :=
       [("error", JsString (err_message error));
        ("code", js_string_or_undefined (err_code error));
        ("ipAddress", JsString (info_ip req));
        ("userAgent", js_string_or_undefined (info_userAgent req));
        ("path", JsString (info_path req));
        ("method", JsString (info_method req))];
     AuditLog.timestamp := date |}.

(** No space in a string. *)
Fixpoint no_space (s : string) : bool :=
  match s with
  | EmptyString => true
  | String c rest => negb (Ascii.eqb c " ") && no_space rest
  end.

(** The audit row [logoutUser] appends; [found] is the session it looked
    up. *)
Definition logout_row (userId ip : string) (found : option Session.t) (date : Z)
  : AuditLog.t :=
  {| AuditLog.userId := Some userId;
     AuditLog.action := "LOGOUT";
     AuditLog.resource := "AUTH";
     AuditLog.ipAddress := js_or (JsString ip) (JsString "unknown");
     AuditLog.userAgent := JsString "unknown";
     AuditLog.details :=
       [("ipAddress", JsString ip);
        ("sessionId", from_option (fun s => JsString (Session.id s)) JsUndefined found)];
     AuditLog.timestamp := date |}.

Section Scenarios.

Variable config : Config.t.
Variable sha256 : string -> string.
Variable bcrypt_compare : string -> string -> bool.
Variable uuidv4 : nat -> string.
Variable cuid : nat -> string.
Variable jwt_sign : JwtPayload.t -> string -> string -> Z -> string.

(** Logins with the same credentials, one at each of the dates. *)
Fixpoint attempts (dates : list Z) (email password ip ua : string) (w : World) : World :=
  match dates with
  | [] => w
  | date :: rest =>
      attempts rest email password ip ua
        (snd (NovaSanctumService.authenticateUser config sha256 bcrypt_compare uuidv4
                cuid jwt_sign email password ip ua (set_now date w)))
  end.

End Scenarios.

(** ** Stand-ins for the libraries

    Simple functions with the shape of the libraries, used to run the
    service on concrete worlds. *)

Module Standin.

Fixpoint tally (n : nat) : string :=
  match n with
  | O => ""
  | S k => String "|" (tally k)
  end.

Definition sha256 (token : string) : string := String.append "sha256:" token.

Definition bcrypt_hash (password : string) : string := String.append "bcrypt:" password.

Definition bcrypt_compare (password hash : string) : bool :=
  String.eqb (bcrypt_hash password) hash.

Definition uuidv4 (n : nat) : string := String.append "uuid-" (tally n).

Definition cuid (n : nat) : string := String.append "row-" (tally n).

Definition jwt_sign (payload : JwtPayload.t) (secret expiresIn : string) (date : Z)
  : string :=
  JwtPayload.userId payload.

Definition jwt_verify (token secret : string) (date : Z) : Exn + JwtPayload.t :=
  inr {| JwtPayload.userId := token; JwtPayload.type := "access" |}.

Definition jwt_expired (token : string) (date : Z) : bool := false.

Definition authenticateUser :=
  NovaSanctumService.authenticateUser default_config sha256 bcrypt_compare uuidv4 cuid
    jwt_sign.

Definition refreshToken :=
  NovaSanctumService.refreshToken default_config sha256 uuidv4 jwt_sign.

Definition alice (locked : bool) (until : option Z) (attempts : Z) (active : bool)
  : User.t :=
  {| User.id := "u1"; User.email := "a@x.com"; User.username := "alice";
     User.password := bcrypt_hash "P1";
     User.roles := [ {| role_name := "user";
                        role_permissions := [ {| permission_name := "user:read:own" |} ] |} ];
     User.isActive := active; User.isLocked := locked; User.lockedUntil := until;
     User.failedLoginAttempts := attempts; User.lastLoginAt := None;
     User.createdAt := 0; User.updatedAt := 0 |}.

Definition world (us : list User.t) (ss : list Session.t) (date : Z) : World :=
  {| users := us; sessions := ss; auditLog := []; now := date;
     uuids_drawn := 0; rows_created := 0 |}.

End Standin.

(** ** Concrete runs *)

Module Runs.
Import Standin.

Definition ip : string := "10.0.0.1".
Definition agent : string := "agent/1.0".

(** One login at a given date. *)
Definition login_at (date : Z) (password : string) (w : World) : World :=
  snd (Standin.authenticateUser "a@x.com" password ip agent (set_now date w)).

Definition fresh : World := world [alice false None 0 true] [] 0.

(** Five logins with the wrong password, one per second. *)
Definition after_five_failures : World :=
  login_at 5000 "P2" (login_at 4000 "P2" (login_at 3000 "P2"
    (login_at 2000 "P2" (login_at 1000 "P2" fresh)))).

Definition session1 (expiresAt : Z) : Session.t :=
  {| Session.id := "s1"; Session.userId := "u1";
     Session.refreshToken := Standin.sha256 "old-token";
     Session.ipAddress := "10.0.0.1"; Session.userAgent := agent;
     Session.isActive := true; Session.expiresAt := expiresAt;
     Session.createdAt := 0 |}.

End Runs.

Module MoreRuns.
Import Standin.

Definition active_world : World := world [alice false None 0 true] [] 1000.

Definition deactivated_world : World := world [alice false None 0 false] [] 1000.

Definition locked_world : World := world [alice true (Some 905000) 5 true] [] 1000.

Definition session_world : World := world [] [Runs.session1 5000] 1000.

Definition request_info : RequestInfo :=
  {| info_user := None; info_ip := "10.0.0.1"; info_userAgent := Some "agent/1.0";
     info_path := "/api/users/u2"; info_method := "PUT"; info_requestId := None |}.

Definition unique_violation : AppError :=
  {| err_name := "PrismaClientKnownRequestError";
     err_message := "Unique constraint failed on the fields: (`email`)";
     err_statusCode := None; err_code := Some "P2002";
     err_details := JsUndefined; err_isCustom := false |}.

Definition burst : list (string * Z) :=
  [("10.0.0.1", 0); ("10.0.0.1", 10); ("10.0.0.1", 20); ("10.0.0.2", 25);
   ("10.0.0.1", 30)].

End MoreRuns.

(** * Properties *)

(** ** Authorization evaluator and guards *)

(** Without an authenticated user the guards answer 401, before any role
    or ownership test. *)
Lemma requireOwnerOrAdmin_unauthenticated
    (ownerIdField : string) (params : gmap string string) (body : gmap string JsValue) :
  requireOwnerOrAdmin ownerIdField
    {| req_user := None; req_params := params; req_body := body |}
  = NextErr (AuthenticationError "Authentication required").
Proof. reflexivity. Qed.

Lemma includes_spec (l : list string) (x : string) : includes l x = true <-> x ∈ l.
Proof.
  unfold includes. rewrite existsb_exists. split.
  - intros (y & Hy & Heq). apply String.eqb_eq in Heq. subst y.
    by apply list_elem_of_In.
  - intros Hin. exists x. split; [by apply list_elem_of_In | apply String.eqb_refl].
Qed.


(** C10: an empty list of required permissions is satisfied by every user,
    and the guard [requirePermissions []] lets every request that carries an
    authenticated user through. *)
Theorem hasAllPermissions_empty :
  forall (user : NovaSanctumUser.t),
    hasAllPermissions user [] = true
    /\ forall (params : gmap string string) (body : gmap string JsValue),
         requirePermissions []
           {| req_user := Some user; req_params := params; req_body := body |}
         = NextOk.
Proof.
  intros user. split; [reflexivity | intros params body; reflexivity].
Qed.






(** ** Facts about tables *)

Section Tables.
Context {A : Type}.

(** Rewriting every row with a function that does not change what a filter
    looks at commutes with [find]. *)
Lemma find_map_preserving (p : A -> bool) (g : A -> A) (l : list A) :
  (forall a, p (g a) = p a) ->
  find p (map g l) = g <$> find p l.
Proof.
  intros Hp. induction l as [| a l IH]; [reflexivity |].
  cbn [map find]. rewrite Hp. destruct (p a); [reflexivity | exact IH].
Qed.

Lemma find_update_by (key : A -> string) (k : string) (data : A -> A) (l : list A) :
  (forall a, key (data a) = key a) ->
  find (fun a => String.eqb (key a) k) (map (update_by key k data) l)
  = data <$> find (fun a => String.eqb (key a) k) l.
Proof.
  intros Hkey. unfold update_by.
  induction l as [| a l IH]; [reflexivity |].
  cbn [map find]. destruct (String.eqb (key a) k) eqn:Ha.
  - rewrite Hkey, Ha. reflexivity.
  - rewrite Ha. exact IH.
Qed.

Lemma find_witness (q : A -> bool) (l : list A) (a : A) :
  In a l -> q a = true -> exists b, find q l = Some b.
Proof.
  intros Hin Hq. destruct (find q l) as [b |] eqn:Hfind; [by exists b |].
  pose proof (find_none q l Hfind a Hin). congruence.
Qed.

Lemma find_none_iff (q : A -> bool) (l : list A) :
  find q l = None <-> forall a, In a l -> q a = false.
Proof.
  split; [apply find_none |].
  intros Hall. destruct (find q l) as [b |] eqn:Hfind; [| reflexivity].
  apply find_some in Hfind as [Hin Hq]. rewrite (Hall b Hin) in Hq. discriminate.
Qed.

(** In a table whose key column has no duplicates, looking a key up finds
    the row that holds it. *)
Lemma find_unique_key (key : A -> string) (l : list A) (a : A) :
  NoDup (map key l) ->
  In a l ->
  find (fun r => String.eqb (key r) (key a)) l = Some a.
Proof.
  induction l as [| b l IH]; intros Hnodup Hin; [destruct Hin |].
  cbn [map] in Hnodup. apply NoDup_cons in Hnodup as [Hfresh Hnodup].
  cbn [find]. destruct Hin as [-> | Hin].
  - by rewrite String.eqb_refl.
  - destruct (String.eqb (key b) (key a)) eqn:Hkey; [| by apply IH].
    apply String.eqb_eq in Hkey. exfalso. apply Hfresh. rewrite Hkey.
    apply list_elem_of_In, in_map, Hin.
Qed.

End Tables.

(** ** The service *)

Section ServiceFacts.

Variable config : Config.t.
Variable sha256 : string -> string.
Variable bcrypt_compare : string -> string -> bool.
Variable uuidv4 : nat -> string.
Variable cuid : nat -> string.
Variable jwt_sign : JwtPayload.t -> string -> string -> Z -> string.
Variable jwt_verify : string -> string -> Z -> Exn + JwtPayload.t.

Local Abbreviation prisma_user_update := NovaSanctumService.prisma_user_update.
Local Abbreviation prisma_session_update := NovaSanctumService.prisma_session_update.
Local Abbreviation logFailedLogin := NovaSanctumService.logFailedLogin.
Local Abbreviation logAuditEvent := NovaSanctumService.logAuditEvent.
Local Abbreviation handleFailedLogin := (NovaSanctumService.handleFailedLogin config).
Local Abbreviation resetFailedLoginAttempts := NovaSanctumService.resetFailedLoginAttempts.
Local Abbreviation generateTokens :=
  (NovaSanctumService.generateTokens config uuidv4 jwt_sign).
Local Abbreviation createSession := (NovaSanctumService.createSession config sha256 cuid).
Local Abbreviation updateSession := (NovaSanctumService.updateSession config sha256).
Local Abbreviation updateLastLogin := NovaSanctumService.updateLastLogin.
Local Abbreviation findActiveByRawToken := (NovaSanctumService.findActiveByRawToken sha256).
Local Abbreviation authenticateUser :=
  (NovaSanctumService.authenticateUser config sha256 bcrypt_compare uuidv4 cuid jwt_sign).
Local Abbreviation refreshToken :=
  (NovaSanctumService.refreshToken config sha256 uuidv4 jwt_sign).
Local Abbreviation verifyToken := (NovaSanctumService.verifyToken config jwt_verify).
Local Abbreviation failed_login_row := NovaSanctumService.failed_login_row.
Local Abbreviation login_session :=
  (NovaSanctumService.login_session config sha256 uuidv4 cuid).
Local Abbreviation rotated := (NovaSanctumService.rotated config sha256).
Local Abbreviation ip_mismatch_row := NovaSanctumService.ip_mismatch_row.
Local Abbreviation token_refresh_row := NovaSanctumService.token_refresh_row.
Local Abbreviation refreshed_tokens :=
  (NovaSanctumService.refreshed_tokens config uuidv4 jwt_sign).
Local Abbreviation login_route :=
  (NovaSanctumService.login_route config sha256 bcrypt_compare uuidv4 cuid jwt_sign).

Lemma prisma_user_update_found (userId : string) (data : User.t -> User.t)
    (w : World) (u : User.t) :
  find (by_id userId) (users w) = Some u ->
  prisma_user_update userId data w
  = (inr (data u), set_users (map (update_by User.id userId data) (users w)) w).
Proof.
  intros Hfind. unfold NovaSanctumService.prisma_user_update.
  rewrite Hfind. reflexivity.
Qed.

Lemma logFailedLogin_run (email ip ua reason : string) (w : World) :
  logFailedLogin email ip ua reason w
  = (inr tt,
     set_auditLog (auditLog w ++ [failed_login_row email ip ua reason (now w)]) w).
Proof. reflexivity. Qed.

(** What [handleFailedLogin] leaves in the world, for a user that exists. *)
Lemma handleFailedLogin_run (userId email ip ua : string) (w : World) (u : User.t) :
  find (by_id userId) (users w) = Some u ->
  let counted := User.increment_failedLoginAttempts 1 u in
  let locks := (Config.maxLoginAttempts config <=? User.failedLoginAttempts counted)%Z in
  let u' :=
    if locks
    then User.set_lock true (Some (now w + Config.lockoutDurationMs config)) counted
    else counted in
  exists w',
    handleFailedLogin userId email ip ua w = (inr tt, w')
    /\ find (by_id userId) (users w') = Some u'
    /\ sessions w' = sessions w
    /\ now w' = now w
    /\ auditLog w'
       = (auditLog w ++ [failed_login_row email ip ua "Invalid password" (now w)])%list.
Proof.
  intros Hfind counted locks u'.
  unfold NovaSanctumService.handleFailedLogin, bind.
  rewrite (prisma_user_update_found _ _ _ _ Hfind).
  set (w1 := set_users _ w).
  assert (Hfind1 : find (by_id userId) (users w1) = Some counted).
  { unfold w1, by_id. cbn [users set_users].
    rewrite find_update_by by done. fold (by_id userId). by rewrite Hfind. }
  fold counted. fold locks. unfold u'. destruct locks.
  - unfold when_, bind, gets, ret.
    rewrite (prisma_user_update_found _ _ _ _ Hfind1).
    rewrite logFailedLogin_run. eexists. split; [reflexivity |].
    cbn [users sessions auditLog now set_users set_auditLog].
    repeat split; try reflexivity.
    unfold by_id. rewrite find_update_by by done.
    fold (by_id userId). by rewrite Hfind1.
  - unfold when_, ret. rewrite logFailedLogin_run.
    eexists. split; [reflexivity |].
    cbn [users sessions auditLog now set_users set_auditLog].
    repeat split; try reflexivity. exact Hfind1.
Qed.

(** C4: a failed password check adds exactly one to [failedLoginAttempts];
    when the new count reaches (or is past) [maxLoginAttempts] the account
    gets [isLocked = true] and [lockedUntil = now + lockoutDurationMs];
    below the threshold [isLocked] and [lockedUntil] keep their values.  The
    defaults are 5 attempts and 15 minutes. *)
Theorem handleFailedLogin_counts_and_locks :
  forall (userId email ipAddress userAgent : string) (w : World) (u : User.t),
    find (by_id userId) (users w) = Some u ->
    exists u' : User.t,
      fst (handleFailedLogin userId email ipAddress userAgent w) = inr tt
      /\ find (by_id userId)
              (users (snd (handleFailedLogin userId email ipAddress userAgent w)))
         = Some u'
      /\ User.failedLoginAttempts u' = User.failedLoginAttempts u + 1
      /\ (Config.maxLoginAttempts config <= User.failedLoginAttempts u + 1 ->
          User.isLocked u' = true
          /\ User.lockedUntil u' = Some (now w + Config.lockoutDurationMs config))
      /\ (User.failedLoginAttempts u + 1 < Config.maxLoginAttempts config ->
          User.isLocked u' = User.isLocked u
          /\ User.lockedUntil u' = User.lockedUntil u)
      /\ Config.maxLoginAttempts default_config = 5
      /\ Config.lockoutDurationMs default_config = 15 * 60 * 1000.
Proof.
  intros userId email ip ua w u Hfind.
  destruct (handleFailedLogin_run userId email ip ua w u Hfind)
    as (w' & Hrun & Hfind' & _).
  rewrite Hrun. cbn [fst snd].
  eexists. split; [reflexivity |]. split; [exact Hfind' |].
  cbn [User.increment_failedLoginAttempts User.failedLoginAttempts].
  destruct (Z.leb_spec (Config.maxLoginAttempts config)
                       (User.failedLoginAttempts u + 1)) as [Hle | Hlt].
  - cbn. repeat split; intros; try reflexivity; lia.
  - cbn. repeat split; intros; try reflexivity; lia.
Qed.

(** *** The three ways a login fails, and the way it succeeds *)

Lemma authenticateUser_not_found (email password ip ua : string) (w : World) :
  find (by_email email) (users w) = None ->
  authenticateUser email password ip ua w
  = (inl (JsError "Invalid credentials"),
     set_auditLog
       (auditLog w ++ [failed_login_row email ip ua "User not found" (now w)]) w).
Proof.
  intros Hfind. unfold NovaSanctumService.authenticateUser, try_catch, bind.
  unfold NovaSanctumService.prisma_user_findUnique, gets.
  rewrite Hfind. reflexivity.
Qed.

Lemma authenticateUser_locked (email password ip ua : string) (w : World) (u : User.t) :
  find (by_email email) (users w) = Some u ->
  User.isLocked u = true ->
  authenticateUser email password ip ua w
  = (inl (JsError "Account is locked due to multiple failed login attempts"),
     set_auditLog
       (auditLog w ++ [failed_login_row email ip ua "Account locked" (now w)]) w).
Proof.
  intros Hfind Hlocked. unfold NovaSanctumService.authenticateUser, try_catch, bind.
  unfold NovaSanctumService.prisma_user_findUnique, gets.
  rewrite Hfind, Hlocked. reflexivity.
Qed.

Lemma found_by_email_has_id (email : string) (w : World) (u : User.t) :
  find (by_email email) (users w) = Some u ->
  exists u0, find (by_id (User.id u)) (users w) = Some u0.
Proof.
  intros Hfind. apply find_some in Hfind as [Hin _].
  apply (find_witness _ _ u Hin). unfold by_id. apply String.eqb_refl.
Qed.

Lemma authenticateUser_wrong_password
    (email password ip ua : string) (w : World) (u : User.t) :
  find (by_email email) (users w) = Some u ->
  User.isLocked u = false ->
  bcrypt_compare password (User.password u) = false ->
  authenticateUser email password ip ua w
  = (inl (JsError "Invalid credentials"),
     snd (handleFailedLogin (User.id u) email ip ua w)).
Proof.
  intros Hfind Hlocked Hpw.
  destruct (found_by_email_has_id _ _ _ Hfind) as [u0 Hid].
  destruct (handleFailedLogin_run (User.id u) email ip ua w u0 Hid) as (w' & Hrun & _).
  unfold NovaSanctumService.authenticateUser, try_catch, bind.
  unfold NovaSanctumService.prisma_user_findUnique, gets.
  rewrite Hfind, Hlocked, Hpw. cbn [negb].
  rewrite Hrun. reflexivity.
Qed.

Lemma generateTokens_run (userId : string) (w : World) (expiresIn refreshExpiresIn : Double) :
  parseJwtExpiration (Config.jwtExpiresIn config) = inr expiresIn ->
  parseJwtExpiration (Config.refreshTokenExpiresIn config) = inr refreshExpiresIn ->
  generateTokens userId w
  = (inr {| NovaSanctumToken.accessToken :=
              jwt_sign {| JwtPayload.userId := userId; JwtPayload.type := "access" |}
                       (Config.jwtSecret config) (Config.jwtExpiresIn config) (now w);
            NovaSanctumToken.refreshToken := uuidv4 (uuids_drawn w);
            NovaSanctumToken.expiresIn := expiresIn;
            NovaSanctumToken.refreshExpiresIn := refreshExpiresIn;
            NovaSanctumToken.tokenType := "Bearer" |},
     set_uuids_drawn (S (uuids_drawn w)) w).
Proof.
  intros He Hr. unfold NovaSanctumService.generateTokens, bind, gets, modify, lift, ret.
  rewrite He, Hr. reflexivity.
Qed.

Lemma authenticateUser_success
    (email password ip ua : string) (w : World) (u : User.t)
    (expiresIn refreshExpiresIn : Double) :
  find (by_email email) (users w) = Some u ->
  User.isLocked u = false ->
  bcrypt_compare password (User.password u) = true ->
  parseJwtExpiration (Config.jwtExpiresIn config) = inr expiresIn ->
  parseJwtExpiration (Config.refreshTokenExpiresIn config) = inr refreshExpiresIn ->
  exists (w' : World) (u0 : User.t),
    authenticateUser email password ip ua w
    = (inr {| NovaSanctumToken.accessToken :=
                jwt_sign {| JwtPayload.userId := User.id u; JwtPayload.type := "access" |}
                         (Config.jwtSecret config) (Config.jwtExpiresIn config) (now w);
              NovaSanctumToken.refreshToken := uuidv4 (uuids_drawn w);
              NovaSanctumToken.expiresIn := expiresIn;
              NovaSanctumToken.refreshExpiresIn := refreshExpiresIn;
              NovaSanctumToken.tokenType := "Bearer" |},
       w')
    /\ sessions w' = (sessions w ++ [login_session u ip ua w])%list
    /\ find (by_id (User.id u)) (users w) = Some u0
    /\ find (by_id (User.id u)) (users w')
       = Some (User.set_lastLoginAt (now w) (User.reset_failedLoginAttempts u0)).
Proof.
  intros Hfind Hlocked Hpw He Hr.
  destruct (found_by_email_has_id _ _ _ Hfind) as [u0 Hid].
  unfold NovaSanctumService.authenticateUser, try_catch, bind at 1.
  unfold NovaSanctumService.prisma_user_findUnique, gets.
  rewrite Hfind, Hlocked, Hpw. cbn [negb].
  unfold NovaSanctumService.resetFailedLoginAttempts, bind.
  rewrite (prisma_user_update_found _ _ _ _ Hid). unfold ret at 1.
  rewrite (generateTokens_run _ _ _ _ He Hr).
  cbn [NovaSanctumToken.refreshToken].
  unfold NovaSanctumService.createSession, NovaSanctumService.prisma_session_create,
    bind, gets, ret.
  unfold NovaSanctumService.updateLastLogin, bind, gets, ret.
  cbn [now set_users set_uuids_drawn set_sessions set_rows_created].
  match goal with
  | |- context [prisma_user_update ?i ?d ?w1] =>
      assert (Hid1 : find (by_id (User.id u)) (users w1)
                     = Some (User.reset_failedLoginAttempts u0))
  end.
  { cbn [users set_users set_uuids_drawn set_sessions set_rows_created].
    unfold by_id. rewrite find_update_by by done. fold (by_id (User.id u)).
    by rewrite Hid. }
  rewrite (prisma_user_update_found _ _ _ _ Hid1).
  unfold NovaSanctumService.logAuditEvent, NovaSanctumService.prisma_auditLog_create,
    bind, gets, modify.
  eexists _, u0. split; [reflexivity |].
  cbn [users sessions set_users set_uuids_drawn set_sessions set_rows_created
       set_auditLog rows_created uuids_drawn now].
  split; [reflexivity |]. split; [exact Hid |].
  unfold by_id. rewrite !find_update_by by done. fold (by_id (User.id u)).
  by rewrite Hid.
Qed.

(** C9: a stored user whose password matches and whose [isLocked] flag is
    false gets a token pair and a new session, whatever its [isActive] flag
    says: the statement puts no condition on [User.isActive u]. *)
Theorem authenticateUser_ignores_isActive :
  forall (email password ipAddress userAgent : string) (w : World) (u : User.t)
         (expiresIn refreshExpiresIn : Double),
    find (by_email email) (users w) = Some u ->
    User.isLocked u = false ->
    bcrypt_compare password (User.password u) = true ->
    parseJwtExpiration (Config.jwtExpiresIn config) = inr expiresIn ->
    parseJwtExpiration (Config.refreshTokenExpiresIn config) = inr refreshExpiresIn ->
    exists tokens : NovaSanctumToken.t,
      fst (authenticateUser email password ipAddress userAgent w) = inr tokens
      /\ NovaSanctumToken.accessToken tokens
         = jwt_sign {| JwtPayload.userId := User.id u; JwtPayload.type := "access" |}
                    (Config.jwtSecret config) (Config.jwtExpiresIn config) (now w)
      /\ sessions (snd (authenticateUser email password ipAddress userAgent w))
         = (sessions w ++ [login_session u ipAddress userAgent w])%list
      /\ Session.userId (login_session u ipAddress userAgent w) = User.id u
      /\ Session.refreshToken (login_session u ipAddress userAgent w)
         = sha256 (NovaSanctumToken.refreshToken tokens)
      /\ Session.isActive (login_session u ipAddress userAgent w) = true.
Proof.
  intros email password ip ua w u e1 e2 Hfind Hlocked Hpw He Hr.
  destruct (authenticateUser_success email password ip ua w u e1 e2
              Hfind Hlocked Hpw He Hr) as (w' & u0 & Hrun & Hsessions & _).
  rewrite Hrun. cbn [fst snd]. eexists. split; [reflexivity |].
  cbn [NovaSanctumToken.accessToken NovaSanctumToken.refreshToken].
  repeat split; try reflexivity. exact Hsessions.
Qed.

Lemma or_unknown_truthy (header : option string) :
  String.eqb (NovaSanctumService.or_unknown header) "" = false.
Proof.
  destruct header as [h |]; [| reflexivity]. cbn.
  destruct (String.eqb h "") eqn:Hh; [reflexivity | exact Hh].
Qed.

(** C2, as the code has it.  A login fails for one of three causes: no
    user has the email, the stored user is locked, or the password does not
    match.  [authenticateUser] throws [Invalid credentials] for the first
    and the last, and a different error, naming the lock, for a locked
    account.  Each failure appends exactly one audit row, [LOGIN_FAILED] on
    [AUTH] with no user id, whose details are the email, the address, the
    user agent, the [reason] that tells the true cause ([User not found],
    [Account locked], [Invalid password]) and [success: false].  POST
    /login answers every failure with the same
    [401 { error: 'Invalid credentials' }]. *)
Theorem authenticateUser_failure_report :
  forall (email password ipAddress : string) (userAgentHeader : option string)
         (w : World) (cause : FailureCause),
    NovaSanctumService.failure_cause bcrypt_compare email password w = Some cause ->
    email <> "" ->
    password <> "" ->
    let userAgent := NovaSanctumService.or_unknown userAgentHeader in
    let stored := find (fun u => String.eqb (User.email u) email) (users w) in
    match cause with
    | UserNotFound => stored = None
    | AccountLocked => exists u : User.t, stored = Some u /\ User.isLocked u = true
    | InvalidPassword =>
        exists u : User.t,
          stored = Some u /\ User.isLocked u = false
          /\ bcrypt_compare password (User.password u) = false
    end
    /\ fst (authenticateUser email password ipAddress userAgent w)
       = inl (JsError
                match cause with
                | UserNotFound => "Invalid credentials"
                | AccountLocked => "Account is locked due to multiple failed login attempts"
                | InvalidPassword => "Invalid credentials"
                end)
    /\ fst (authenticateUser email password ipAddress userAgent w)
       = inl (JsError (thrown_message cause))
    /\ thrown_message UserNotFound = thrown_message InvalidPassword
    /\ thrown_message AccountLocked <> thrown_message UserNotFound
    /\ auditLog (snd (authenticateUser email password ipAddress userAgent w))
       = (auditLog w
          ++ [ {| AuditLog.userId := None;
                  AuditLog.action := "LOGIN_FAILED";
                  AuditLog.resource := "AUTH";
                  AuditLog.ipAddress :=
                    JsString (if String.eqb ipAddress "" then "unknown" else ipAddress);
                  AuditLog.userAgent := JsString userAgent;
                  AuditLog.details :=
                    [("email", JsString email);
                     ("ipAddress", JsString ipAddress);
                     ("userAgent", JsString userAgent);
                     ("reason",
                      JsString match cause with
                               | UserNotFound => "User not found"
                               | AccountLocked => "Account locked"
                               | InvalidPassword => "Invalid password"
                               end);
                     ("success", JsBool false)];
                  AuditLog.timestamp := now w |} ])%list
    /\ fst (login_route (Some email) (Some password) ipAddress userAgentHeader w)
       = {| status := 401; json := JObject [("error", JString "Invalid credentials")] |}.
Proof.
  intros email password ip header w cause Hcause Hemail Hpassword userAgent stored.
  assert (Hroute : forall e w',
             authenticateUser email password ip userAgent w = (inl e, w') ->
             fst (login_route (Some email) (Some password) ip header w)
             = {| status := 401;
                  json := JObject [("error", JString "Invalid credentials")] |}).
  { intros e w' Hrun. unfold NovaSanctumService.login_route, NovaSanctumService.present.
    apply String.eqb_neq in Hemail, Hpassword. rewrite Hemail, Hpassword.
    cbn [negb orb from_option id]. fold userAgent. rewrite Hrun. reflexivity. }
  assert (Hrow : forall reason : string,
             NovaSanctumService.failed_login_row email ip userAgent reason (now w)
             = {| AuditLog.userId := None;
                  AuditLog.action := "LOGIN_FAILED";
                  AuditLog.resource := "AUTH";
                  AuditLog.ipAddress :=
                    JsString (if String.eqb ip "" then "unknown" else ip);
                  AuditLog.userAgent := JsString userAgent;
                  AuditLog.details :=
                    [("email", JsString email);
                     ("ipAddress", JsString ip);
                     ("userAgent", JsString userAgent);
                     ("reason", JsString reason);
                     ("success", JsBool false)];
                  AuditLog.timestamp := now w |}).
  { intros reason. unfold NovaSanctumService.failed_login_row,
      NovaSanctumService.failed_login_details, js_or. cbn [truthy].
    unfold userAgent. rewrite or_unknown_truthy. cbn [negb].
    by destruct (String.eqb ip ""). }
  unfold NovaSanctumService.failure_cause in Hcause.
  change (find (by_email email) (users w)) with stored in Hcause.
  destruct stored as [u |] eqn:Hfind; subst stored.
  - destruct (User.isLocked u) eqn:Hlocked.
    + injection Hcause as <-.
      pose proof (authenticateUser_locked email password ip userAgent w u Hfind Hlocked)
        as Hrun.
      rewrite (Hroute _ _ Hrun), Hrun. cbn [fst snd auditLog set_auditLog].
      rewrite <- Hrow.
      split; [by exists u |]. repeat split; done.
    + destruct (bcrypt_compare password (User.password u)) eqn:Hpw; [discriminate |].
      injection Hcause as <-.
      pose proof (authenticateUser_wrong_password email password ip userAgent w u
                    Hfind Hlocked Hpw) as Hrun.
      destruct (found_by_email_has_id _ _ _ Hfind) as [u0 Hid].
      destruct (handleFailedLogin_run (User.id u) email ip userAgent w u0 Hid)
        as (w' & Hfail & _ & _ & _ & Haudit).
      rewrite Hfail in Hrun. cbn [snd] in Hrun.
      rewrite (Hroute _ _ Hrun), Hrun. cbn [fst snd].
      rewrite <- Hrow.
      split; [by exists u |]. repeat split; done.
  - injection Hcause as <-.
    pose proof (authenticateUser_not_found email password ip userAgent w Hfind) as Hrun.
    rewrite (Hroute _ _ Hrun), Hrun. cbn [fst snd auditLog set_auditLog].
    rewrite <- Hrow.
    repeat split; done.
Qed.

(** *** Sessions and refresh *)

Lemma findActiveByRawToken_run (token : string) (w : World) :
  findActiveByRawToken token w
  = (inr (find (active_with_hash (sha256 token) (now w)) (sessions w)), w).
Proof. reflexivity. Qed.

(** What the lookup returns is active, holds the hash of the token, and
    expires strictly after now. *)
Lemma findActiveByRawToken_sound (token : string) (w : World) (s : Session.t) :
  fst (findActiveByRawToken token w) = inr (Some s) ->
  In s (sessions w)
  /\ Session.refreshToken s = sha256 token
  /\ Session.isActive s = true
  /\ now w < Session.expiresAt s.
Proof.
  rewrite findActiveByRawToken_run. cbn [fst]. intros [= Hfind].
  apply find_some in Hfind as [Hin Hfilter]. unfold active_with_hash in Hfilter.
  apply andb_prop in Hfilter as [Hfilter Hexp].
  apply andb_prop in Hfilter as [Hhash Hactive].
  apply String.eqb_eq in Hhash. apply Z.ltb_lt in Hexp. done.
Qed.

Lemma prisma_session_update_found (sessionId : string) (data : Session.t -> Session.t)
    (w : World) (s : Session.t) :
  find (fun r => String.eqb (Session.id r) sessionId) (sessions w) = Some s ->
  prisma_session_update sessionId data w
  = (inr (data s),
     set_sessions (map (update_by Session.id sessionId data) (sessions w)) w).
Proof.
  intros Hfind. unfold NovaSanctumService.prisma_session_update.
  rewrite Hfind. reflexivity.
Qed.

Lemma updateSession_sessions (sessionId token : string) (w : World) :
  sessions (snd (updateSession sessionId token w)) = rotated sessionId token w
  \/ (sessions (snd (updateSession sessionId token w)) = sessions w
      /\ forall s, In s (sessions w) -> Session.id s <> sessionId).
Proof.
  unfold NovaSanctumService.updateSession, bind, gets.
  unfold NovaSanctumService.prisma_session_update.
  destruct (find _ (sessions w)) eqn:Hfind.
  - left. reflexivity.
  - right. split; [reflexivity |]. intros s Hin.
    apply (find_none _ _ Hfind) in Hin. by apply String.eqb_neq.
Qed.

(** After the row [sessionId] took the hash of another token, no row
    answers to [old], provided [old] belonged to that row only. *)
Lemma rotated_forgets (sessionId old new : string) (date : Z) (w : World) :
  (forall s, In s (sessions w) -> Session.id s <> sessionId ->
             Session.refreshToken s <> sha256 old) ->
  sha256 new <> sha256 old ->
  find (active_with_hash (sha256 old) date) (rotated sessionId new w) = None.
Proof.
  intros Hothers Hnew. apply find_none_iff. intros s' Hin.
  unfold NovaSanctumService.rotated in Hin. apply in_map_iff in Hin as (s & <- & Hin).
  unfold active_with_hash, update_by.
  destruct (String.eqb (Session.id s) sessionId) eqn:Hid.
  - cbn [Session.rotate Session.refreshToken].
    apply String.eqb_neq in Hnew. by rewrite Hnew.
  - apply String.eqb_neq in Hid. specialize (Hothers s Hin Hid).
    apply String.eqb_neq in Hothers. by rewrite Hothers.
Qed.

(** C3: once [updateSession] has stored the hash of a new token in session
    [sessionId], the previous token resolves to no session: the lookup
    [findActiveByRawToken] returns none, at any later time.  The previous
    token is the one of that session only (hashes are unique in the table)
    and the new token has another hash. *)
Theorem updateSession_retires_previous_token :
  forall (sessionId previous new : string) (w later : World),
    (forall s, In s (sessions w) -> Session.id s <> sessionId ->
               Session.refreshToken s <> sha256 previous) ->
    sha256 new <> sha256 previous ->
    sessions later = sessions (snd (updateSession sessionId new w)) ->
    fst (findActiveByRawToken previous later) = inr None
    /\ forall ipAddress : string,
         fst (refreshToken previous ipAddress later)
         = inl (JsError "Invalid or expired refresh token").
Proof.
  intros sessionId previous new w later Hothers Hnew Hlater.
  assert (Hnone : find (active_with_hash (sha256 previous) (now later)) (sessions later)
                  = None).
  { rewrite Hlater.
    destruct (updateSession_sessions sessionId new w) as [-> | [-> Hmissing]].
    - by apply rotated_forgets.
    - apply find_none_iff. intros s Hin. unfold active_with_hash.
      specialize (Hothers s Hin (Hmissing s Hin)).
      apply String.eqb_neq in Hothers. by rewrite Hothers. }
  split.
  - rewrite findActiveByRawToken_run. cbn [fst]. by rewrite Hnone.
  - intros ip. unfold NovaSanctumService.refreshToken, try_catch, bind.
    rewrite findActiveByRawToken_run, Hnone. reflexivity.
Qed.

(** C6: a refresh token whose session expires exactly now is refused: the
    lookup keeps a session only when [expiresAt] is strictly after now, so
    [refreshToken] throws [Invalid or expired refresh token] and writes
    nothing. *)
Theorem refreshToken_rejects_at_expiry :
  forall (token ipAddress : string) (w : World),
    (forall s, In s (sessions w) -> Session.refreshToken s = sha256 token ->
               Session.expiresAt s = now w) ->
    fst (findActiveByRawToken token w) = inr None
    /\ refreshToken token ipAddress w
       = (inl (JsError "Invalid or expired refresh token"), w).
Proof.
  intros token ip w Hexp.
  assert (Hnone : find (active_with_hash (sha256 token) (now w)) (sessions w) = None).
  { apply find_none_iff. intros s Hin. unfold active_with_hash.
    destruct (String.eqb (Session.refreshToken s) (sha256 token)) eqn:Hhash;
      [| reflexivity].
    apply String.eqb_eq in Hhash. rewrite (Hexp s Hin Hhash).
    rewrite Z.ltb_irrefl. apply andb_false_r. }
  split.
  - rewrite findActiveByRawToken_run. cbn [fst]. by rewrite Hnone.
  - unfold NovaSanctumService.refreshToken, try_catch, bind.
    rewrite findActiveByRawToken_run, Hnone. reflexivity.
Qed.

Lemma refreshToken_run (token ip : string) (w : World) (s : Session.t)
    (expiresIn refreshExpiresIn : Double) :
  fst (findActiveByRawToken token w) = inr (Some s) ->
  parseJwtExpiration (Config.jwtExpiresIn config) = inr expiresIn ->
  parseJwtExpiration (Config.refreshTokenExpiresIn config) = inr refreshExpiresIn ->
  exists w' : World,
    refreshToken token ip w = (inr (refreshed_tokens s w expiresIn refreshExpiresIn), w')
    /\ sessions w' = rotated (Session.id s) (uuidv4 (uuids_drawn w)) w
    /\ users w' = users w
    /\ auditLog w'
       = (auditLog w
          ++ (if String.eqb (Session.ipAddress s) ip then []
              else [ip_mismatch_row s ip (now w)])
          ++ [token_refresh_row s ip (now w)])%list.
Proof.
  intros Hfound He Hr.
  pose proof (findActiveByRawToken_sound _ _ _ Hfound) as (Hin & _).
  rewrite findActiveByRawToken_run in Hfound. cbn [fst] in Hfound.
  injection Hfound as Hfound.
  destruct (find_witness (fun r => String.eqb (Session.id r) (Session.id s))
              (sessions w) s Hin (String.eqb_refl _)) as [s0 Hid].
  unfold NovaSanctumService.refreshToken, try_catch, bind at 1.
  rewrite findActiveByRawToken_run, Hfound.
  destruct (String.eqb (Session.ipAddress s) ip) eqn:Hip; cbn [negb when_].
  - unfold bind at 1, ret at 1. unfold bind at 1.
    rewrite (generateTokens_run _ _ _ _ He Hr).
    unfold NovaSanctumService.updateSession, bind, gets.
    cbn [NovaSanctumToken.refreshToken now set_uuids_drawn].
    match goal with
    | |- context [prisma_session_update _ _ ?w1] =>
        rewrite (prisma_session_update_found _ _ w1 _ Hid)
    end.
    eexists. split; [reflexivity |]. repeat split; reflexivity.
  - unfold bind at 1. unfold NovaSanctumService.logAuditEvent at 1.
    unfold NovaSanctumService.prisma_auditLog_create, bind at 1, gets at 1, modify at 1.
    unfold bind at 1.
    rewrite (generateTokens_run _ _ _ _ He Hr).
    unfold NovaSanctumService.updateSession, bind, gets.
    cbn [NovaSanctumToken.refreshToken now set_uuids_drawn set_auditLog].
    match goal with
    | |- context [prisma_session_update _ _ ?w1] =>
        rewrite (prisma_session_update_found _ _ w1 _ Hid)
    end.
    eexists. split; [reflexivity |].
    cbn [sessions users auditLog now set_sessions set_uuids_drawn set_auditLog].
    repeat split; try reflexivity.
    rewrite <- app_assoc. reflexivity.
Qed.

(** C8: when the request comes from another address than the one stored in
    the session, [refreshToken] writes a [REFRESH_TOKEN_IP_MISMATCH] audit
    row and then goes on as for a matching address.  It issues new tokens:
    an access token signed for the user of the session and a refresh token
    drawn afresh, of type [Bearer].  It rotates the session: the row with
    the id of the session now holds the hash of the new refresh token and
    expires [sessionTimeoutMs] from now, its other columns and all other
    rows are as before.  The tokens and the session table are the ones a
    refresh from the stored address gives; only that one writes no mismatch
    row. *)
Theorem refreshToken_ip_mismatch_is_soft :
  forall (token ipAddress : string) (w : World) (s : Session.t)
         (expiresIn refreshExpiresIn : Double),
    fst (findActiveByRawToken token w) = inr (Some s) ->
    Session.ipAddress s <> ipAddress ->
    parseJwtExpiration (Config.jwtExpiresIn config) = inr expiresIn ->
    parseJwtExpiration (Config.refreshTokenExpiresIn config) = inr refreshExpiresIn ->
    exists tokens : NovaSanctumToken.t,
      fst (refreshToken token ipAddress w) = inr tokens
      /\ tokens
         = {| NovaSanctumToken.accessToken :=
                jwt_sign {| JwtPayload.userId := Session.userId s;
                            JwtPayload.type := "access" |}
                         (Config.jwtSecret config) (Config.jwtExpiresIn config) (now w);
              NovaSanctumToken.refreshToken := uuidv4 (uuids_drawn w);
              NovaSanctumToken.expiresIn := expiresIn;
              NovaSanctumToken.refreshExpiresIn := refreshExpiresIn;
              NovaSanctumToken.tokenType := "Bearer" |}
      /\ fst (refreshToken token (Session.ipAddress s) w) = inr tokens
      /\ sessions (snd (refreshToken token ipAddress w))
         = sessions (snd (refreshToken token (Session.ipAddress s) w))
      /\ sessions (snd (refreshToken token ipAddress w))
         = map (fun r : Session.t =>
                  if String.eqb (Session.id r) (Session.id s)
                  then {| Session.id := Session.id r;
                          Session.userId := Session.userId r;
                          Session.refreshToken := sha256 (uuidv4 (uuids_drawn w));
                          Session.ipAddress := Session.ipAddress r;
                          Session.userAgent := Session.userAgent r;
                          Session.isActive := Session.isActive r;
                          Session.expiresAt := now w + Config.sessionTimeoutMs config;
                          Session.createdAt := Session.createdAt r |}
                  else r)
               (sessions w)
      /\ (exists s0 : Session.t,
            find (fun r => String.eqb (Session.id r) (Session.id s)) (sessions w) = Some s0
            /\ find (fun r => String.eqb (Session.id r) (Session.id s))
                    (sessions (snd (refreshToken token ipAddress w)))
               = Some {| Session.id := Session.id s;
                         Session.userId := Session.userId s0;
                         Session.refreshToken :=
                           sha256 (NovaSanctumToken.refreshToken tokens);
                         Session.ipAddress := Session.ipAddress s0;
                         Session.userAgent := Session.userAgent s0;
                         Session.isActive := Session.isActive s0;
                         Session.expiresAt := now w + Config.sessionTimeoutMs config;
                         Session.createdAt := Session.createdAt s0 |})
      /\ In (ip_mismatch_row s ipAddress (now w))
            (auditLog (snd (refreshToken token ipAddress w)))
      /\ ~ In (ip_mismatch_row s ipAddress (now w))
              (skipn (length (auditLog w))
                 (auditLog (snd (refreshToken token (Session.ipAddress s) w)))).
Proof.
  intros token ip w s e1 e2 Hfound Hip He Hr.
  destruct (refreshToken_run token ip w s e1 e2 Hfound He Hr)
    as (w1 & Hrun1 & Hsessions1 & _ & Haudit1).
  destruct (refreshToken_run token (Session.ipAddress s) w s e1 e2 Hfound He Hr)
    as (w2 & Hrun2 & Hsessions2 & _ & Haudit2).
  rewrite Hrun1, Hrun2. cbn [fst snd].
  exists (refreshed_tokens s w e1 e2).
  split; [reflexivity |]. split; [reflexivity |]. split; [reflexivity |].
  split; [by rewrite Hsessions1, Hsessions2 |].
  split; [| split; [| split]].
  - rewrite Hsessions1. reflexivity.
  - pose proof (findActiveByRawToken_sound _ _ _ Hfound) as (Hin & _).
    destruct (find_witness (fun r => String.eqb (Session.id r) (Session.id s))
                (sessions w) s Hin (String.eqb_refl _)) as [s0 Hs0].
    exists s0. split; [exact Hs0 |].
    rewrite Hsessions1. unfold NovaSanctumService.rotated.
    rewrite find_update_by by done. rewrite Hs0. cbn [fmap option_fmap option_map].
    apply find_some in Hs0 as [_ Hid]. apply String.eqb_eq in Hid.
    unfold Session.rotate. rewrite Hid. reflexivity.
  - rewrite Haudit1. apply String.eqb_neq in Hip. rewrite Hip.
    apply in_or_app. right. by left.
  - rewrite Haudit2, String.eqb_refl. cbn [app].
    rewrite skipn_app, skipn_all, Nat.sub_diag. cbn.
    intros [Heq | []]. discriminate Heq.
Qed.

(** *** Issue, then verify *)

Section RoundTrip.

(** [jwt_expired token date]: jsonwebtoken finds [token] expired at [date]
    (it compares the [exp] claim with the clock). *)
Variable jwt_expired : string -> Z -> bool.

(** What jsonwebtoken promises: a token it signed with a well-formed
    [expiresIn] verifies under the same secret, as long as it has not
    expired, and decodes to the payload that was signed. *)
Hypothesis jwt_verify_sign :
  forall (payload : JwtPayload.t) (secret expiresIn : string) (issued date : Z),
    JwtPayload.type payload = "access" ->
    (exists ms, parseJwtExpiration expiresIn = inr ms) ->
    jwt_expired (jwt_sign payload secret expiresIn issued) date = false ->
    jwt_verify (jwt_sign payload secret expiresIn issued) secret date = inr payload.

Lemma verifyToken_run (token : string) (w : World) (decoded : JwtPayload.t) (u : User.t) :
  jwt_verify token (Config.jwtSecret config) (now w) = inr decoded ->
  find (by_id (JwtPayload.userId decoded)) (users w) = Some u ->
  User.isActive u = true ->
  exists identity : NovaSanctumUser.t,
    verifyToken token w = (inr identity, w)
    /\ NovaSanctumUser.id identity = JwtPayload.userId decoded
    /\ NovaSanctumUser.roles identity = map role_name (User.roles u)
    /\ NovaSanctumUser.isActive identity = true.
Proof.
  intros Hverify Hfind Hactive.
  unfold NovaSanctumService.verifyToken, try_catch, bind, gets, lift.
  rewrite Hverify. unfold NovaSanctumService.prisma_user_findUnique, gets.
  rewrite Hfind, Hactive. cbn [negb]. eexists. split; [reflexivity |].
  cbn [NovaSanctumUser.id NovaSanctumUser.roles NovaSanctumUser.isActive].
  apply find_some in Hfind as [_ Hid]. unfold by_id in Hid.
  apply String.eqb_eq in Hid. done.
Qed.

(** C5: with a well-formed configuration, [generateTokens userId] returns
    tokens, and [verifyToken] on the access token, wherever an active user
    with that id is stored ([id] is the primary key of the table) and while
    the token has not expired, returns an identity whose id is [userId]. *)
Theorem generateTokens_verifyToken_roundtrip :
  forall (userId : string) (w : World) (expiresIn refreshExpiresIn : Double),
    parseJwtExpiration (Config.jwtExpiresIn config) = inr expiresIn ->
    parseJwtExpiration (Config.refreshTokenExpiresIn config) = inr refreshExpiresIn ->
    exists tokens : NovaSanctumToken.t,
      fst (generateTokens userId w) = inr tokens
      /\ forall (later : World) (u : User.t),
           NoDup (map User.id (users later)) ->
           In u (users later) ->
           User.id u = userId ->
           User.isActive u = true ->
           jwt_expired (NovaSanctumToken.accessToken tokens) (now later) = false ->
           exists identity : NovaSanctumUser.t,
             fst (verifyToken (NovaSanctumToken.accessToken tokens) later) = inr identity
             /\ NovaSanctumUser.id identity = userId.
Proof.
  intros userId w e1 e2 He Hr.
  rewrite (generateTokens_run userId w e1 e2 He Hr). cbn [fst].
  eexists. split; [reflexivity |].
  cbn [NovaSanctumToken.accessToken]. intros later u Hkey Hin Hid Hactive Hlive.
  pose proof (find_unique_key User.id (users later) u Hkey Hin) as Hfind.
  rewrite Hid in Hfind. fold (by_id userId) in Hfind.
  pose proof (jwt_verify_sign
                {| JwtPayload.userId := userId; JwtPayload.type := "access" |}
                (Config.jwtSecret config) (Config.jwtExpiresIn config)
                (now w) (now later) eq_refl (ex_intro _ e1 He) Hlive) as Hverify.
  destruct (verifyToken_run _ later _ u Hverify Hfind Hactive)
    as (identity & Hrun & Hidentity & _).
  exists identity. rewrite Hrun. done.
Qed.

End RoundTrip.

End ServiceFacts.

(** C1 (the code departs from it): after five failed logins the account is
    locked until 905000; a login with the right password long after that
    date is still refused with the locked-account error, because the check
    reads [isLocked] only. *)
Theorem authenticateUser_lock_outlives_cooldown :
  (User.isLocked <$> find (by_id "u1") (users Runs.after_five_failures)) = Some true
  /\ (User.lockedUntil <$> find (by_id "u1") (users Runs.after_five_failures))
     = Some (Some 905000)
  /\ 905000 < 2000000
  /\ Standin.bcrypt_compare "P1" (User.password (Standin.alice true (Some 905000) 5 true))
     = true
  /\ fst (Standin.authenticateUser "a@x.com" "P1" Runs.ip Runs.agent
            (set_now 2000000 Runs.after_five_failures))
     = inl (JsError "Account is locked due to multiple failed login attempts").
Proof. vm_compute. repeat split; reflexivity. Qed.

(** C2 (as stated, it fails): a login against a locked account and a login
    for an unknown email do not throw the same error. *)
Theorem login_failures_are_not_uniform :
  ~ NovaSanctumService.uniform_login_failure default_config Standin.sha256
      Standin.bcrypt_compare Standin.uuidv4 Standin.cuid Standin.jwt_sign.
Proof.
  intros Huniform.
  specialize (Huniform
                (Standin.world [] [] 1000)
                (Standin.world [Standin.alice true (Some 905000) 5 true] [] 1000)
                "a@x.com" "P1" Runs.ip Runs.agent
                "a@x.com" "P1" Runs.ip Runs.agent
                UserNotFound AccountLocked eq_refl eq_refl).
  assert (Hdiff : UserNotFound <> AccountLocked) by discriminate.
  specialize (Huniform Hdiff). vm_compute in Huniform. discriminate Huniform.
Qed.


Lemma authenticateUser_failure_report_witness :
  NovaSanctumService.failure_cause Standin.bcrypt_compare "a@x.com" "P2" Runs.fresh
  = Some InvalidPassword
  /\ fst (Standin.authenticateUser "a@x.com" "P2" Runs.ip Runs.agent Runs.fresh)
     = inl (JsError "Invalid credentials")
  /\ auditLog (snd (Standin.authenticateUser "a@x.com" "P2" Runs.ip Runs.agent Runs.fresh))
     = [ {| AuditLog.userId := None;
            AuditLog.action := "LOGIN_FAILED";
            AuditLog.resource := "AUTH";
            AuditLog.ipAddress := JsString "10.0.0.1";
            AuditLog.userAgent := JsString "agent/1.0";
            AuditLog.details :=
              [("email", JsString "a@x.com");
               ("ipAddress", JsString "10.0.0.1");
               ("userAgent", JsString "agent/1.0");
               ("reason", JsString "Invalid password");
               ("success", JsBool false)];
            AuditLog.timestamp := 0 |} ]
  /\ fst (NovaSanctumService.login_route default_config Standin.sha256
            Standin.bcrypt_compare Standin.uuidv4 Standin.cuid Standin.jwt_sign
            (Some "a@x.com") (Some "P2") Runs.ip (Some Runs.agent) Runs.fresh)
     = {| status := 401; json := JObject [("error", JString "Invalid credentials")] |}.
Proof.
  split; [reflexivity |].
  destruct (authenticateUser_failure_report default_config Standin.sha256
              Standin.bcrypt_compare Standin.uuidv4 Standin.cuid Standin.jwt_sign
              "a@x.com" "P2" Runs.ip (Some Runs.agent) Runs.fresh InvalidPassword
              eq_refl ltac:(discriminate) ltac:(discriminate))
    as (_ & Hthrown & _ & _ & _ & Haudit & Hroute).
  split; [exact Hthrown |]. split; [exact Haudit | exact Hroute].
Defined.

Lemma handleFailedLogin_counts_and_locks_witness :
  find (by_id "u1") (users (Standin.world [Standin.alice false None 4 true] [] 1000))
  = Some (Standin.alice false None 4 true)
  /\ exists u' : User.t,
       find (by_id "u1")
         (users (snd (NovaSanctumService.handleFailedLogin default_config
                        "u1" "a@x.com" Runs.ip Runs.agent
                        (Standin.world [Standin.alice false None 4 true] [] 1000))))
       = Some u'
       /\ User.failedLoginAttempts u' = 5
       /\ User.isLocked u' = true
       /\ User.lockedUntil u' = Some 901000.
Proof.
  split; [reflexivity |].
  destruct (handleFailedLogin_counts_and_locks default_config
              "u1" "a@x.com" Runs.ip Runs.agent
              (Standin.world [Standin.alice false None 4 true] [] 1000)
              (Standin.alice false None 4 true) eq_refl)
    as (u' & _ & Hfind & Hcount & Hlock & _).
  exists u'. split; [exact Hfind |]. split; [exact Hcount |].
  apply Hlock. cbn. lia.
Defined.

Lemma authenticateUser_ignores_isActive_witness :
  User.isActive (Standin.alice false None 0 false) = false
  /\ exists tokens : NovaSanctumToken.t,
       fst (Standin.authenticateUser "a@x.com" "P1" Runs.ip Runs.agent
              (Standin.world [Standin.alice false None 0 false] [] 1000))
       = inr tokens
       /\ length (sessions
                    (snd (Standin.authenticateUser "a@x.com" "P1" Runs.ip Runs.agent
                            (Standin.world [Standin.alice false None 0 false] [] 1000))))
          = 1%nat.
Proof.
  split; [reflexivity |].
  destruct (authenticateUser_ignores_isActive default_config Standin.sha256
              Standin.bcrypt_compare Standin.uuidv4 Standin.cuid Standin.jwt_sign
              "a@x.com" "P1" Runs.ip Runs.agent
              (Standin.world [Standin.alice false None 0 false] [] 1000)
              (Standin.alice false None 0 false) (Num 86400000) (Num 604800000)
              eq_refl eq_refl eq_refl eq_refl eq_refl)
    as (tokens & Hrun & _ & Hsessions & _).
  exists tokens. split; [exact Hrun |].
  unfold Standin.authenticateUser. rewrite Hsessions. reflexivity.
Defined.

Lemma updateSession_retires_previous_token_witness :
  fst (NovaSanctumService.findActiveByRawToken Standin.sha256 "old-token"
         (Standin.world [] [Runs.session1 5000] 1000))
  = inr (Some (Runs.session1 5000))
  /\ fst (NovaSanctumService.findActiveByRawToken Standin.sha256 "old-token"
            (snd (NovaSanctumService.updateSession default_config Standin.sha256
                    "s1" "new-token" (Standin.world [] [Runs.session1 5000] 1000))))
     = inr None.
Proof.
  split; [reflexivity |].
  apply (updateSession_retires_previous_token default_config Standin.sha256
           Standin.uuidv4 Standin.jwt_sign "s1" "old-token" "new-token"
           (Standin.world [] [Runs.session1 5000] 1000)).
  - intros s [<- | []] Hid. exfalso. apply Hid. reflexivity.
  - intros Heq. vm_compute in Heq. discriminate Heq.
  - reflexivity.
Defined.

Lemma refreshToken_rejects_at_expiry_witness :
  Session.expiresAt (Runs.session1 1000)
  = now (Standin.world [] [Runs.session1 1000] 1000)
  /\ Standin.refreshToken "old-token" Runs.ip (Standin.world [] [Runs.session1 1000] 1000)
     = (inl (JsError "Invalid or expired refresh token"),
        Standin.world [] [Runs.session1 1000] 1000)
  /\ fst (Standin.refreshToken "old-token" Runs.ip
            (Standin.world [] [Runs.session1 1001] 1000))
     <> inl (JsError "Invalid or expired refresh token").
Proof.
  split; [reflexivity |]. split.
  - apply (refreshToken_rejects_at_expiry default_config Standin.sha256
             Standin.uuidv4 Standin.jwt_sign "old-token" Runs.ip
             (Standin.world [] [Runs.session1 1000] 1000)).
    intros s [<- | []] _. reflexivity.
  - vm_compute. discriminate.
Defined.

Lemma refreshToken_ip_mismatch_is_soft_witness :
  Session.ipAddress (Runs.session1 5000) <> "192.168.7.7"
  /\ fst (Standin.refreshToken "old-token" "192.168.7.7"
            (Standin.world [] [Runs.session1 5000] 1000))
     = inr {| NovaSanctumToken.accessToken := "u1";
              NovaSanctumToken.refreshToken := "uuid-";
              NovaSanctumToken.expiresIn := Num 86400000;
              NovaSanctumToken.refreshExpiresIn := Num 604800000;
              NovaSanctumToken.tokenType := "Bearer" |}
  /\ fst (Standin.refreshToken "old-token" "10.0.0.1"
            (Standin.world [] [Runs.session1 5000] 1000))
     = fst (Standin.refreshToken "old-token" "192.168.7.7"
              (Standin.world [] [Runs.session1 5000] 1000))
  /\ sessions (snd (Standin.refreshToken "old-token" "192.168.7.7"
                      (Standin.world [] [Runs.session1 5000] 1000)))
     = [ {| Session.id := "s1"; Session.userId := "u1";
            Session.refreshToken := "sha256:uuid-";
            Session.ipAddress := "10.0.0.1"; Session.userAgent := "agent/1.0";
            Session.isActive := true; Session.expiresAt := 86401000;
            Session.createdAt := 0 |} ].
Proof.
  assert (Hip : Session.ipAddress (Runs.session1 5000) <> "192.168.7.7")
    by (vm_compute; discriminate).
  split; [exact Hip |].
  destruct (refreshToken_ip_mismatch_is_soft default_config Standin.sha256
              Standin.uuidv4 Standin.jwt_sign "old-token" "192.168.7.7"
              (Standin.world [] [Runs.session1 5000] 1000) (Runs.session1 5000)
              (Num 86400000) (Num 604800000) eq_refl Hip eq_refl eq_refl)
    as (tokens & Hrun & Htokens & Hsame & _ & Hsessions & _).
  unfold Standin.refreshToken.
  split; [rewrite Hrun, Htokens; reflexivity |].
  split; [exact (eq_trans Hsame (eq_sym Hrun)) |].
  rewrite Hsessions. reflexivity.
Defined.

Lemma generateTokens_verifyToken_roundtrip_witness :
  exists tokens : NovaSanctumToken.t,
    fst (NovaSanctumService.generateTokens default_config Standin.uuidv4
           Standin.jwt_sign "u1" Runs.fresh) = inr tokens
    /\ exists identity : NovaSanctumUser.t,
         fst (NovaSanctumService.verifyToken default_config Standin.jwt_verify
                (NovaSanctumToken.accessToken tokens) (set_now 60000 Runs.fresh))
         = inr identity
         /\ NovaSanctumUser.id identity = "u1".
Proof.
  destruct (generateTokens_verifyToken_roundtrip default_config Standin.uuidv4
              Standin.jwt_sign Standin.jwt_verify Standin.jwt_expired)
    with (userId := "u1") (w := Runs.fresh)
         (expiresIn := Num 86400000) (refreshExpiresIn := Num 604800000)
    as (tokens & Hissue & Hverify).
  - intros [userId type] secret expiresIn issued date Htype _ _.
    cbn in Htype. subst type. reflexivity.
  - reflexivity.
  - reflexivity.
  - exists tokens. split; [exact Hissue |].
    apply (Hverify (set_now 60000 Runs.fresh) (Standin.alice false None 0 true));
      try reflexivity.
    + apply NoDup_cons. split; [apply not_elem_of_nil | apply NoDup_nil_2].
    + by left.
Defined.

(** * Further properties of the code *)

(** ** Expiry strings *)

Lemma units_not_digit (c : Ascii.ascii) (k : Z) : units c = Some k -> is_digit c = false.
Proof.
  unfold units.
  destruct (Ascii.eqb_spec c "s"); [subst; reflexivity |].
  destruct (Ascii.eqb_spec c "m"); [subst; reflexivity |].
  destruct (Ascii.eqb_spec c "h"); [subst; reflexivity |].
  destruct (Ascii.eqb_spec c "d"); [subst; reflexivity | discriminate].
Qed.

Lemma units_positive (c : Ascii.ascii) (k : Z) : units c = Some k -> 0 < k /\ (1000 | k).
Proof.
  unfold units.
  repeat (destruct (Ascii.eqb _ _);
          [intros [= <-]; split; [lia |];
           first [ by exists 1 | by exists 60 | by exists 3600 | by exists 86400 ] |]).
  discriminate.
Qed.

Lemma match_expiration_accepts (digits : string) (unit : Ascii.ascii) (acc : Z)
    (seen : bool) :
  all_digits digits = true ->
  is_digit unit = false ->
  match_expiration (digits +:+ String unit "") acc seen
  = if seen || negb (String.eqb digits "")
    then pair (decimal_from acc digits) <$> units unit
    else None.
Proof.
  revert acc seen. induction digits as [| c digits IH]; intros acc seen Hdigits Hunit.
  - change ("" +:+ String unit "") with (String unit "").
    cbn [match_expiration decimal_from String.eqb negb]. rewrite Hunit.
    by rewrite orb_false_r.
  - cbn [all_digits] in Hdigits. apply andb_prop in Hdigits as [Hc Hdigits].
    change (String c digits +:+ String unit "")
      with (String c (digits +:+ String unit "")).
    cbn [match_expiration decimal_from String.eqb negb]. rewrite Hc.
    rewrite (IH _ true Hdigits Hunit). by rewrite orb_true_r.
Qed.

Lemma match_expiration_inv (s : string) (acc : Z) (seen : bool) (value k : Z) :
  match_expiration s acc seen = Some (value, k) ->
  exists (digits : string) (unit : Ascii.ascii),
    s = digits +:+ String unit ""
    /\ all_digits digits = true
    /\ (seen = true \/ digits <> "")
    /\ units unit = Some k
    /\ value = decimal_from acc digits.
Proof.
  revert acc seen. induction s as [| c rest IH]; intros acc seen Hmatch; [discriminate |].
  cbn [match_expiration] in Hmatch. destruct (is_digit c) eqn:Hc.
  - apply IH in Hmatch as (digits & unit & -> & Hall & _ & Hunit & ->).
    exists (String c digits), unit. cbn [all_digits decimal_from].
    rewrite Hc, Hall. repeat split; eauto.
  - destruct rest; [| discriminate]. destruct seen; [| discriminate].
    destruct (units c) as [k' |] eqn:Hunit; [| discriminate].
    injection Hmatch as <- <-. exists "", c. repeat split; eauto.
Qed.

Lemma decimal_from_nonneg (digits : string) (acc : Z) :
  0 <= acc -> all_digits digits = true -> 0 <= decimal_from acc digits.
Proof.
  revert acc. induction digits as [| c digits IH]; intros acc Hacc Hall; [exact Hacc |].
  cbn in Hall. apply andb_prop in Hall as [Hc Hall]. cbn. apply IH; [| exact Hall].
  unfold is_digit in Hc. apply andb_prop in Hc as [Hlo _]. apply Z.leb_le in Hlo.
  unfold digit_value. lia.
Qed.

(** A string of one or more digits followed by a unit is accepted, and the
    result is the product of doubles that the source computes. *)
Lemma parseJwtExpiration_accepts (digits : string) (unit : Ascii.ascii) (k : Z) :
  digits <> "" ->
  all_digits digits = true ->
  units unit = Some k ->
  parseJwtExpiration (digits +:+ String unit "")
  = inr (double_mul (parseInt (decimal_from 0 digits)) k).
Proof.
  intros Hne Hall Hunit. unfold parseJwtExpiration.
  rewrite (match_expiration_accepts _ _ _ _ Hall (units_not_digit _ _ Hunit)).
  apply String.eqb_neq in Hne. rewrite Hne, Hunit. reflexivity.
Qed.

Lemma parseJwtExpiration_inv (expiresIn : string) (ms : Double) :
  parseJwtExpiration expiresIn = inr ms ->
  exists (digits : string) (unit : Ascii.ascii) (k : Z),
    expiresIn = digits +:+ String unit ""
    /\ digits <> ""
    /\ all_digits digits = true
    /\ units unit = Some k
    /\ ms = double_mul (parseInt (decimal_from 0 digits)) k.
Proof.
  unfold parseJwtExpiration.
  destruct (match_expiration expiresIn 0 false) as [[value k] |] eqn:Hmatch;
    [| discriminate].
  intros [= <-].
  apply match_expiration_inv in Hmatch
    as (digits & unit & -> & Hall & [Hseen | Hne] & Hunit & ->);
    [discriminate |].
  by exists digits, unit, k.
Qed.

(** ** Rounding to a double *)

Lemma to_double_exact (n : Z) : n < 2 ^ 53 -> to_double n = Num n.
Proof.
  intros Hn. unfold to_double. apply Z.ltb_lt in Hn. by rewrite Hn.
Qed.

Lemma to_double_power53 : to_double (2 ^ 53) = Num (2 ^ 53).
Proof. reflexivity. Qed.

(** Above [2^53] the double is [m * 2^e] for a significand [m] of at most
    53 bits, within half of [2^e] of [n], unless that overflows. *)
Lemma to_double_large (n : Z) :
  2 ^ 53 <= n ->
  exists (m e : Z),
    1 <= e /\ e = Z.log2 n - 52
    /\ 0 <= m <= 2 ^ 53
    /\ Z.abs (m * 2 ^ e - n) <= 2 ^ (e - 1)
    /\ 2 ^ (e - 1) * 2 ^ 53 <= n
    /\ to_double n = if (2 ^ 1024 <=? m * 2 ^ e)%Z then PlusInfinity else Num (m * 2 ^ e).
Proof.
  intros Hbig. unfold to_double.
  destruct (Z.ltb_spec n (2 ^ 53)) as [Hsmall | _]; [lia |].
  assert (Hpos : 0 < n) by (pose proof (Z.pow_pos_nonneg 2 53); lia).
  destruct (Z.log2_spec n Hpos) as [Hlo Hhi].
  assert (Hlog : 53 <= Z.log2 n).
  { apply Z.log2_le_pow2; [exact Hpos | exact Hbig]. }
  set (e := Z.log2 n - 52) in *.
  assert (He : 1 <= e) by (unfold e; lia).
  assert (Hpow : 2 ^ e = 2 * 2 ^ (e - 1)).
  { rewrite <- Z.pow_succ_r by lia. f_equal. lia. }
  assert (Hhalf : 0 < 2 ^ (e - 1)) by (apply Z.pow_pos_nonneg; lia).
  assert (Hscale : 2 ^ (e - 1) * 2 ^ 53 = 2 ^ Z.log2 n).
  { rewrite <- Z.pow_add_r by lia. f_equal. unfold e. lia. }
  assert (Htop : 2 ^ Z.succ (Z.log2 n) = 2 ^ e * 2 ^ 53).
  { rewrite <- Z.pow_add_r by lia. f_equal. unfold e. lia. }
  pose proof (Z.div_mod n (2 ^ e) ltac:(lia)) as Hdiv.
  pose proof (Z.mod_pos_bound n (2 ^ e) ltac:(lia)) as Hmod.
  assert (Hq : 0 <= n / 2 ^ e) by (apply Z.div_pos; lia).
  assert (Hq53 : n / 2 ^ e < 2 ^ 53).
  { apply Z.div_lt_upper_bound; lia. }
  set (q := n / 2 ^ e) in *. set (r0 := n mod 2 ^ e) in *.
  set (half := 2 ^ (e - 1)) in *.
  assert (Hdown : Z.abs (q * 2 ^ e - n) = r0).
  { replace (q * 2 ^ e - n) with (- r0) by lia. rewrite Z.abs_opp. apply Z.abs_eq. lia. }
  assert (Hup : Z.abs ((q + 1) * 2 ^ e - n) = 2 ^ e - r0).
  { replace ((q + 1) * 2 ^ e - n) with (2 ^ e - r0) by lia. apply Z.abs_eq. lia. }
  destruct (Z.ltb_spec r0 half) as [Hlt | Hge].
  - exists q, e. repeat split; try lia.
  - destruct (Z.ltb_spec half r0) as [Hgt | Hle].
    + exists (q + 1), e. repeat split; try lia.
    + destruct (Z.even q).
      * exists q, e. repeat split; try lia.
      * exists (q + 1), e. repeat split; try lia.
Qed.

(** A finite double is within [n / 2^53] of the integer [n] it rounds. *)
Lemma to_double_close (n r : Z) :
  0 <= n -> to_double n = Num r -> 0 <= r /\ Z.abs (r - n) * 2 ^ 53 <= n.
Proof.
  intros Hn. destruct (Z.ltb_spec n (2 ^ 53)) as [Hsmall | Hbig].
  - unfold to_double. apply Z.ltb_lt in Hsmall. rewrite Hsmall.
    intros [= <-]. rewrite Z.sub_diag. cbn [Z.abs]. lia.
  - destruct (to_double_large n Hbig) as (m & e & He & _ & Hm & Hclose & Hscale & ->).
    destruct (2 ^ 1024 <=? m * 2 ^ e)%Z; [discriminate |]. intros [= <-].
    assert (0 < 2 ^ e) by (apply Z.pow_pos_nonneg; lia).
    split; [nia |]. nia.
Qed.

(** A finite double has at most 53 significant bits. *)
Lemma to_double_significand (n r : Z) :
  0 <= n -> to_double n = Num r ->
  exists (m e : Z), r = m * 2 ^ e /\ 0 <= m < 2 ^ 53 /\ 0 <= e.
Proof.
  intros Hn. destruct (Z.ltb_spec n (2 ^ 53)) as [Hsmall | Hbig].
  - unfold to_double. apply Z.ltb_lt in Hsmall. rewrite Hsmall.
    intros [= <-]. exists n, 0. rewrite Z.mul_1_r. apply Z.ltb_lt in Hsmall. lia.
  - destruct (to_double_large n Hbig) as (m & e & He & _ & Hm & _ & _ & ->).
    destruct (2 ^ 1024 <=? m * 2 ^ e)%Z; [discriminate |]. intros [= <-].
    destruct (Z.eq_dec m (2 ^ 53)) as [-> | Hne].
    + exists (2 ^ 52), (e + 1). rewrite Z.pow_add_r by lia.
      split; [| split; [split; [done | reflexivity] | lia]].
      change (2 ^ 53) with (2 ^ 52 * 2 ^ 1). ring.
    + exists m, e. split; [reflexivity | lia].
Qed.

(** Only integers from [2^1023] on can round to [Infinity]. *)
Lemma to_double_infinite (n : Z) :
  0 <= n -> to_double n = PlusInfinity -> 2 ^ 1023 <= n.
Proof.
  intros Hn. destruct (Z.ltb_spec n (2 ^ 53)) as [Hsmall | Hbig].
  - unfold to_double. apply Z.ltb_lt in Hsmall. by rewrite Hsmall.
  - destruct (to_double_large n Hbig) as (m & e & He & _ & Hm & _ & Hscale & ->).
    destruct (Z.leb_spec (2 ^ 1024) (m * 2 ^ e)) as [Hover | _]; [| discriminate].
    intros _.
    assert (H971 : 971 <= e).
    { destruct (Z.le_gt_cases 971 e) as [Hle | Hlt]; [exact Hle |].
      assert (2 ^ e <= 2 ^ 970) by (apply Z.pow_le_mono_r; lia).
      assert (m * 2 ^ e <= 2 ^ 53 * 2 ^ 970).
      { apply Z.mul_le_mono_nonneg; try lia; apply Z.pow_nonneg; lia. }
      assert (2 ^ 53 * 2 ^ 970 < 2 ^ 1024) by reflexivity. lia. }
    assert (2 ^ 970 <= 2 ^ (e - 1)) by (apply Z.pow_le_mono_r; lia).
    assert (2 ^ 970 * 2 ^ 53 = 2 ^ 1023) by reflexivity.
    assert (2 ^ 970 * 2 ^ 53 <= 2 ^ (e - 1) * 2 ^ 53).
    { apply Z.mul_le_mono_nonneg_r; [done | lia]. }
    lia.
Qed.

(** X1: [parseJwtExpiration] accepts exactly the strings made of one or
    more decimal digits followed by one of the units s, m, h, d; the only
    error it throws is [Invalid JWT expiration format].  What it returns is
    the product of two doubles, [parseInt(digits) * units[unit]]:
      - when the number the digits write times the unit in milliseconds is
        at most [2^53], the result is exactly that product, a whole number
        of seconds;
      - a finite result is never negative, has at most 53 significant
        bits, and differs from that product by at most the product divided
        by [2^51] (two roundings);
      - the result is [Infinity] only when that product is at least
        [2^1022]. *)
Theorem parseJwtExpiration_spec :
  forall (expiresIn : string),
    ((exists ms : Double, parseJwtExpiration expiresIn = inr ms)
     <-> exists (digits : string) (unit : Ascii.ascii) (k : Z),
           expiresIn = digits +:+ String unit ""
           /\ digits <> ""
           /\ all_digits digits = true
           /\ units unit = Some k)
    /\ (forall (digits : string) (unit : Ascii.ascii) (k : Z),
          expiresIn = digits +:+ String unit "" ->
          digits <> "" ->
          all_digits digits = true ->
          units unit = Some k ->
          (decimal_from 0 digits * k <= 2 ^ 53 ->
             parseJwtExpiration expiresIn = inr (Num (decimal_from 0 digits * k))
             /\ (1000 | decimal_from 0 digits * k))
          /\ (forall ms : Z,
                parseJwtExpiration expiresIn = inr (Num ms) ->
                0 <= ms
                /\ Z.abs (ms - decimal_from 0 digits * k) * 2 ^ 51
                   <= decimal_from 0 digits * k
                /\ exists (m e : Z), ms = m * 2 ^ e /\ 0 <= m < 2 ^ 53 /\ 0 <= e)
          /\ (parseJwtExpiration expiresIn = inr PlusInfinity ->
                2 ^ 1022 <= decimal_from 0 digits * k))
    /\ (forall e : Exn, parseJwtExpiration expiresIn = inl e ->
                         e = JsError "Invalid JWT expiration format").
Proof.
  intros expiresIn. split; [split | split].
  - intros [ms Hparse].
    destruct (parseJwtExpiration_inv _ _ Hparse)
      as (digits & unit & k & -> & Hne & Hall & Hunit & _).
    by exists digits, unit, k.
  - intros (digits & unit & k & -> & Hne & Hall & Hunit).
    eexists. by apply parseJwtExpiration_accepts.
  - intros digits unit k -> Hne Hall Hunit.
    rewrite (parseJwtExpiration_accepts _ _ _ Hne Hall Hunit).
    destruct (units_positive _ _ Hunit) as [Hk Hdiv].
    pose proof (decimal_from_nonneg digits 0 ltac:(lia) Hall) as Hd.
    set (d := decimal_from 0 digits) in *.
    split; [| split].
    + intros Hbound. split; [| by apply Z.divide_mul_r].
      assert (Hk2 : 2 <= k) by (destruct Hdiv as [c Hc]; lia).
      assert (Hsmall : d < 2 ^ 53) by nia.
      unfold parseInt. rewrite (to_double_exact _ Hsmall). cbn [double_mul].
      destruct (Z.eq_dec (d * k) (2 ^ 53)) as [-> | Hlt];
        [by rewrite to_double_power53 |].
      rewrite to_double_exact by lia. reflexivity.
    + intros ms [= Hms]. unfold parseInt in Hms.
      destruct (to_double d) as [d' |] eqn:Hd'; [| discriminate].
      cbn [double_mul] in Hms.
      destruct (to_double_close _ _ Hd Hd') as [Hd'0 Hclose1].
      destruct (to_double_close (d' * k) ms ltac:(nia) Hms) as [Hms0 Hclose2].
      split; [exact Hms0 |].
      split; [| exact (to_double_significand (d' * k) ms ltac:(nia) Hms)].
      assert (Hpow : 2 ^ 53 = 4 * 2 ^ 51) by reflexivity.
      assert (Hp51 : 0 < 2 ^ 51) by reflexivity.
      set (P := 2 ^ 51) in *.
      assert (Htri : Z.abs (ms - d * k) <= Z.abs (ms - d' * k) + Z.abs (d' - d) * k).
      { rewrite <- (Z.abs_eq k) at 3 by lia. rewrite <- Z.abs_mul.
        replace (ms - d * k) with ((ms - d' * k) + (d' - d) * k) by lia.
        apply Z.abs_triangle. }
      assert (Hd'le : d' <= 2 * d) by lia.
      nia.
    + intros [= Hinf]. unfold parseInt in Hinf.
      assert (Hhalf : 2 ^ 1023 = 2 * 2 ^ 1022) by reflexivity.
      assert (Hpos : 0 < 2 ^ 1022) by reflexivity.
      set (B := 2 ^ 1022) in *.
      destruct (to_double d) as [d' |] eqn:Hd'; cbn [double_mul] in Hinf.
      * destruct (to_double_close _ _ Hd Hd') as [Hd'0 Hclose].
        pose proof (to_double_infinite (d' * k) ltac:(nia) Hinf) as Hbig.
        assert (Hd'le : d' <= 2 * d) by lia.
        nia.
      * pose proof (to_double_infinite d Hd Hd') as Hbig. nia.
  - intros e. unfold parseJwtExpiration.
    destruct (match_expiration expiresIn 0 false) as [[value k] |];
      [discriminate | by intros [= <-]].
Qed.

Lemma parseJwtExpiration_spec_witness :
  parseJwtExpiration "24h" = inr (Num 86400000)
  /\ parseJwtExpiration "7d" = inr (Num 604800000)
  /\ parseJwtExpiration "9007199254740993s" = inr (Num 9007199254740992000)
  /\ parseJwtExpiration "100000000000001s" = inr (Num 100000000000000992)
  /\ parseJwtExpiration
       "200000000000000000000000000000000000000000000000000000000000000000000000000000000000000000000000000000000000000000000000000000000000000000000000000000000000000000000000000000000000000000000000000000000000000000000000000000000000000000000000000000000000000000000000000000000000000000000000000000000000000000000s"
     = inr PlusInfinity
  /\ parseJwtExpiration "24 h" = inl (JsError "Invalid JWT expiration format")
  /\ parseJwtExpiration "h" = inl (JsError "Invalid JWT expiration format").
Proof.
  split; [| split; [| split; [| split; [| split; [| split]]]]].
  - destruct (parseJwtExpiration_spec "24h") as (_ & Hvalue & _).
    destruct (Hvalue "24" "h"%char 3600000 eq_refl ltac:(discriminate) eq_refl eq_refl)
      as (Hexact & _).
    apply Hexact. vm_compute. discriminate.
  - destruct (parseJwtExpiration_spec "7d") as (_ & Hvalue & _).
    destruct (Hvalue "7" "d"%char 86400000 eq_refl ltac:(discriminate) eq_refl eq_refl)
      as (Hexact & _).
    apply Hexact. vm_compute. discriminate.
  - vm_compute. reflexivity.
  - vm_compute. reflexivity.
  - vm_compute. reflexivity.
  - destruct (parseJwtExpiration_spec "24 h") as (_ & _ & Herror).
    destruct (parseJwtExpiration "24 h") as [e | ms] eqn:Hparse;
      [by rewrite (Herror e eq_refl) | discriminate Hparse].
  - destruct (parseJwtExpiration_spec "h") as (_ & _ & Herror).
    destruct (parseJwtExpiration "h") as [e | ms] eqn:Hparse;
      [by rewrite (Herror e eq_refl) | discriminate Hparse].
Defined.

(** ** Guards *)

Lemma hasAllPermissions_spec (user : NovaSanctumUser.t) (required : list string) :
  hasAllPermissions user required = true
  <-> forall p, p ∈ required -> p ∈ NovaSanctumUser.permissions user.
Proof.
  unfold hasAllPermissions. rewrite forallb_forall. split.
  - intros Hall p Hp. apply includes_spec, Hall. by apply list_elem_of_In.
  - intros Hall p Hp. apply includes_spec, Hall. by apply list_elem_of_In.
Qed.

Lemma hasAnyRole_spec (user : NovaSanctumUser.t) (allowed : list string) :
  hasAnyRole user allowed = true
  <-> exists r, r ∈ allowed /\ r ∈ NovaSanctumUser.roles user.
Proof.
  unfold hasAnyRole. rewrite existsb_exists. split.
  - intros (r & Hr & Hin). exists r. split; [by apply list_elem_of_In |].
    by apply includes_spec.
  - intros (r & Hr & Hin). exists r. split; [by apply list_elem_of_In |].
    by apply includes_spec.
Qed.

(** X2: [requirePermissions] lets a request through exactly when it carries
    a user who holds every required permission; with a user who misses one
    it ends in [AuthorizationError('Insufficient permissions')], and without
    a user in [AuthenticationError('Authentication required')], whatever the
    list. *)
Theorem requirePermissions_decision :
  forall (required : list string) (req : Request),
    (requirePermissions required req = NextOk
     <-> exists user, req_user req = Some user
                      /\ forall p, p ∈ required -> p ∈ NovaSanctumUser.permissions user)
    /\ (forall user, req_user req = Some user ->
          requirePermissions required req = NextOk
          \/ requirePermissions required req
             = NextErr (AuthorizationError "Insufficient permissions"))
    /\ (req_user req = None ->
          requirePermissions required req
          = NextErr (AuthenticationError "Authentication required")).
Proof.
  intros required req. unfold requirePermissions.
  destruct (req_user req) as [user |].
  - pose proof (hasAllPermissions_spec user required) as Hspec.
    destruct (hasAllPermissions user required); cbn [negb].
    + split; [| split].
      * split; [intros _; exists user; split; [done | by apply Hspec] | done].
      * intros ? _. by left.
      * discriminate.
    + split; [| split].
      * split; [discriminate |]. intros (u & [= <-] & Hall).
        apply Hspec in Hall. discriminate.
      * intros ? _. by right.
      * discriminate.
  - split; [| split]; [| discriminate | done].
    split; [discriminate | intros (u & Hu & _); discriminate].
Qed.

(** X3: [requireRoles] lets a request through exactly when it carries a
    user one of whose roles is in the list; in particular [requireRoles []]
    refuses every authenticated user with
    [AuthorizationError('Insufficient role permissions')], and
    [requireAdmin] passes exactly the users with the role "admin". *)
Theorem requireRoles_decision :
  forall (allowed : list string) (req : Request),
    (requireRoles allowed req = NextOk
     <-> exists user r, req_user req = Some user
                        /\ r ∈ allowed /\ r ∈ NovaSanctumUser.roles user)
    /\ (forall user, req_user req = Some user ->
          requireRoles [] req
          = NextErr (AuthorizationError "Insufficient role permissions"))
    /\ (requireAdmin req = NextOk
        <-> exists user, req_user req = Some user
                         /\ "admin" ∈ NovaSanctumUser.roles user).
Proof.
  intros allowed req.
  assert (Hroles : forall l, requireRoles l req = NextOk
                     <-> exists user r, req_user req = Some user
                                        /\ r ∈ l /\ r ∈ NovaSanctumUser.roles user).
  { intros l. unfold requireRoles. destruct (req_user req) as [user |].
    - pose proof (hasAnyRole_spec user l) as Hspec.
      destruct (hasAnyRole user l); cbn [negb].
      + split; [intros _ | done].
        destruct (proj1 Hspec eq_refl) as (r & Hr & Hin). by exists user, r.
      + split; [discriminate |]. intros (u & r & [= <-] & Hr & Hin).
        assert (false = true) by (apply Hspec; eauto). discriminate.
    - split; [discriminate | intros (u & r & Hu & _); discriminate]. }
  split; [apply Hroles |]. split.
  - intros user Huser. unfold requireRoles. by rewrite Huser.
  - unfold requireAdmin, requireRole. rewrite Hroles. split.
    + intros (user & r & Huser & Hr & Hin). apply list_elem_of_singleton in Hr as ->.
      by exists user.
    + intros (user & Huser & Hin). exists user, "admin".
      split; [done |]. split; [apply list_elem_of_singleton; done | done].
Qed.

(** ** The service, continued *)

Section MoreServiceFacts.

Variable config : Config.t.
Variable sha256 : string -> string.
Variable bcrypt_compare : string -> string -> bool.
Variable uuidv4 : nat -> string.
Variable cuid : nat -> string.
Variable jwt_sign : JwtPayload.t -> string -> string -> Z -> string.
Variable jwt_verify : string -> string -> Z -> Exn + JwtPayload.t.

Local Abbreviation handleFailedLogin := (NovaSanctumService.handleFailedLogin config).
Local Abbreviation findActiveByRawToken := (NovaSanctumService.findActiveByRawToken sha256).
Local Abbreviation authenticateUser :=
  (NovaSanctumService.authenticateUser config sha256 bcrypt_compare uuidv4 cuid jwt_sign).
Local Abbreviation refreshToken :=
  (NovaSanctumService.refreshToken config sha256 uuidv4 jwt_sign).
Local Abbreviation logoutUser := (NovaSanctumService.logoutUser sha256).
Local Abbreviation verifyToken := (NovaSanctumService.verifyToken config jwt_verify).
Local Abbreviation cleanupExpiredSessions := NovaSanctumService.cleanupExpiredSessions.
Local Abbreviation expired_before := NovaSanctumService.expired_before.
Local Abbreviation getSecurityStats := (NovaSanctumService.getSecurityStats config).
Local Abbreviation login_session :=
  (NovaSanctumService.login_session config sha256 uuidv4 cuid).
Local Abbreviation failed_login_row := NovaSanctumService.failed_login_row.

(** *** verifyToken *)

Lemma verifyToken_cases (token : string) (w : World) :
  verifyToken token w
  = (match jwt_verify token (Config.jwtSecret config) (now w) with
     | inr decoded =>
         match find (by_id (JwtPayload.userId decoded)) (users w) with
         | Some u =>
             if User.isActive u then inr (identity_of u)
             else inl (JsError "Invalid token")
         | None => inl (JsError "Invalid token")
         end
     | inl _ => inl (JsError "Invalid token")
     end, w).
Proof.
  unfold NovaSanctumService.verifyToken, try_catch, bind, gets, lift, throw, ret.
  unfold NovaSanctumService.prisma_user_findUnique, gets.
  destruct (jwt_verify token (Config.jwtSecret config) (now w)) as [err | decoded];
    [reflexivity |].
  destruct (find (by_id (JwtPayload.userId decoded)) (users w)) as [u |];
    [| reflexivity].
  destruct (User.isActive u) eqn:Hactive; cbn [negb]; [| reflexivity].
  unfold identity_of. by rewrite Hactive.
Qed.

(** X4: [verifyToken] returns an identity exactly when jsonwebtoken accepts
    the token, the user the token names is stored and that user is active;
    the identity is then built from the stored row.  Every other outcome is
    the one error [Invalid token], and [verifyToken] never writes. *)
Theorem verifyToken_spec :
  forall (token : string) (w : World),
    snd (verifyToken token w) = w
    /\ (forall identity,
          fst (verifyToken token w) = inr identity
          <-> exists decoded u,
                jwt_verify token (Config.jwtSecret config) (now w) = inr decoded
                /\ find (by_id (JwtPayload.userId decoded)) (users w) = Some u
                /\ User.isActive u = true
                /\ identity = identity_of u)
    /\ (forall e, fst (verifyToken token w) = inl e -> e = JsError "Invalid token").
Proof.
  intros token w. rewrite verifyToken_cases. cbn [fst snd]. split; [done |].
  destruct (jwt_verify token (Config.jwtSecret config) (now w)) as [err | decoded].
  - split; [| by intros e [= <-]].
    intros identity. split; [discriminate | intros (d & u & Hd & _); discriminate].
  - destruct (find (by_id (JwtPayload.userId decoded)) (users w)) as [u |] eqn:Hfind.
    + destruct (User.isActive u) eqn:Hactive.
      * split; [| discriminate]. intros identity. split.
        -- intros [= <-]. by exists decoded, u.
        -- intros (d & u' & [= <-] & Hfind' & _ & ->).
           rewrite Hfind in Hfind'. by injection Hfind' as <-.
      * split; [| by intros e [= <-]].
        intros identity. split; [discriminate |].
        intros (d & u' & [= <-] & Hfind' & Hact & _).
        rewrite Hfind in Hfind'. injection Hfind' as <-. congruence.
    + split; [| by intros e [= <-]].
      intros identity. split; [discriminate |].
      intros (d & u' & [= <-] & Hfind' & _). congruence.
Qed.

(** X5: the identity [verifyToken] returns has a permission exactly when
    one of the roles of the stored user grants a permission of that name,
    and has a role exactly when the stored user has a role of that name. *)
Theorem verifyToken_permissions :
  forall (token : string) (w : World) (identity : NovaSanctumUser.t),
    fst (verifyToken token w) = inr identity ->
    exists u : User.t,
      In u (users w)
      /\ User.id u = NovaSanctumUser.id identity
      /\ (forall p, hasPermission identity p = true
                    <-> exists role perm,
                          In role (User.roles u)
                          /\ In perm (role_permissions role)
                          /\ permission_name perm = p)
      /\ (forall r, hasRole identity r = true
                    <-> exists role, In role (User.roles u) /\ role_name role = r).
Proof.
  intros token w identity Hrun.
  rewrite verifyToken_cases in Hrun. cbn [fst] in Hrun.
  destruct (jwt_verify token (Config.jwtSecret config) (now w)) as [err | decoded];
    [discriminate |].
  destruct (find (by_id (JwtPayload.userId decoded)) (users w)) as [u |] eqn:Hfind;
    [| discriminate].
  destruct (User.isActive u); [| discriminate]. injection Hrun as <-.
  apply find_some in Hfind as [Hin _].
  exists u. split; [exact Hin |]. split; [reflexivity |]. split.
  - intros p. unfold hasPermission. rewrite includes_spec, list_elem_of_In.
    cbn [identity_of NovaSanctumUser.permissions]. rewrite in_flat_map. split.
    + intros (role & Hrole & Hp). apply in_map_iff in Hp as (perm & Hname & Hperm).
      by exists role, perm.
    + intros (role & perm & Hrole & Hperm & Hname). exists role. split; [done |].
      apply in_map_iff. by exists perm.
  - intros r. unfold hasRole. rewrite includes_spec, list_elem_of_In.
    cbn [identity_of NovaSanctumUser.roles]. rewrite in_map_iff. split.
    + intros (role & Hname & Hrole). by exists role.
    + intros (role & Hrole & Hname). by exists role.
Qed.

(** *** Login: counters and locks *)

Lemma update_by_compose {A} (key : A -> string) (k : string) (f g : A -> A) (l : list A) :
  (forall a, key (f a) = key a) ->
  map (update_by key k g) (map (update_by key k f) l)
  = map (update_by key k (fun a => g (f a))) l.
Proof.
  intros Hkey. rewrite map_map. apply map_ext. intros a. unfold update_by.
  destruct (String.eqb (key a) k) eqn:Ha; [by rewrite Hkey, Ha | by rewrite Ha].
Qed.

(** The users table after [handleFailedLogin]: the row of the user is
    counted, and locked when the count of the row the update returned
    reaches the threshold. *)
Lemma handleFailedLogin_users (userId email ip ua : string) (w : World) (u0 : User.t) :
  find (by_id userId) (users w) = Some u0 ->
  users (snd (handleFailedLogin userId email ip ua w))
  = map (update_by User.id userId
           (fun r =>
              if (Config.maxLoginAttempts config <=? User.failedLoginAttempts u0 + 1)%Z
              then User.set_lock true (Some (now w + Config.lockoutDurationMs config))
                     (User.increment_failedLoginAttempts 1 r)
              else User.increment_failedLoginAttempts 1 r))
        (users w).
Proof.
  intros Hfind. unfold NovaSanctumService.handleFailedLogin, bind.
  rewrite (prisma_user_update_found _ _ _ _ Hfind).
  cbn [User.increment_failedLoginAttempts User.failedLoginAttempts].
  destruct (Config.maxLoginAttempts config <=? User.failedLoginAttempts u0 + 1)%Z.
  - unfold when_, bind, gets, ret.
    match goal with
    | |- context [NovaSanctumService.prisma_user_update ?i ?d ?w1] =>
        assert (Hfind1 : find (by_id userId) (users w1)
                         = Some (User.increment_failedLoginAttempts 1 u0))
    end.
    { cbn [users set_users]. unfold by_id. rewrite find_update_by by done.
      fold (by_id userId). by rewrite Hfind. }
    rewrite (prisma_user_update_found _ _ _ _ Hfind1).
    rewrite logFailedLogin_run. cbn [snd users set_users set_auditLog now].
    by rewrite update_by_compose.
  - unfold when_, ret. rewrite logFailedLogin_run.
    cbn [snd users set_users set_auditLog]. reflexivity.
Qed.

Lemma after_failure_keeps (date : Z) (u : User.t) :
  User.id (after_failure config date u) = User.id u
  /\ User.email (after_failure config date u) = User.email u
  /\ User.password (after_failure config date u) = User.password u
  /\ User.failedLoginAttempts (after_failure config date u)
     = User.failedLoginAttempts u + 1.
Proof.
  unfold after_failure. cbn [User.increment_failedLoginAttempts User.failedLoginAttempts].
  by destruct (Config.maxLoginAttempts config <=? User.failedLoginAttempts u + 1)%Z.
Qed.

(** One failed password check, seen from the next login: the row the
    email selects is the old one after [after_failure]. *)
Lemma wrong_password_step (email password ip ua : string) (w : World) (u : User.t) :
  find (by_email email) (users w) = Some u ->
  find (by_id (User.id u)) (users w) = Some u ->
  User.isLocked u = false ->
  bcrypt_compare password (User.password u) = false ->
  find (by_email email) (users (snd (authenticateUser email password ip ua w)))
  = Some (after_failure config (now w) u)
  /\ find (by_id (User.id u)) (users (snd (authenticateUser email password ip ua w)))
     = Some (after_failure config (now w) u).
Proof.
  intros Hemail Hid Hlocked Hpw.
  rewrite (authenticateUser_wrong_password config sha256 bcrypt_compare uuidv4 cuid
             jwt_sign email password ip ua w u Hemail Hlocked Hpw).
  cbn [snd]. rewrite (handleFailedLogin_users _ email ip ua w u Hid).
  assert (Hsame : update_by User.id (User.id u)
                    (fun r =>
                       if (Config.maxLoginAttempts config
                           <=? User.failedLoginAttempts u + 1)%Z
                       then User.set_lock true
                              (Some (now w + Config.lockoutDurationMs config))
                              (User.increment_failedLoginAttempts 1 r)
                       else User.increment_failedLoginAttempts 1 r) u
                  = after_failure config (now w) u).
  { unfold update_by, after_failure. rewrite String.eqb_refl.
    cbn [User.increment_failedLoginAttempts User.failedLoginAttempts]. reflexivity. }
  split.
  - rewrite find_map_preserving.
    + rewrite Hemail. cbn [fmap option_fmap option_map]. by rewrite Hsame.
    + intros a. unfold update_by, by_email.
      destruct (String.eqb (User.id a) (User.id u)); [| reflexivity].
      by destruct (Config.maxLoginAttempts config <=? _)%Z.
  - unfold by_id. rewrite find_update_by.
    + fold (by_id (User.id u)). rewrite Hid.
      cbn [fmap option_fmap option_map]. f_equal.
    + intros a. by destruct (Config.maxLoginAttempts config <=? _)%Z.
Qed.

Lemma attempts_app (dates1 dates2 : list Z) (email password ip ua : string) (w : World) :
  attempts config sha256 bcrypt_compare uuidv4 cuid jwt_sign
    (dates1 ++ dates2) email password ip ua w
  = attempts config sha256 bcrypt_compare uuidv4 cuid jwt_sign dates2 email password ip ua
      (attempts config sha256 bcrypt_compare uuidv4 cuid jwt_sign
         dates1 email password ip ua w).
Proof.
  revert w. induction dates1 as [| d dates1 IH]; intros w; [reflexivity |].
  cbn [app attempts]. apply IH.
Qed.

Lemma attempts_below_threshold (dates : list Z) (email password ip ua : string)
    (w : World) (u : User.t) :
  find (by_email email) (users w) = Some u ->
  find (by_id (User.id u)) (users w) = Some u ->
  User.isLocked u = false ->
  bcrypt_compare password (User.password u) = false ->
  User.failedLoginAttempts u + Z.of_nat (length dates) < Config.maxLoginAttempts config ->
  exists u' : User.t,
    find (by_email email)
      (users (attempts config sha256 bcrypt_compare uuidv4 cuid jwt_sign
                dates email password ip ua w)) = Some u'
    /\ find (by_id (User.id u'))
         (users (attempts config sha256 bcrypt_compare uuidv4 cuid jwt_sign
                   dates email password ip ua w)) = Some u'
    /\ User.failedLoginAttempts u' = User.failedLoginAttempts u + Z.of_nat (length dates)
    /\ User.isLocked u' = false
    /\ User.lockedUntil u' = User.lockedUntil u
    /\ User.password u' = User.password u.
Proof.
  revert w u. induction dates as [| d dates IH]; intros w u Hemail Hid Hlocked Hpw Hbelow.
  - exists u. cbn [attempts length]. repeat split; try done. lia.
  - cbn [attempts]. cbn [length] in Hbelow.
    destruct (wrong_password_step email password ip ua (set_now d w) u
                Hemail Hid Hlocked Hpw) as [Hemail' Hid'].
    cbn [now set_now] in Hemail', Hid'.
    destruct (after_failure_keeps d u) as (Hkid & _ & Hkpw & Hkcount).
    assert (Hstill : after_failure config d u = User.increment_failedLoginAttempts 1 u).
    { unfold after_failure.
      cbn [User.increment_failedLoginAttempts User.failedLoginAttempts].
      destruct (Z.leb_spec (Config.maxLoginAttempts config)
                           (User.failedLoginAttempts u + 1)); [lia | reflexivity]. }
    rewrite <- Hkid in Hid'.
    destruct (IH _ (after_failure config d u) Hemail' Hid')
      as (u' & H1 & H2 & H3 & H4 & H5 & H6).
    + by rewrite Hstill.
    + by rewrite Hkpw.
    + rewrite Hkcount. lia.
    + exists u'. repeat split; try done.
      * rewrite H3, Hkcount. cbn [length]. lia.
      * rewrite H5, Hstill. reflexivity.
      * by rewrite H6.
Qed.

(** X8: starting from an unlocked account, logins with a wrong password
    only count while the count stays below [maxLoginAttempts]: after them
    the account is still unlocked, its counter has grown by their number and
    [lockedUntil] is untouched.  The wrong login that brings the counter to
    [maxLoginAttempts] locks the account until the date of that login plus
    [lockoutDurationMs]. *)
Theorem wrong_passwords_count_then_lock :
  forall (dates : list Z) (last : Z) (email password ip ua : string)
         (w : World) (u : User.t),
    find (by_email email) (users w) = Some u ->
    find (by_id (User.id u)) (users w) = Some u ->
    User.isLocked u = false ->
    bcrypt_compare password (User.password u) = false ->
    User.failedLoginAttempts u + Z.of_nat (length dates) + 1
    = Config.maxLoginAttempts config ->
    (exists before : User.t,
       find (by_email email)
         (users (attempts config sha256 bcrypt_compare uuidv4 cuid jwt_sign
                   dates email password ip ua w)) = Some before
       /\ User.failedLoginAttempts before
          = User.failedLoginAttempts u + Z.of_nat (length dates)
       /\ User.isLocked before = false
       /\ User.lockedUntil before = User.lockedUntil u)
    /\ (exists after : User.t,
          find (by_email email)
            (users (attempts config sha256 bcrypt_compare uuidv4 cuid jwt_sign
                      (dates ++ [last]) email password ip ua w)) = Some after
          /\ User.failedLoginAttempts after = Config.maxLoginAttempts config
          /\ User.isLocked after = true
          /\ User.lockedUntil after = Some (last + Config.lockoutDurationMs config)).
Proof.
  intros dates last email password ip ua w u Hemail Hid Hlocked Hpw Hreach.
  destruct (attempts_below_threshold dates email password ip ua w u
              Hemail Hid Hlocked Hpw ltac:(lia))
    as (u' & Hemail' & Hid' & Hcount & Hunlocked & Huntil & Hpw').
  split; [by exists u' |].
  rewrite attempts_app. cbn [attempts].
  set (w' := attempts _ _ _ _ _ _ dates email password ip ua w) in *.
  rewrite <- Hpw' in Hpw.
  destruct (wrong_password_step email password ip ua (set_now last w') u'
              Hemail' Hid' Hunlocked Hpw) as [Hafter _].
  cbn [now set_now] in Hafter.
  exists (after_failure config last u'). split; [exact Hafter |].
  unfold after_failure.
  cbn [User.increment_failedLoginAttempts User.failedLoginAttempts].
  destruct (Z.leb_spec (Config.maxLoginAttempts config)
                       (User.failedLoginAttempts u' + 1)); [| lia].
  cbn. repeat split; try reflexivity. lia.
Qed.

(** X9: while [isLocked] is set, a login with any password is refused and
    changes neither the users nor the sessions: it only appends one audit
    row.  So no number of logins, at whatever dates, changes the users
    table of a locked account: its counter stays and the lock is never
    lifted by a login. *)
Theorem locked_account_attempts_change_nothing :
  forall (dates : list Z) (email password ip ua : string) (w : World) (u : User.t),
    find (by_email email) (users w) = Some u ->
    User.isLocked u = true ->
    users (attempts config sha256 bcrypt_compare uuidv4 cuid jwt_sign
             dates email password ip ua w) = users w
    /\ sessions (attempts config sha256 bcrypt_compare uuidv4 cuid jwt_sign
                   dates email password ip ua w) = sessions w
    /\ length (auditLog (attempts config sha256 bcrypt_compare uuidv4 cuid jwt_sign
                           dates email password ip ua w))
       = (length (auditLog w) + length dates)%nat
    /\ forall date,
         fst (authenticateUser email password ip ua
                (set_now date
                   (attempts config sha256 bcrypt_compare uuidv4 cuid jwt_sign
                      dates email password ip ua w)))
         = inl (JsError "Account is locked due to multiple failed login attempts").
Proof.
  intros dates email password ip ua. induction dates as [| d dates IH];
    intros w u Hemail Hlocked.
  - cbn [attempts length]. split; [done |]. split; [done |]. split; [lia |].
    intros date.
    by rewrite (authenticateUser_locked config sha256 bcrypt_compare uuidv4 cuid jwt_sign
                  email password ip ua (set_now date w) u Hemail Hlocked).
  - cbn [attempts].
    pose proof (authenticateUser_locked config sha256 bcrypt_compare uuidv4 cuid jwt_sign
                  email password ip ua (set_now d w) u Hemail Hlocked) as Hrun.
    rewrite Hrun. cbn [snd].
    destruct (IH (set_auditLog
                    (auditLog (set_now d w)
                     ++ [NovaSanctumService.failed_login_row email ip ua
                           "Account locked" (now (set_now d w))])
                    (set_now d w)) u Hemail Hlocked) as (Husers & Hsessions & Haudit & Hnext).
    rewrite Husers, Hsessions, Haudit.
    cbn [users sessions auditLog set_auditLog set_now length].
    rewrite length_app. cbn [length].
    split; [done |]. split; [done |]. split; [lia | exact Hnext].
Qed.

(** X7: a successful login clears the lockout state of the account
    whatever it was: the counter is 0, [isLocked] is false, [lockedUntil]
    is null and [lastLoginAt] is the date of the login. *)
Theorem successful_login_resets_lockout :
  forall (email password ip ua : string) (w : World) (u : User.t)
         (expiresIn refreshExpiresIn : Double),
    find (by_email email) (users w) = Some u ->
    User.isLocked u = false ->
    bcrypt_compare password (User.password u) = true ->
    parseJwtExpiration (Config.jwtExpiresIn config) = inr expiresIn ->
    parseJwtExpiration (Config.refreshTokenExpiresIn config) = inr refreshExpiresIn ->
    exists u' : User.t,
      find (by_id (User.id u)) (users (snd (authenticateUser email password ip ua w)))
      = Some u'
      /\ User.failedLoginAttempts u' = 0
      /\ User.isLocked u' = false
      /\ User.lockedUntil u' = None
      /\ User.lastLoginAt u' = Some (now w).
Proof.
  intros email password ip ua w u e1 e2 Hemail Hlocked Hpw He Hr.
  destruct (authenticateUser_success config sha256 bcrypt_compare uuidv4 cuid jwt_sign
              email password ip ua w u e1 e2 Hemail Hlocked Hpw He Hr)
    as (w' & u0 & Hrun & _ & _ & Hafter).
  rewrite Hrun. cbn [snd]. eexists. split; [exact Hafter |]. done.
Qed.

(** *** Sessions: refresh, logout, cleanup *)

Lemma map_update_by_preserving {A B} (key : A -> string) (k : string) (g : A -> A)
    (f : A -> B) (l : list A) :
  (forall a, f (g a) = f a) ->
  map f (map (update_by key k g) l) = map f l.
Proof.
  intros Hf. rewrite map_map. apply map_ext. intros a. unfold update_by.
  by destruct (String.eqb (key a) k).
Qed.

Lemma find_last {A} (p : A -> bool) (l : list A) (x : A) :
  (forall a, In a l -> p a = false) ->
  p x = true ->
  find p (l ++ [x]) = Some x.
Proof.
  intros Hl Hx. induction l as [| a l IH]; cbn [app find].
  - by rewrite Hx.
  - rewrite (Hl a (or_introl eq_refl)). apply IH. intros b Hb. apply Hl. by right.
Qed.

Lemma find_filter {A} (p q : A -> bool) (l : list A) :
  (forall a, p a = true -> q a = true) ->
  find p (List.filter q l) = find p l.
Proof.
  intros Hpq. induction l as [| a l IH]; [reflexivity |].
  cbn [List.filter find]. destruct (q a) eqn:Hq.
  - cbn [find]. destruct (p a); [reflexivity | exact IH].
  - destruct (p a) eqn:Hp; [| exact IH]. apply Hpq in Hp. congruence.
Qed.

(** X10: a login followed by a refresh.  The refresh token a login
    returns resolves, until the session times out, to the session the login
    created, and refreshing with it issues an access token signed for the
    user who logged in.  The hash of the new token is assumed not to be in
    the table already. *)
Theorem login_then_refresh :
  forall (email password ip ua ip' : string) (w later : World) (u : User.t)
         (expiresIn refreshExpiresIn : Double),
    find (by_email email) (users w) = Some u ->
    User.isLocked u = false ->
    bcrypt_compare password (User.password u) = true ->
    parseJwtExpiration (Config.jwtExpiresIn config) = inr expiresIn ->
    parseJwtExpiration (Config.refreshTokenExpiresIn config) = inr refreshExpiresIn ->
    (forall s, In s (sessions w) ->
               Session.refreshToken s <> sha256 (uuidv4 (uuids_drawn w))) ->
    sessions later = sessions (snd (authenticateUser email password ip ua w)) ->
    now later < now w + Config.sessionTimeoutMs config ->
    exists tokens tokens' : NovaSanctumToken.t,
      fst (authenticateUser email password ip ua w) = inr tokens
      /\ fst (findActiveByRawToken (NovaSanctumToken.refreshToken tokens) later)
         = inr (Some (login_session u ip ua w))
      /\ fst (refreshToken (NovaSanctumToken.refreshToken tokens) ip' later) = inr tokens'
      /\ NovaSanctumToken.accessToken tokens'
         = jwt_sign {| JwtPayload.userId := User.id u; JwtPayload.type := "access" |}
                    (Config.jwtSecret config) (Config.jwtExpiresIn config) (now later).
Proof.
  intros email password ip ua ip' w later u e1 e2 Hemail Hlocked Hpw He Hr
         Hfresh Hlater Htime.
  destruct (authenticateUser_success config sha256 bcrypt_compare uuidv4 cuid jwt_sign
              email password ip ua w u e1 e2 Hemail Hlocked Hpw He Hr)
    as (w' & u0 & Hrun & Hsessions & _).
  rewrite Hrun in Hlater |- *. cbn [fst snd] in Hlater |- *.
  rewrite Hsessions in Hlater.
  assert (Hfound : fst (findActiveByRawToken (uuidv4 (uuids_drawn w)) later)
                   = inr (Some (login_session u ip ua w))).
  { rewrite findActiveByRawToken_run. cbn [fst]. rewrite Hlater. f_equal.
    apply find_last.
    - intros s Hin. unfold active_with_hash.
      specialize (Hfresh s Hin). apply String.eqb_neq in Hfresh. by rewrite Hfresh.
    - unfold active_with_hash, NovaSanctumService.login_session.
      cbn [Session.refreshToken Session.isActive Session.expiresAt].
      rewrite String.eqb_refl. cbn [andb]. by apply Z.ltb_lt. }
  destruct (refreshToken_run config sha256 uuidv4 jwt_sign _ ip' later _ e1 e2
              Hfound He Hr) as (w2 & Hrefresh & _).
  eexists _, _. split; [reflexivity |].
  cbn [NovaSanctumToken.refreshToken]. split; [exact Hfound |].
  rewrite Hrefresh. cbn [fst]. split; [reflexivity |]. reflexivity.
Qed.

(** X11: whatever its outcome, [refreshToken] creates and deletes no
    session, moves no session to another user or address, changes no
    [isActive] flag and touches no user. *)
Theorem refreshToken_keeps_session_owners :
  forall (token ip : string) (w : World),
    users (snd (refreshToken token ip w)) = users w
    /\ map Session.id (sessions (snd (refreshToken token ip w)))
       = map Session.id (sessions w)
    /\ map Session.userId (sessions (snd (refreshToken token ip w)))
       = map Session.userId (sessions w)
    /\ map Session.ipAddress (sessions (snd (refreshToken token ip w)))
       = map Session.ipAddress (sessions w)
    /\ map Session.isActive (sessions (snd (refreshToken token ip w)))
       = map Session.isActive (sessions w).
Proof.
  intros token ip w.
  destruct (refreshToken token ip w) as [result w'] eqn:Hrun. cbn [snd].
  unfold NovaSanctumService.refreshToken, try_catch, bind at 1 in Hrun.
  rewrite findActiveByRawToken_run in Hrun.
  destruct (find _ (sessions w)) as [s |]; [| by injection Hrun as <- <-].
  unfold when_, NovaSanctumService.logAuditEvent,
    NovaSanctumService.prisma_auditLog_create, NovaSanctumService.generateTokens,
    NovaSanctumService.updateSession, NovaSanctumService.prisma_session_update,
    bind, gets, modify, lift, ret, throw in Hrun.
  destruct (negb (String.eqb (Session.ipAddress s) ip));
    destruct (parseJwtExpiration (Config.jwtExpiresIn config));
    destruct (parseJwtExpiration (Config.refreshTokenExpiresIn config));
    cbn [fst snd users sessions set_auditLog set_uuids_drawn set_sessions now] in Hrun;
    try (by injection Hrun as <- <-);
    destruct (find _ (sessions w));
    injection Hrun as <- <-;
    cbn [users sessions set_auditLog set_uuids_drawn set_sessions];
    rewrite ?map_update_by_preserving by done; done.
Qed.

Lemma logoutUser_run (userId token ip : string) (w : World) :
  exists w' : World,
    logoutUser userId token ip w = (inr tt, w')
    /\ users w' = users w
    /\ sessions w'
       = match find (active_of_user userId (sha256 token)) (sessions w) with
         | Some s => map (update_by Session.id (Session.id s) Session.deactivate) (sessions w)
         | None => sessions w
         end
    /\ auditLog w'
       = (auditLog w
          ++ [logout_row userId ip
                (find (active_of_user userId (sha256 token)) (sessions w)) (now w)])%list.
Proof.
  unfold NovaSanctumService.logoutUser, try_catch, bind at 1.
  unfold NovaSanctumService.prisma_session_findFirst, gets.
  unfold NovaSanctumService.hashToken.
  destruct (find (active_of_user userId (sha256 token)) (sessions w)) as [s |] eqn:Hfind.
  - apply find_some in Hfind as [Hin _].
    destruct (find_witness (fun r => String.eqb (Session.id r) (Session.id s))
                (sessions w) s Hin (String.eqb_refl _)) as [s0 Hid].
    unfold bind. rewrite (prisma_session_update_found _ _ _ _ Hid).
    eexists. split; [reflexivity |]. by repeat split.
  - eexists. split; [reflexivity |]. by repeat split.
Qed.

(** X12: logout revokes the refresh token.  When the rows that hold the
    hash of the token belong to the user who logs out and are one session
    (one id), then after [logoutUser] the token resolves to no session and
    [refreshToken] refuses it, at any later time. *)
Theorem logoutUser_revokes_token :
  forall (userId token ip : string) (w later : World),
    (forall s, In s (sessions w) -> Session.refreshToken s = sha256 token ->
               Session.userId s = userId) ->
    (forall s1 s2, In s1 (sessions w) -> In s2 (sessions w) ->
                   Session.refreshToken s1 = sha256 token ->
                   Session.refreshToken s2 = sha256 token ->
                   Session.id s1 = Session.id s2) ->
    sessions later = sessions (snd (logoutUser userId token ip w)) ->
    fst (logoutUser userId token ip w) = inr tt
    /\ fst (findActiveByRawToken token later) = inr None
    /\ forall ip', fst (refreshToken token ip' later)
                   = inl (JsError "Invalid or expired refresh token").
Proof.
  intros userId token ip w later Howner Hone Hlater.
  destruct (logoutUser_run userId token ip w) as (w' & Hrun & _ & Hsessions & _).
  rewrite Hrun in Hlater |- *. cbn [fst snd] in Hlater |- *.
  assert (Hnone : find (active_with_hash (sha256 token) (now later)) (sessions later)
                  = None).
  { rewrite Hlater, Hsessions. apply find_none_iff.
    destruct (find (active_of_user userId (sha256 token)) (sessions w)) as [s |] eqn:Hfind.
    - apply find_some in Hfind as [Hin Hs].
      unfold active_of_user in Hs. apply andb_prop in Hs as [Hs _].
      apply andb_prop in Hs as [_ Hhash]. apply String.eqb_eq in Hhash.
      intros r' Hr'. apply in_map_iff in Hr' as (r & <- & Hr).
      unfold active_with_hash, update_by.
      destruct (String.eqb (Session.id r) (Session.id s)) eqn:Hid.
      + cbn [Session.deactivate Session.isActive]. by rewrite andb_false_r.
      + destruct (String.eqb (Session.refreshToken r) (sha256 token)) eqn:Hr_hash;
          [| reflexivity].
        apply String.eqb_eq in Hr_hash. apply String.eqb_neq in Hid.
        destruct Hid. by apply Hone.
    - intros r Hr. pose proof (find_none _ _ Hfind r Hr) as Hnot.
      unfold active_of_user in Hnot. unfold active_with_hash.
      destruct (String.eqb (Session.refreshToken r) (sha256 token)) eqn:Hr_hash;
        [| reflexivity].
      apply String.eqb_eq in Hr_hash.
      rewrite (Howner r Hr Hr_hash), String.eqb_refl in Hnot.
      rewrite ?Hr_hash, ?String.eqb_refl in Hnot. cbn [andb] in Hnot.
      by rewrite Hnot. }
  split; [reflexivity |]. split.
  - rewrite findActiveByRawToken_run. cbn [fst]. by rewrite Hnone.
  - intros ip'. unfold NovaSanctumService.refreshToken, try_catch, bind.
    rewrite findActiveByRawToken_run, Hnone. reflexivity.
Qed.

(** X13: [logoutUser] cannot end a session of another user.  When every
    row that holds the hash of the token belongs to someone else, the call
    still returns, the session table is unchanged, and the [LOGOUT] audit
    row it appends has no session id. *)
Theorem logoutUser_spares_other_users :
  forall (userId token ip : string) (w : World),
    (forall s, In s (sessions w) -> Session.refreshToken s = sha256 token ->
               Session.userId s <> userId) ->
    fst (logoutUser userId token ip w) = inr tt
    /\ sessions (snd (logoutUser userId token ip w)) = sessions w
    /\ users (snd (logoutUser userId token ip w)) = users w
    /\ auditLog (snd (logoutUser userId token ip w))
       = (auditLog w ++ [logout_row userId ip None (now w)])%list.
Proof.
  intros userId token ip w Hothers.
  assert (Hnone : find (active_of_user userId (sha256 token)) (sessions w) = None).
  { apply find_none_iff. intros s Hin. unfold active_of_user.
    destruct (String.eqb (Session.refreshToken s) (sha256 token)) eqn:Hhash.
    - apply String.eqb_eq in Hhash. specialize (Hothers s Hin Hhash).
      apply String.eqb_neq in Hothers. by rewrite Hothers.
    - by rewrite andb_false_r. }
  destruct (logoutUser_run userId token ip w) as (w' & Hrun & Husers & Hsessions & Haudit).
  rewrite Hrun. cbn [fst snd]. rewrite Hnone in Hsessions, Haudit. done.
Qed.

Lemma cleanupExpiredSessions_run (w : World) :
  cleanupExpiredSessions w
  = (inr tt,
     set_sessions
       (List.filter (fun s => negb (expired_before (now w) s)) (sessions w)) w).
Proof. reflexivity. Qed.

(** X14: [cleanupExpiredSessions] keeps exactly the sessions that expire
    now or later, touches nothing else and never throws; no token resolves
    differently after it than before.  A session that expires exactly now is
    kept, although no refresh accepts it. *)
Theorem cleanupExpiredSessions_spec :
  forall (w : World),
    fst (cleanupExpiredSessions w) = inr tt
    /\ users (snd (cleanupExpiredSessions w)) = users w
    /\ auditLog (snd (cleanupExpiredSessions w)) = auditLog w
    /\ (forall s, In s (sessions (snd (cleanupExpiredSessions w)))
                  <-> In s (sessions w) /\ now w <= Session.expiresAt s)
    /\ (forall token,
          fst (findActiveByRawToken token (snd (cleanupExpiredSessions w)))
          = fst (findActiveByRawToken token w)).
Proof.
  intros w. rewrite cleanupExpiredSessions_run.
  cbn [fst snd users auditLog sessions set_sessions].
  split; [done |]. split; [done |]. split; [done |]. split.
  - intros s. rewrite filter_In. unfold NovaSanctumService.expired_before.
    rewrite negb_true_iff, Z.ltb_ge. done.
  - intros token. rewrite !findActiveByRawToken_run.
    cbn [fst sessions now set_sessions]. f_equal. apply find_filter.
    intros s Hs. unfold active_with_hash in Hs. apply andb_prop in Hs as [_ Hexp].
    apply Z.ltb_lt in Hexp. unfold NovaSanctumService.expired_before.
    apply negb_true_iff, Z.ltb_ge. lia.
Qed.

(** *** Statistics *)

Lemma refused_login_effect (email password ip ua : string) (w : World)
    (cause : FailureCause) :
  NovaSanctumService.failure_cause bcrypt_compare email password w = Some cause ->
  auditLog (snd (authenticateUser email password ip ua w))
  = (auditLog w ++ [failed_login_row email ip ua (audit_reason cause) (now w)])%list
  /\ now (snd (authenticateUser email password ip ua w)) = now w
  /\ length (users (snd (authenticateUser email password ip ua w))) = length (users w)
  /\ sessions (snd (authenticateUser email password ip ua w)) = sessions w.
Proof.
  intros Hcause. unfold NovaSanctumService.failure_cause in Hcause.
  destruct (find (by_email email) (users w)) as [u |] eqn:Hfind.
  - destruct (User.isLocked u) eqn:Hlocked.
    + injection Hcause as <-.
      by rewrite (authenticateUser_locked config sha256 bcrypt_compare uuidv4 cuid
                    jwt_sign email password ip ua w u Hfind Hlocked).
    + destruct (bcrypt_compare password (User.password u)) eqn:Hpw; [discriminate |].
      injection Hcause as <-.
      rewrite (authenticateUser_wrong_password config sha256 bcrypt_compare uuidv4 cuid
                 jwt_sign email password ip ua w u Hfind Hlocked Hpw).
      cbn [snd].
      destruct (found_by_email_has_id _ _ _ Hfind) as [u0 Hid].
      rewrite (handleFailedLogin_users _ email ip ua w u0 Hid).
      destruct (handleFailedLogin_run config (User.id u) email ip ua w u0 Hid)
        as (w' & Hrun & _ & Hsessions & Hnow & Haudit).
      rewrite Hrun. cbn [snd]. by rewrite length_map.
  - injection Hcause as <-.
    by rewrite (authenticateUser_not_found config sha256 bcrypt_compare uuidv4 cuid
                  jwt_sign email password ip ua w Hfind).
Qed.

(** X15: [getSecurityStats] counts every refused login at once: after a
    login refused for an unknown email, a locked account or a wrong
    password, [failedLogins24h] is one more than before, while the numbers
    of users and of active sessions are the same; the number of locked
    accounts never exceeds the number of users. *)
Theorem getSecurityStats_counts_refused_login :
  forall (email password ip ua : string) (w : World) (cause : FailureCause),
    NovaSanctumService.failure_cause bcrypt_compare email password w = Some cause ->
    exists before after : SecurityStats,
      getSecurityStats w = (inr before, w)
      /\ fst (getSecurityStats (snd (authenticateUser email password ip ua w)))
         = inr after
      /\ stats_failedLogins24h after = S (stats_failedLogins24h before)
      /\ stats_totalUsers after = stats_totalUsers before
      /\ stats_activeSessions after = stats_activeSessions before
      /\ (stats_lockedAccounts after <= stats_totalUsers after)%nat.
Proof.
  intros email password ip ua w cause Hcause.
  destruct (refused_login_effect email password ip ua w cause Hcause)
    as (Haudit & Hnow & Husers & Hsessions).
  eexists _, _. split; [reflexivity |]. split; [reflexivity |].
  cbn [stats_failedLogins24h stats_totalUsers stats_activeSessions stats_lockedAccounts].
  rewrite Haudit, Hnow, Husers, Hsessions. split; [| split; [done | split; [done |]]].
  - rewrite List.filter_app, length_app. cbn [List.filter].
    unfold NovaSanctumService.failed_login_row at 1 2.
    cbn [AuditLog.action AuditLog.timestamp String.eqb Ascii.eqb Bool.eqb andb].
    destruct (Z.leb_spec (now w - 24 * 60 * 60 * 1000) (now w)); [| lia].
    cbn [length]. lia.
  - rewrite <- Husers. apply filter_length_le.
Qed.

(** *** A deactivated account *)

Section Deactivated.

Variable jwt_expired : string -> Z -> bool.

Hypothesis jwt_verify_sign :
  forall (payload : JwtPayload.t) (secret expiresIn : string) (issued date : Z),
    JwtPayload.type payload = "access" ->
    (exists ms, parseJwtExpiration expiresIn = inr ms) ->
    jwt_expired (jwt_sign payload secret expiresIn issued) date = false ->
    jwt_verify (jwt_sign payload secret expiresIn issued) secret date = inr payload.

(** X6: a deactivated user can log in, but the access token the login
    returns is refused by [verifyToken] with [Invalid token] for as long as
    the user stays stored as it is: the login does not reactivate the
    account. *)
Theorem deactivated_login_token_is_refused :
  forall (email password ip ua : string) (w later : World) (u : User.t)
         (expiresIn refreshExpiresIn : Double),
    find (by_email email) (users w) = Some u ->
    find (by_id (User.id u)) (users w) = Some u ->
    User.isActive u = false ->
    User.isLocked u = false ->
    bcrypt_compare password (User.password u) = true ->
    parseJwtExpiration (Config.jwtExpiresIn config) = inr expiresIn ->
    parseJwtExpiration (Config.refreshTokenExpiresIn config) = inr refreshExpiresIn ->
    users later = users (snd (authenticateUser email password ip ua w)) ->
    exists tokens : NovaSanctumToken.t,
      fst (authenticateUser email password ip ua w) = inr tokens
      /\ (jwt_expired (NovaSanctumToken.accessToken tokens) (now later) = false ->
          fst (verifyToken (NovaSanctumToken.accessToken tokens) later)
          = inl (JsError "Invalid token")).
Proof.
  intros email password ip ua w later u e1 e2 Hemail Hid Hinactive Hlocked Hpw He Hr
         Hlater.
  destruct (authenticateUser_success config sha256 bcrypt_compare uuidv4 cuid jwt_sign
              email password ip ua w u e1 e2 Hemail Hlocked Hpw He Hr)
    as (w' & u0 & Hrun & _ & Hid0 & Hafter).
  rewrite Hid in Hid0. injection Hid0 as <-.
  rewrite Hrun in Hlater |- *. cbn [fst snd] in Hlater |- *.
  eexists. split; [reflexivity |]. cbn [NovaSanctumToken.accessToken].
  intros Hlive.
  pose proof (jwt_verify_sign
                {| JwtPayload.userId := User.id u; JwtPayload.type := "access" |}
                (Config.jwtSecret config) (Config.jwtExpiresIn config)
                (now w) (now later) eq_refl (ex_intro _ e1 He) Hlive) as Hverify.
  rewrite (verifyToken_cases _ later), Hverify. cbn [fst JwtPayload.userId].
  rewrite Hlater, Hafter.
  cbn [User.isActive User.set_lastLoginAt User.reset_failedLoginAttempts].
  by rewrite Hinactive.
Qed.

End Deactivated.

End MoreServiceFacts.

(** ** Security middleware, continued *)

Lemma split_no_space (s : string) : no_space s = true -> split " " s = [s].
Proof.
  induction s as [| c s IH]; [reflexivity |].
  cbn [no_space split]. intros Hs. apply andb_prop in Hs as [Hc Hs].
  apply negb_true_iff in Hc. rewrite Hc, (IH Hs). reflexivity.
Qed.

Lemma split_at_space (s t : string) :
  no_space s = true -> split " " (s +:+ String " " t) = s :: split " " t.
Proof.
  induction s as [| c s IH]; intros Hs.
  - change ("" +:+ String " " t) with (String " " t). reflexivity.
  - cbn [no_space] in Hs. apply andb_prop in Hs as [Hc Hs].
    apply negb_true_iff in Hc.
    change (String c s +:+ String " " t) with (String c (s +:+ String " " t)).
    cbn [split]. rewrite Hc, (IH Hs). reflexivity.
Qed.

Lemma append_cons_nonempty (s : string) (c : Ascii.ascii) (t : string) :
  String.eqb (s +:+ String c t) "" = false.
Proof. by destruct s. Qed.

(** X16: the token [authenticateToken] reads is the second of the
    space-separated fields of the authorization header, whatever the first
    field is (the scheme is not compared with "Bearer") and whatever
    follows; a header without a space, or none, gives no token. *)
Theorem bearer_token_spec :
  forall (scheme token : string),
    no_space scheme = true ->
    no_space token = true ->
    token <> "" ->
    bearer_token (Some (scheme +:+ String " " token)) = Some token
    /\ (forall rest, bearer_token (Some (scheme +:+ String " " (token +:+ String " " rest)))
                     = Some token)
    /\ bearer_token (Some (scheme +:+ String " " "")) = None
    /\ bearer_token (Some token) = None
    /\ bearer_token None = None.
Proof.
  intros scheme token Hscheme Htoken Hne. apply String.eqb_neq in Hne.
  unfold bearer_token. repeat split.
  - rewrite append_cons_nonempty, (split_at_space scheme _ Hscheme).
    rewrite (split_no_space token Htoken). cbn [lookup list_lookup]. by rewrite Hne.
  - intros rest. rewrite append_cons_nonempty, (split_at_space scheme _ Hscheme).
    rewrite (split_at_space token _ Htoken). cbn [lookup list_lookup]. by rewrite Hne.
  - rewrite append_cons_nonempty, (split_at_space scheme _ Hscheme). reflexivity.
  - rewrite Hne, (split_no_space token Htoken). reflexivity.
Qed.

Section MiddlewareFacts.

Variable config : Config.t.
Variable jwt_verify : string -> string -> Z -> Exn + JwtPayload.t.

Local Abbreviation verifyToken := (NovaSanctumService.verifyToken config jwt_verify).
Local Abbreviation authenticateToken :=
  (SecurityMiddleware.authenticateToken config jwt_verify).
Local Abbreviation optionalAuth := (SecurityMiddleware.optionalAuth config jwt_verify).
Local Abbreviation admin_route_guards :=
  (SecurityMiddleware.admin_route_guards config jwt_verify).

Lemma authenticateToken_cases (authorization : option string) (req : Request)
    (w : World) :
  authenticateToken authorization req w
  = (match bearer_token authorization with
     | None => (NextErr (AuthenticationError "Authentication failed"), req)
     | Some token =>
         match jwt_verify token (Config.jwtSecret config) (now w) with
         | inr decoded =>
             match find (by_id (JwtPayload.userId decoded)) (users w) with
             | Some u =>
                 if User.isActive u then (NextOk, set_req_user (identity_of u) req)
                 else (NextErr (AuthenticationError "Invalid or expired token"), req)
             | None => (NextErr (AuthenticationError "Invalid or expired token"), req)
             end
         | inl _ => (NextErr (AuthenticationError "Invalid or expired token"), req)
         end
     end, w).
Proof.
  unfold SecurityMiddleware.authenticateToken.
  destruct (bearer_token authorization) as [token |]; [| reflexivity].
  rewrite (verifyToken_cases config jwt_verify token w).
  destruct (jwt_verify token (Config.jwtSecret config) (now w)) as [err | decoded];
    [reflexivity |].
  destruct (find (by_id (JwtPayload.userId decoded)) (users w)) as [u |];
    [| reflexivity].
  by destruct (User.isActive u).
Qed.

(** X17: [authenticateToken] calls [next()] exactly when the header
    carries a token that jsonwebtoken accepts and that names a stored,
    active user; the request then carries the identity built from that
    user.  Otherwise it ends in an [AuthenticationError] whose message is
    [Authentication failed] (no token) or [Invalid or expired token], and
    the request is handed on unchanged.  It never writes. *)
Theorem authenticateToken_spec :
  forall (authorization : option string) (req : Request) (w : World),
    snd (authenticateToken authorization req w) = w
    /\ (forall req',
          fst (authenticateToken authorization req w) = (NextOk, req')
          <-> exists token decoded u,
                bearer_token authorization = Some token
                /\ jwt_verify token (Config.jwtSecret config) (now w) = inr decoded
                /\ find (by_id (JwtPayload.userId decoded)) (users w) = Some u
                /\ User.isActive u = true
                /\ req' = set_req_user (identity_of u) req)
    /\ (forall err req',
          fst (authenticateToken authorization req w) = (NextErr err, req') ->
          req' = req
          /\ err = AuthenticationError
                     match bearer_token authorization with
                     | Some _ => "Invalid or expired token"
                     | None => "Authentication failed"
                     end).
Proof.
  intros authorization req w. rewrite authenticateToken_cases. cbn [fst snd].
  split; [done |].
  destruct (bearer_token authorization) as [token |].
  - destruct (jwt_verify token (Config.jwtSecret config) (now w)) as [e | decoded] eqn:Hd.
    + split; [| by intros err req' [= <- <-]].
      intros req'. split; [discriminate |].
      intros (t & d & u & [= <-] & Hd' & _). congruence.
    + destruct (find (by_id (JwtPayload.userId decoded)) (users w)) as [u |] eqn:Hf.
      * destruct (User.isActive u) eqn:Ha.
        -- split; [| discriminate]. intros req'. split.
           ++ intros [= <-]. by exists token, decoded, u.
           ++ intros (t & d & u' & [= <-] & Hd' & Hf' & _ & ->).
              rewrite Hd in Hd'. injection Hd' as <-.
              rewrite Hf in Hf'. by injection Hf' as <-.
        -- split; [| by intros err req' [= <- <-]].
           intros req'. split; [discriminate |].
           intros (t & d & u' & [= <-] & Hd' & Hf' & Ha' & _).
           rewrite Hd in Hd'. injection Hd' as <-.
           rewrite Hf in Hf'. injection Hf' as <-. congruence.
      * split; [| by intros err req' [= <- <-]].
        intros req'. split; [discriminate |].
        intros (t & d & u' & [= <-] & Hd' & Hf' & _).
        rewrite Hd in Hd'. injection Hd' as <-. congruence.
  - split; [| by intros err req' [= <- <-]].
    intros req'. split; [discriminate | intros (t & d & u & Ht & _); discriminate].
Qed.

(** X18: [optionalAuth] never refuses a request and never writes; it
    hands on the request [authenticateToken] would hand on: with the user
    attached when the token verifies, unchanged otherwise. *)
Theorem optionalAuth_never_rejects :
  forall (authorization : option string) (req : Request) (w : World),
    fst (fst (optionalAuth authorization req w)) = NextOk
    /\ snd (optionalAuth authorization req w) = w
    /\ snd (fst (optionalAuth authorization req w))
       = snd (fst (authenticateToken authorization req w))
    /\ (fst (fst (authenticateToken authorization req w)) <> NextOk ->
        snd (fst (optionalAuth authorization req w)) = req).
Proof.
  intros authorization req w. rewrite authenticateToken_cases.
  unfold SecurityMiddleware.optionalAuth.
  destruct (bearer_token authorization) as [token |]; [| done].
  rewrite (verifyToken_cases config jwt_verify token w).
  destruct (jwt_verify token (Config.jwtSecret config) (now w)) as [e | decoded];
    [done |].
  destruct (find (by_id (JwtPayload.userId decoded)) (users w)) as [u |]; [| done].
  by destruct (User.isActive u).
Qed.

(** X19: the guards of the admin route, [authenticateToken] then
    [requireAdmin], let a request through exactly when its token is
    accepted and names a stored, active user one of whose roles is named
    "admin". *)
Theorem admin_route_guards_spec :
  forall (authorization : option string) (req : Request) (w : World),
    fst (admin_route_guards authorization req w) = NextOk
    <-> exists token decoded u role,
          bearer_token authorization = Some token
          /\ jwt_verify token (Config.jwtSecret config) (now w) = inr decoded
          /\ find (by_id (JwtPayload.userId decoded)) (users w) = Some u
          /\ User.isActive u = true
          /\ In role (User.roles u)
          /\ role_name role = "admin".
Proof.
  intros authorization req w.
  unfold SecurityMiddleware.admin_route_guards. rewrite authenticateToken_cases.
  assert (Hadmin : forall u,
             requireAdmin (set_req_user (identity_of u) req) = NextOk
             <-> exists role, In role (User.roles u) /\ role_name role = "admin").
  { intros u. unfold requireAdmin, requireRole, requireRoles, hasAnyRole.
    cbn [req_user set_req_user existsb identity_of NovaSanctumUser.roles].
    rewrite orb_false_r.
    pose proof (includes_spec (map role_name (User.roles u)) "admin") as Hspec.
    rewrite list_elem_of_In, in_map_iff in Hspec.
    destruct (includes (map role_name (User.roles u)) "admin"); cbn [negb].
    - split; [intros _ | done].
      destruct (proj1 Hspec eq_refl) as (role & Hname & Hrole). by exists role.
    - split; [discriminate |]. intros (role & Hrole & Hname).
      assert (false = true); [| discriminate]. apply Hspec. by exists role. }
  destruct (bearer_token authorization) as [token |]; cbn [fst].
  - destruct (jwt_verify token (Config.jwtSecret config) (now w)) as [e | decoded] eqn:Hd.
    + split; [discriminate |].
      intros (t & d & u & role & [= <-] & Hd' & _). congruence.
    + destruct (find (by_id (JwtPayload.userId decoded)) (users w)) as [u |] eqn:Hf.
      * destruct (User.isActive u) eqn:Ha; cbn [fst].
        -- rewrite Hadmin. split.
           ++ intros (role & Hrole & Hname). by exists token, decoded, u, role.
           ++ intros (t & d & u' & role & [= <-] & Hd' & Hf' & _ & Hrole & Hname).
              rewrite Hd in Hd'. injection Hd' as <-.
              rewrite Hf in Hf'. injection Hf' as <-. by exists role.
        -- split; [discriminate |].
           intros (t & d & u' & role & [= <-] & Hd' & Hf' & Ha' & _).
           rewrite Hd in Hd'. injection Hd' as <-.
           rewrite Hf in Hf'. injection Hf' as <-. congruence.
      * split; [discriminate |].
        intros (t & d & u' & role & [= <-] & Hd' & Hf' & _).
        rewrite Hd in Hd'. injection Hd' as <-. congruence.
  - split; [discriminate |].
    intros (t & d & u & role & Ht & _). discriminate.
Qed.

End MiddlewareFacts.

(** X20: [requireResourceOwnership], for a user without the role "admin",
    calls [next()] exactly when the lookup finds a resource whose [userId]
    is the string equal to the user's id.  A resource that does not exist
    ends in a plain [Error('Resource not found')], not in an
    [AuthorizationError]; an error of the lookup is passed on as it is; any
    other resource ends in [AuthorizationError('Access denied')].  An admin
    passes whatever the lookup would say. *)
Theorem requireResourceOwnership_decision :
  forall (findById : JsValue -> Exn + option Resource) (resourceIdField : string)
         (user : NovaSanctumUser.t) (params : gmap string string)
         (body : gmap string JsValue),
    let req := {| req_user := Some user; req_params := params; req_body := body |} in
    let resourceId := js_param params resourceIdField in
    (hasRole user "admin" = true ->
       SecurityMiddleware.requireResourceOwnership findById resourceIdField req = NextOk)
    /\ (hasRole user "admin" = false ->
          (SecurityMiddleware.requireResourceOwnership findById resourceIdField req = NextOk
           <-> exists resource,
                 findById resourceId = inr (Some resource)
                 /\ resource_userId resource = JsString (NovaSanctumUser.id user))
          /\ (findById resourceId = inr None ->
                SecurityMiddleware.requireResourceOwnership findById resourceIdField req
                = NextErr (JsError "Resource not found"))
          /\ (forall error, findById resourceId = inl error ->
                SecurityMiddleware.requireResourceOwnership findById resourceIdField req = NextErr error)
          /\ (forall resource,
                findById resourceId = inr (Some resource) ->
                resource_userId resource <> JsString (NovaSanctumUser.id user) ->
                SecurityMiddleware.requireResourceOwnership findById resourceIdField req
                = NextErr (AuthorizationError "Access denied"))).
Proof.
  intros findById field user params body req resourceId.
  unfold SecurityMiddleware.requireResourceOwnership. cbn [req_user req_params req].
  fold resourceId. split; [by intros -> |]. intros ->.
  assert (Heq : forall v s, js_strict_eq v (JsString s) = true <-> v = JsString s).
  { intros v s. destruct v; cbn; try (split; discriminate).
    rewrite String.eqb_eq. split; congruence. }
  destruct (findById resourceId) as [error | [resource |]].
  - split; [| split; [discriminate | split; [by intros ? [= <-] | discriminate]]].
    split; [discriminate | intros (r & Hr & _); discriminate].
  - pose proof (Heq (resource_userId resource) (NovaSanctumUser.id user)) as Hown.
    destruct (js_strict_eq (resource_userId resource)
                (JsString (NovaSanctumUser.id user))).
    + split; [| split; [discriminate | split; [discriminate |]]].
      * split; [intros _; exists resource; split; [done | by apply Hown] | done].
      * intros r [= <-] Hne. destruct Hne. by apply Hown.
    + split; [| split; [discriminate | split; [discriminate | done]]].
      split; [discriminate |]. intros (r & [= <-] & Hr). apply Hown in Hr. discriminate.
  - split; [| split; [done | split; [discriminate | discriminate]]].
    split; [discriminate | intros (r & Hr & _); discriminate].
Qed.

(** ** Rate limiter *)

Section RateLimiter.

Variable windowMs max : Z.


(** The limiter in one step: what is on record for the client is cut down
    to the window, and the request is recorded when it passes. *)
Lemma rateLimitMiddleware_run (requests : gmap string (list Z)) (ip : string) (date : Z) :
  let kept := List.filter (in_window windowMs date) (default [] (requests !! ip)) in
  rateLimitMiddleware windowMs max requests ip date
  = if (max <=? Z.of_nat (length kept))%Z
    then (NextErr (JsError "Rate limit exceeded"), <[ip := kept]> requests)
    else (NextOk, <[ip := (kept ++ [date])%list]> requests).
Proof.
  unfold rateLimitMiddleware, in_window.
  destruct (requests !! ip) as [stamps |] eqn:Hip; cbn [default from_option id];
    rewrite lookup_insert_eq; cbn [default from_option id List.filter];
    destruct (max <=? _)%Z; by rewrite ?insert_insert_eq.
Qed.

Lemma rateLimitMiddleware_bounded (requests : gmap string (list Z)) (ip : string)
    (date : Z) :
  0 <= max ->
  bounded max requests ->
  bounded max (snd (rateLimitMiddleware windowMs max requests ip date)).
Proof.
  intros Hmax Hbounded. rewrite rateLimitMiddleware_run.
  set (kept := List.filter (in_window windowMs date) (default [] (requests !! ip))).
  assert (Hkept : Z.of_nat (length kept) <= max).
  { unfold kept. destruct (requests !! ip) as [stamps |] eqn:Hip;
      cbn [default from_option id List.filter length]; [| lia].
    pose proof (filter_length_le (in_window windowMs date) stamps).
    pose proof (Hbounded ip stamps Hip). lia. }
  destruct (Z.leb_spec max (Z.of_nat (length kept))) as [Hfull | Hroom]; cbn [snd];
    intros k l; (destruct (decide (k = ip)) as [-> | Hk];
                 [rewrite lookup_insert_eq; intros [= <-]
                 | rewrite lookup_insert_ne by done; apply Hbounded]).
  - exact Hkept.
  - rewrite length_app. cbn [length]. lia.
Qed.

(** X21: one request through the limiter.  It passes exactly when fewer
    than [max] earlier requests of the same client are on record within the
    window; a refused request ends in [Error('Rate limit exceeded')] and is
    not recorded; the records of other clients are not touched; and no
    client ever has more than [max] requests on record. *)
Theorem rateLimitMiddleware_step :
  forall (requests : gmap string (list Z)) (ip : string) (date : Z),
    0 <= max ->
    bounded max requests ->
    let kept := List.filter (in_window windowMs date) (default [] (requests !! ip)) in
    let outcome := fst (rateLimitMiddleware windowMs max requests ip date) in
    let requests' := snd (rateLimitMiddleware windowMs max requests ip date) in
    (outcome = NextOk <-> Z.of_nat (length kept) < max)
    /\ (outcome = NextOk -> requests' !! ip = Some (kept ++ [date])%list)
    /\ (outcome <> NextOk ->
        outcome = NextErr (JsError "Rate limit exceeded")
        /\ requests' !! ip = Some kept)
    /\ (forall other, other <> ip -> requests' !! other = requests !! other)
    /\ bounded max requests'.
Proof.
  intros requests ip date Hmax Hbounded kept outcome requests'.
  pose proof (rateLimitMiddleware_bounded requests ip date Hmax Hbounded) as Hafter.
  subst outcome requests'. revert Hafter. rewrite rateLimitMiddleware_run. fold kept.
  destruct (Z.leb_spec max (Z.of_nat (length kept))) as [Hfull | Hroom];
    cbn [fst snd]; intros Hafter.
  - split; [split; [discriminate | lia] |]. split; [discriminate |].
    split; [intros _; split; [done | apply lookup_insert_eq] |].
    split; [intros other Hother; by apply lookup_insert_ne | exact Hafter].
  - split; [done |]. split; [intros _; apply lookup_insert_eq |].
    split; [done |].
    split; [intros other Hother; by apply lookup_insert_ne | exact Hafter].
Qed.

Lemma filter_in_window_later (t0 date : Z) (l : list Z) :
  t0 <= date ->
  List.filter (in_window windowMs date) (List.filter (in_window windowMs t0) l)
  = List.filter (in_window windowMs date) l.
Proof.
  intros Hle. induction l as [| x l IH]; [reflexivity |].
  cbn [List.filter]. destruct (in_window windowMs t0 x) eqn:H0.
  - cbn [List.filter]. by rewrite IH.
  - destruct (in_window windowMs date x) eqn:H1; [| exact IH].
    unfold in_window in H0, H1. apply Z.ltb_lt in H1. apply Z.ltb_ge in H0. lia.
Qed.

Lemma filter_in_window_length (t0 date : Z) (l : list Z) :
  t0 <= date ->
  (length (List.filter (in_window windowMs date) l)
   <= length (List.filter (in_window windowMs t0) l))%nat.
Proof.
  intros Hle. rewrite <- (filter_in_window_later t0 date l Hle).
  apply filter_length_le.
Qed.

Lemma window_inv_step (requests : gmap string (list Z)) (hist : string -> list Z)
    (upto : Z) (ip : string) (date : Z) :
  0 < windowMs ->
  upto <= date ->
  window_inv windowMs requests hist upto ->
  window_inv windowMs (snd (rateLimitMiddleware windowMs max requests ip date))
    (fun k =>
       hist k ++
       accepted_times k [(ip, date)]
         [match fst (rateLimitMiddleware windowMs max requests ip date) with
          | NextOk => true
          | NextErr _ => false
          end])%list
    date.
Proof.
  intros Hwindow Hupto Hinv k. rewrite rateLimitMiddleware_run.
  set (kept := List.filter (in_window windowMs date) (default [] (requests !! ip))).
  assert (Hkept : kept = List.filter (in_window windowMs date) (hist ip)).
  { unfold kept. specialize (Hinv ip). destruct (requests !! ip) as [stamps |].
    - destruct Hinv as (t0 & Ht0 & ->). cbn [default from_option id].
      apply filter_in_window_later. lia.
    - by rewrite Hinv. }
  destruct (decide (k = ip)) as [-> | Hk].
  - destruct (max <=? Z.of_nat (length kept))%Z; cbn [fst snd accepted_times andb];
      rewrite lookup_insert_eq; exists date; (split; [lia |]).
    + by rewrite app_nil_r.
    + rewrite String.eqb_refl, List.filter_app. cbn [List.filter].
      unfold in_window at 2. destruct (Z.ltb_spec (date - windowMs) date); [| lia].
      by rewrite Hkept.
  - assert (Hacc : forall ok, accepted_times k [(ip, date)] [ok] = []).
    { intros ok. cbn [accepted_times]. apply String.eqb_neq in Hk.
      rewrite String.eqb_sym, Hk. by rewrite andb_false_r. }
    rewrite Hacc, app_nil_r.
    specialize (Hinv k).
    destruct (max <=? Z.of_nat (length kept))%Z; cbn [fst snd];
      rewrite lookup_insert_ne by done;
      (destruct (requests !! k); [| done]);
      destruct Hinv as (t0 & Ht0 & ->); exists t0; (split; [lia | done]).
Qed.

Lemma rate_limit_run_inv (events : list (string * Z)) :
  0 < windowMs ->
  0 <= max ->
  forall (requests : gmap string (list Z)) (hist : string -> list Z) (upto : Z),
    window_inv windowMs requests hist upto ->
    bounded max requests ->
    nondecreasing_from upto events ->
    exists upto',
      (upto' = upto \/ exists k, In (k, upto') events)
      /\ length (snd (rate_limit_run windowMs max requests events)) = length events
      /\ bounded max (fst (rate_limit_run windowMs max requests events))
      /\ window_inv windowMs (fst (rate_limit_run windowMs max requests events))
           (fun k =>
              hist k ++
              accepted_times k events
                (snd (rate_limit_run windowMs max requests events)))%list
           upto'.
Proof.
  intros Hwindow Hmax. induction events as [| [ip date] events IH];
    intros requests hist upto Hinv Hbounded Hsorted.
  - exists upto. cbn [rate_limit_run fst snd accepted_times length].
    split; [by left |]. split; [done |]. split; [done |].
    intros k. specialize (Hinv k). rewrite app_nil_r. exact Hinv.
  - destruct Hsorted as [Hupto Hsorted]. cbn [rate_limit_run].
    pose proof (window_inv_step requests hist upto ip date Hwindow Hupto Hinv) as Hstep.
    pose proof (rateLimitMiddleware_bounded requests ip date Hmax Hbounded)
      as Hbounded'.
    destruct (rateLimitMiddleware windowMs max requests ip date)
      as [outcome requests'] eqn:Hrun.
    cbn [fst snd] in Hstep, Hbounded'.
    destruct (IH requests' _ date Hstep Hbounded' Hsorted)
      as (upto' & Hwhich & Hlen & Hb & Hi).
    destruct (rate_limit_run windowMs max requests' events) as [final passed] eqn:Hrest.
    cbn [fst snd] in *. exists upto'.
    split.
    { right. destruct Hwhich as [-> | [k Hk]]; [exists ip; by left | exists k; by right]. }
    split; [cbn [length]; by rewrite Hlen |]. split; [exact Hb |].
    intros k. specialize (Hi k). destruct (final !! k) as [stamps |].
    + destruct Hi as (t0 & Ht0 & ->). exists t0. split; [done |].
      f_equal. rewrite <- app_assoc. f_equal.
      cbn [accepted_times]. destruct outcome; cbn [andb];
        destruct (String.eqb ip k); reflexivity.
    + rewrite <- app_assoc in Hi. rewrite <- Hi. f_equal.
      cbn [accepted_times]. destruct outcome; cbn [andb];
        destruct (String.eqb ip k); reflexivity.
Qed.

(** X22: the sliding-window guarantee.  Through a limiter that starts
    empty, with requests arriving in the order of their dates, no client
    gets more than [max] requests through within one window: of the
    requests of a client that passed, at most [max] are later than
    [date - windowMs], for every [date] from the last request on. *)
Theorem rate_limit_window_guarantee :
  forall (events : list (string * Z)) (start : Z) (ip : string) (date : Z),
    0 < windowMs ->
    0 <= max ->
    nondecreasing_from start events ->
    start <= date ->
    (forall k d, In (k, d) events -> d <= date) ->
    Z.of_nat
      (length
         (List.filter (in_window windowMs date)
            (accepted_times ip events
               (snd (rate_limit_run windowMs max ∅ events)))))
    <= max.
Proof.
  intros events start ip date Hwindow Hmax Hsorted Hstart Hdate.
  destruct (rate_limit_run_inv events Hwindow Hmax ∅ (fun _ => []) start)
    as (upto' & Hwhich & _ & Hbounded & Hinv); [done | | done |].
  { intros k l. by rewrite lookup_empty. }
  assert (Hupto : upto' <= date).
  { destruct Hwhich as [-> | [k Hk]]; [done | by apply (Hdate k)]. }
  specialize (Hinv ip). cbn [app] in Hinv.
  destruct (fst (rate_limit_run windowMs max ∅ events) !! ip) as [stamps |] eqn:Hlookup.
  - destruct Hinv as (t0 & Ht0 & Hstamps).
    pose proof (Hbounded ip stamps Hlookup) as Hlen. rewrite Hstamps in Hlen.
    pose proof (filter_in_window_length t0 date
                  (accepted_times ip events (snd (rate_limit_run windowMs max ∅ events)))
                  ltac:(lia)).
    lia.
  - rewrite Hinv. cbn [List.filter length]. lia.
Qed.

End RateLimiter.

(** ** Error handler *)

Lemma handleSecurityError_run (error : AppError) (req : RequestInfo) (w : World) :
  handleSecurityError error req w
  = (inr tt,
     if is_security_code (err_code error)
     then set_auditLog (auditLog w ++ [security_error_row error req (now w)]) w
     else w).
Proof.
  unfold handleSecurityError, try_catch, when_.
  destruct (is_security_code (err_code error)); reflexivity.
Qed.

(** X23: what the handler does with a plain [Error], such as the ones the
    service, the rate limiter and [requireResourceOwnership] create with
    [new Error(message)].  The answer has status 500 and carries the
    message of the error as it is, in production too: only errors whose
    [statusCode] is 500 get their message replaced, and a plain error has
    none.  In production the handler then ends the process.  Nothing is
    written. *)
Theorem errorHandler_plain_error :
  forall (node_env : option string) (message : string) (req : RequestInfo) (w : World),
    let handled := fst (errorHandler node_env (app_error (JsError message)) req w) in
    handled_status handled = 500
    /\ body_statusCode (handled_body handled) = 500
    /\ body_message (handled_body handled) = message
    /\ body_code (handled_body handled) = None
    /\ (handled_exit handled = true <-> node_env = Some "production")
    /\ snd (errorHandler node_env (app_error (JsError message)) req w) = w.
Proof.
  intros node_env message req w handled. subst handled.
  unfold errorHandler. rewrite handleSecurityError_run.
  change (handleSpecificErrors (app_error (JsError message)))
    with (app_error (JsError message)).
  cbn [fst snd app_error err_statusCode err_code err_message err_isCustom
       handled_status handled_body handled_exit status_or_500 is_security_code
       isOperationalError negb andb].
  unfold formatErrorResponse.
  cbn [app_error err_statusCode err_code err_message err_details truthy andb
       body_statusCode body_message body_code status_or_500].
  repeat split; try reflexivity.
  - by rewrite andb_false_r.
  - intros Hexit. by apply bool_decide_eq_true in Hexit.
  - intros ->. reflexivity.
Qed.

(** X24: what the handler does with the errors of the guards.  An
    [AuthenticationError] is answered with status 401 and an
    [AuthorizationError] with 403, each with its own message and code, in
    every environment; the process goes on; and one [SECURITY_ERROR] row,
    with the id of the user of the request if there is one, is appended to
    the audit log, users and sessions being untouched. *)
Theorem errorHandler_guard_error :
  forall (node_env : option string) (message : string) (req : RequestInfo) (w : World)
         (e : Exn) (status : Z) (code : string),
    (e = AuthenticationError message /\ status = 401 /\ code = "AUTHENTICATION_ERROR")
    \/ (e = AuthorizationError message /\ status = 403 /\ code = "AUTHORIZATION_ERROR") ->
    let handled := fst (errorHandler node_env (app_error e) req w) in
    let w' := snd (errorHandler node_env (app_error e) req w) in
    handled_status handled = status
    /\ body_statusCode (handled_body handled) = status
    /\ body_message (handled_body handled) = message
    /\ body_code (handled_body handled) = Some code
    /\ handled_exit handled = false
    /\ users w' = users w
    /\ sessions w' = sessions w
    /\ auditLog w' = (auditLog w ++ [security_error_row (app_error e) req (now w)])%list
    /\ AuditLog.userId (security_error_row (app_error e) req (now w))
       = NovaSanctumUser.id <$> info_user req.
Proof.
  intros node_env message req w e status code
         [(-> & -> & ->) | (-> & -> & ->)] handled w';
    subst handled w'; unfold errorHandler; rewrite handleSecurityError_run;
    match goal with
    | |- context [handleSpecificErrors (app_error ?x)] =>
        change (handleSpecificErrors (app_error x)) with (app_error x)
    end;
    cbn [fst snd handled_status handled_body handled_exit];
    unfold formatErrorResponse;
    cbn [app_error AuthenticationError AuthorizationError mkCustomError
         err_statusCode err_code err_message err_details err_isCustom truthy andb
         body_statusCode body_message body_code status_or_500 isOperationalError negb
         Z.eqb String.eqb Ascii.eqb Bool.eqb];
    (assert (Hnot500 : forall n : Z, n = 401 \/ n = 403 ->
                bool_decide (Some n = Some 500) = false)
       by (intros n [-> | ->]; reflexivity));
    rewrite ?Hnot500 by auto; rewrite ?andb_false_r;
    repeat split; reflexivity.
Qed.

(** X25: an error named [PrismaClientKnownRequestError] is always handled
    as a [DatabaseError]: status 500, code [DATABASE_ERROR], and a message
    that is never the one of the error ([Internal server error] in
    production, [Database operation failed] elsewhere), whatever its code:
    also for the codes P2002 and P2025, which reach the conflict (409) and
    not-found (404) answers only on errors of another name. *)
Theorem errorHandler_prisma_known_error :
  forall (node_env : option string) (error : AppError) (req : RequestInfo) (w : World),
    err_name error = "PrismaClientKnownRequestError" ->
    let handled := fst (errorHandler node_env error req w) in
    handled_status handled = 500
    /\ body_code (handled_body handled) = Some "DATABASE_ERROR"
    /\ body_message (handled_body handled)
       = (if bool_decide (node_env = Some "production")
          then "Internal server error" else "Database operation failed")
    /\ handled_exit handled = false
    /\ snd (errorHandler node_env error req w) = w
    /\ forall other : AppError,
         err_name other = "Error" ->
         (err_code other = Some "P2002" ->
            handled_status (fst (errorHandler node_env other req w)) = 409)
         /\ (err_code other = Some "P2025" ->
               handled_status (fst (errorHandler node_env other req w)) = 404).
Proof.
  intros node_env error req w Hname handled. subst handled.
  unfold errorHandler. rewrite !handleSecurityError_run.
  assert (Hhandled : handleSpecificErrors error = DatabaseError "Database operation failed").
  { unfold handleSpecificErrors. by rewrite Hname. }
  rewrite Hhandled. cbn.
  split; [done |]. split; [done |].
  split; [by destruct (bool_decide (node_env = Some "production")) |].
  split; [done |]. split; [done |].
  intros other Hother. split; intros Hcode.
  - assert (Hh : handleSpecificErrors other = ConflictError "Resource already exists").
    { unfold handleSpecificErrors. rewrite Hother, Hcode. reflexivity. }
    by rewrite Hh.
  - assert (Hh : handleSpecificErrors other = NotFoundError "Resource not found").
    { unfold handleSpecificErrors. rewrite Hother, Hcode. reflexivity. }
    by rewrite Hh.
Qed.

(** X26: [handleSpecificErrors] is idempotent, what it returns is always
    either the error itself or a [CustomError], and the errors of the
    service and of the guards pass through it unchanged. *)
Theorem handleSpecificErrors_idempotent :
  forall (error : AppError),
    handleSpecificErrors (handleSpecificErrors error) = handleSpecificErrors error
    /\ (handleSpecificErrors error = error
        \/ err_isCustom (handleSpecificErrors error) = true)
    /\ (forall message,
          handleSpecificErrors (app_error (JsError message)) = app_error (JsError message)
          /\ handleSpecificErrors (app_error (AuthenticationError message))
             = app_error (AuthenticationError message)
          /\ handleSpecificErrors (app_error (AuthorizationError message))
             = app_error (AuthorizationError message)).
Proof.
  intros error. split; [| split; [| by intros message]].
  - assert (Hfix : forall e', handleSpecificErrors error = e' ->
                              handleSpecificErrors e' = e'); [| by apply Hfix].
    intros e' He'. unfold handleSpecificErrors in He'.
    repeat (destruct (String.eqb (err_name error) _) eqn:? in He';
            [by subst e' |]).
    repeat (destruct (bool_decide (err_code error = _)) eqn:? in He';
            [by subst e' |]).
    subst e'. unfold handleSpecificErrors.
    repeat match goal with H : _ = false |- _ => rewrite H; clear H end. reflexivity.
  - unfold handleSpecificErrors.
    repeat (destruct (String.eqb (err_name error) _); [by right |]).
    repeat (destruct (bool_decide (err_code error = _)); [by right |]).
    by left.
Qed.

(** ** Concrete runs of the further properties *)

Lemma verifyToken_permissions_witness :
  fst (NovaSanctumService.verifyToken default_config Standin.jwt_verify "u1"
         MoreRuns.active_world)
  = inr (identity_of (Standin.alice false None 0 true))
  /\ hasPermission (identity_of (Standin.alice false None 0 true)) "user:read:own" = true
  /\ exists u : User.t, In u (users MoreRuns.active_world) /\ User.id u = "u1".
Proof.
  split; [reflexivity |]. split; [reflexivity |].
  destruct (verifyToken_permissions default_config Standin.jwt_verify "u1"
              MoreRuns.active_world (identity_of (Standin.alice false None 0 true))
              eq_refl) as (u & Hin & Hid & _).
  exists u. split; [exact Hin | exact Hid].
Defined.

Lemma deactivated_login_token_is_refused_witness :
  User.isActive (Standin.alice false None 0 false) = false
  /\ exists tokens : NovaSanctumToken.t,
       fst (Standin.authenticateUser "a@x.com" "P1" Runs.ip Runs.agent
              MoreRuns.deactivated_world) = inr tokens
       /\ fst (NovaSanctumService.verifyToken default_config Standin.jwt_verify
                 (NovaSanctumToken.accessToken tokens)
                 (snd (Standin.authenticateUser "a@x.com" "P1" Runs.ip Runs.agent
                         MoreRuns.deactivated_world)))
          = inl (JsError "Invalid token").
Proof.
  split; [reflexivity |].
  destruct (deactivated_login_token_is_refused default_config Standin.sha256
              Standin.bcrypt_compare Standin.uuidv4 Standin.cuid Standin.jwt_sign
              Standin.jwt_verify Standin.jwt_expired)
    with (email := "a@x.com") (password := "P1") (ip := Runs.ip) (ua := Runs.agent)
         (w := MoreRuns.deactivated_world)
         (later := snd (Standin.authenticateUser "a@x.com" "P1" Runs.ip Runs.agent
                          MoreRuns.deactivated_world))
         (u := Standin.alice false None 0 false)
         (expiresIn := Num 86400000) (refreshExpiresIn := Num 604800000)
    as (tokens & Hlogin & Hverify); try reflexivity.
  - intros [userId type] secret expiresIn issued date Htype _ _.
    cbn in Htype. subst type. reflexivity.
  - exists tokens. split; [exact Hlogin |]. apply Hverify. reflexivity.
Defined.

Lemma successful_login_resets_lockout_witness :
  User.failedLoginAttempts (Standin.alice false (Some 5) 3 true) = 3
  /\ exists u' : User.t,
       find (by_id "u1")
         (users (snd (Standin.authenticateUser "a@x.com" "P1" Runs.ip Runs.agent
                        (Standin.world [Standin.alice false (Some 5) 3 true] [] 1000))))
       = Some u'
       /\ User.failedLoginAttempts u' = 0
       /\ User.lockedUntil u' = None
       /\ User.lastLoginAt u' = Some 1000.
Proof.
  split; [reflexivity |].
  destruct (successful_login_resets_lockout default_config Standin.sha256
              Standin.bcrypt_compare Standin.uuidv4 Standin.cuid Standin.jwt_sign
              "a@x.com" "P1" Runs.ip Runs.agent
              (Standin.world [Standin.alice false (Some 5) 3 true] [] 1000)
              (Standin.alice false (Some 5) 3 true) (Num 86400000) (Num 604800000)
              eq_refl eq_refl eq_refl eq_refl eq_refl)
    as (u' & Hfind & Hcount & _ & Huntil & Hlast).
  exists u'. repeat split; assumption.
Defined.

Lemma wrong_passwords_count_then_lock_witness :
  exists after : User.t,
    find (by_email "a@x.com")
      (users (attempts default_config Standin.sha256 Standin.bcrypt_compare
                Standin.uuidv4 Standin.cuid Standin.jwt_sign
                ([1000; 2000; 3000; 4000] ++ [5000]) "a@x.com" "P2" Runs.ip Runs.agent
                Runs.fresh)) = Some after
    /\ User.failedLoginAttempts after = 5
    /\ User.isLocked after = true
    /\ User.lockedUntil after = Some 905000.
Proof.
  destruct (wrong_passwords_count_then_lock default_config Standin.sha256
              Standin.bcrypt_compare Standin.uuidv4 Standin.cuid Standin.jwt_sign
              [1000; 2000; 3000; 4000] 5000 "a@x.com" "P2" Runs.ip Runs.agent
              Runs.fresh (Standin.alice false None 0 true)
              eq_refl eq_refl eq_refl eq_refl eq_refl)
    as (_ & after & Hfind & Hcount & Hlocked & Huntil).
  exists after. repeat split; assumption.
Defined.

Lemma locked_account_attempts_change_nothing_witness :
  User.isLocked (Standin.alice true (Some 905000) 5 true) = true
  /\ users (attempts default_config Standin.sha256 Standin.bcrypt_compare
              Standin.uuidv4 Standin.cuid Standin.jwt_sign
              [2000000; 3000000] "a@x.com" "P1" Runs.ip Runs.agent
              MoreRuns.locked_world)
     = users MoreRuns.locked_world.
Proof.
  split; [reflexivity |].
  apply (locked_account_attempts_change_nothing default_config Standin.sha256
           Standin.bcrypt_compare Standin.uuidv4 Standin.cuid Standin.jwt_sign
           [2000000; 3000000] "a@x.com" "P1" Runs.ip Runs.agent
           MoreRuns.locked_world (Standin.alice true (Some 905000) 5 true)
           eq_refl eq_refl).
Defined.

Lemma login_then_refresh_witness :
  exists tokens tokens' : NovaSanctumToken.t,
    fst (Standin.authenticateUser "a@x.com" "P1" Runs.ip Runs.agent
           MoreRuns.active_world) = inr tokens
    /\ fst (Standin.refreshToken (NovaSanctumToken.refreshToken tokens) "192.168.7.7"
              (set_now 2000
                 (snd (Standin.authenticateUser "a@x.com" "P1" Runs.ip Runs.agent
                         MoreRuns.active_world))))
       = inr tokens'.
Proof.
  destruct (login_then_refresh default_config Standin.sha256 Standin.bcrypt_compare
              Standin.uuidv4 Standin.cuid Standin.jwt_sign
              "a@x.com" "P1" Runs.ip Runs.agent "192.168.7.7" MoreRuns.active_world
              (set_now 2000
                 (snd (Standin.authenticateUser "a@x.com" "P1" Runs.ip Runs.agent
                         MoreRuns.active_world)))
              (Standin.alice false None 0 true) (Num 86400000) (Num 604800000)
              eq_refl eq_refl eq_refl eq_refl eq_refl)
    as (tokens & tokens' & Hlogin & _ & Hrefresh & _).
  - intros s [].
  - reflexivity.
  - reflexivity.
  - exists tokens, tokens'. split; [exact Hlogin | exact Hrefresh].
Defined.

Lemma logoutUser_revokes_token_witness :
  fst (NovaSanctumService.findActiveByRawToken Standin.sha256 "old-token"
         MoreRuns.session_world) = inr (Some (Runs.session1 5000))
  /\ fst (NovaSanctumService.findActiveByRawToken Standin.sha256 "old-token"
            (snd (NovaSanctumService.logoutUser Standin.sha256 "u1" "old-token" Runs.ip
                    MoreRuns.session_world))) = inr None.
Proof.
  split; [reflexivity |].
  apply (logoutUser_revokes_token default_config Standin.sha256 Standin.uuidv4
           Standin.jwt_sign "u1" "old-token" Runs.ip MoreRuns.session_world).
  - intros s [<- | []] _. reflexivity.
  - intros s1 s2 [<- | []] [<- | []] _ _. reflexivity.
  - reflexivity.
Defined.

Lemma logoutUser_spares_other_users_witness :
  Session.userId (Runs.session1 5000) <> "u2"
  /\ sessions (snd (NovaSanctumService.logoutUser Standin.sha256 "u2" "old-token" Runs.ip
                      MoreRuns.session_world))
     = sessions MoreRuns.session_world.
Proof.
  assert (Hother : Session.userId (Runs.session1 5000) <> "u2")
    by (vm_compute; discriminate).
  split; [exact Hother |].
  apply (logoutUser_spares_other_users Standin.sha256 "u2" "old-token" Runs.ip
           MoreRuns.session_world).
  intros s [<- | []] _. exact Hother.
Defined.

Lemma getSecurityStats_counts_refused_login_witness :
  exists before after : SecurityStats,
    NovaSanctumService.getSecurityStats default_config MoreRuns.locked_world
    = (inr before, MoreRuns.locked_world)
    /\ stats_failedLogins24h before = 0%nat
    /\ fst (NovaSanctumService.getSecurityStats default_config
              (snd (Standin.authenticateUser "a@x.com" "P1" Runs.ip Runs.agent
                      MoreRuns.locked_world))) = inr after
    /\ stats_failedLogins24h after = 1%nat.
Proof.
  destruct (getSecurityStats_counts_refused_login default_config Standin.sha256
              Standin.bcrypt_compare Standin.uuidv4 Standin.cuid Standin.jwt_sign
              "a@x.com" "P1" Runs.ip Runs.agent MoreRuns.locked_world AccountLocked
              eq_refl)
    as (before & after & Hbefore & Hafter & Hcount & _).
  exists before, after. split; [exact Hbefore |].
  assert (Hzero : stats_failedLogins24h before = 0%nat).
  { injection Hbefore as <-. reflexivity. }
  split; [exact Hzero |]. split; [exact Hafter |]. by rewrite Hcount, Hzero.
Defined.

Lemma bearer_token_spec_witness :
  bearer_token (Some "Bearer abc.def") = Some "abc.def"
  /\ bearer_token (Some "Basic abc.def") = Some "abc.def"
  /\ bearer_token (Some "Bearer") = None.
Proof.
  assert (Hne : "abc.def" <> "") by discriminate.
  destruct (bearer_token_spec "Bearer" "abc.def" eq_refl eq_refl Hne) as (Hbearer & _).
  destruct (bearer_token_spec "Basic" "abc.def" eq_refl eq_refl Hne) as (Hbasic & _).
  split; [exact Hbearer |]. split; [exact Hbasic | reflexivity].
Defined.

Lemma rateLimitMiddleware_step_witness :
  fst (rateLimitMiddleware 1000 2 {[ "10.0.0.1" := [100; 4500] ]} "10.0.0.1" 5000)
  = NextOk
  /\ snd (rateLimitMiddleware 1000 2 {[ "10.0.0.1" := [100; 4500] ]} "10.0.0.1" 5000)
     !! "10.0.0.1" = Some [4500; 5000]
  /\ fst (rateLimitMiddleware 1000 2
            (snd (rateLimitMiddleware 1000 2 {[ "10.0.0.1" := [100; 4500] ]}
                    "10.0.0.1" 5000))
            "10.0.0.1" 5400)
     = NextErr (JsError "Rate limit exceeded").
Proof.
  assert (Hbounded : bounded 2 ({[ "10.0.0.1" := [100; 4500] ]} : gmap string (list Z))).
  { intros ip stamps Hlookup. apply lookup_singleton_Some in Hlookup as [_ <-].
    cbn. lia. }
  destruct (rateLimitMiddleware_step 1000 2 {[ "10.0.0.1" := [100; 4500] ]}
              "10.0.0.1" 5000 ltac:(lia) Hbounded) as (Hpass & Hrecord & _).
  assert (Hok : fst (rateLimitMiddleware 1000 2 {[ "10.0.0.1" := [100; 4500] ]}
                       "10.0.0.1" 5000) = NextOk).
  { apply Hpass. vm_compute. reflexivity. }
  split; [exact Hok |]. split.
  - rewrite (Hrecord Hok). vm_compute. reflexivity.
  - vm_compute. reflexivity.
Defined.

Lemma rate_limit_window_guarantee_witness :
  snd (rate_limit_run 100 2 ∅ MoreRuns.burst) = [true; true; false; true; false]
  /\ Z.of_nat
       (length
          (List.filter (in_window 100 30)
             (accepted_times "10.0.0.1" MoreRuns.burst
                (snd (rate_limit_run 100 2 ∅ MoreRuns.burst)))))
     <= 2.
Proof.
  split; [vm_compute; reflexivity |].
  apply (rate_limit_window_guarantee 100 2 MoreRuns.burst 0 "10.0.0.1" 30);
    [lia | lia | | lia |].
  - cbn. repeat split; lia.
  - intros k d Hin. cbn in Hin.
    repeat (destruct Hin as [[= <- <-] | Hin]; [lia |]). destruct Hin.
Defined.

Lemma errorHandler_guard_error_witness :
  requireOwnerOrAdmin "userId"
    {| req_user := Some (identity_of (Standin.alice false None 0 true));
       req_params := {[ "userId" := "u2" ]}; req_body := ∅ |}
  = NextErr (AuthorizationError "Access denied")
  /\ handled_status
       (fst (errorHandler (Some "production")
               (app_error (AuthorizationError "Access denied"))
               MoreRuns.request_info MoreRuns.active_world)) = 403
  /\ handled_exit
       (fst (errorHandler (Some "production")
               (app_error (AuthorizationError "Access denied"))
               MoreRuns.request_info MoreRuns.active_world)) = false.
Proof.
  split; [vm_compute; reflexivity |].
  destruct (errorHandler_guard_error (Some "production") "Access denied"
              MoreRuns.request_info MoreRuns.active_world
              (AuthorizationError "Access denied") 403 "AUTHORIZATION_ERROR"
              (or_intror (conj eq_refl (conj eq_refl eq_refl))))
    as (Hstatus & _ & _ & _ & Hexit & _).
  split; [exact Hstatus | exact Hexit].
Defined.

Lemma errorHandler_prisma_known_error_witness :
  err_code MoreRuns.unique_violation = Some "P2002"
  /\ handled_status
       (fst (errorHandler (Some "production") MoreRuns.unique_violation
               MoreRuns.request_info MoreRuns.active_world)) = 500
  /\ body_message
       (handled_body
          (fst (errorHandler (Some "production") MoreRuns.unique_violation
                  MoreRuns.request_info MoreRuns.active_world)))
     = "Internal server error".
Proof.
  split; [reflexivity |].
  destruct (errorHandler_prisma_known_error (Some "production")
              MoreRuns.unique_violation MoreRuns.request_info MoreRuns.active_world
              eq_refl) as (Hstatus & _ & Hmessage & _).
  split; [exact Hstatus | exact Hmessage].
Defined.
